(** * BetaWala Test: a shallow embedding of the performance-test engine

    The development follows the three source units of the repository:

    - [Route]  : the streaming API route (runPerformanceTest and its
                 simulated stages, generateTestResults);
    - [Page]   : the client page (isValidUrl, formatUrl and the gate in
                 front of the request);
    - [Tester] : the Puppeteer tester class (runLoadTest,
                 singleUserLoadTest).

    JavaScript numbers are modelled by rationals ([Q]), or integers
    ([Z]) where the code only ever holds integers.  In the load-time
    probe, the mobile score and the latencies of the load generator the
    arithmetic is that of IEEE 754 binary64: every operation is the
    exact one followed by [JS.double], rounding to the nearest double,
    ties to even.  The link and load-test stages of the route and the
    scores are kept on exact values: only ranges and comparisons with
    integers are stated about them, and these are the same in doubles
    ([parseFloat_thresholds], [stage_ranges_in_doubles]).  The results
    of [toFixed(2)] are decimal strings and are modelled by their number
    of hundredths. *)

From Stdlib Require Import ZArith QArith Qround Qminmax List String Ascii Bool.
From Stdlib Require Import Lia Lqa.
Import ListNotations.

Open Scope Z_scope.

(* ================================================================== *)
(** * JavaScript values *)
(* ================================================================== *)

Module JS.

(** Strict comparison [x < y] on numbers. *)
Definition Qltb (x y : Q) : bool := negb (Qle_bool y x).

(** [Math.round]: nearest integer, ties towards +infinity. *)
Definition Math_round (x : Q) : Z := Qfloor (x + (1 # 2)).

(** [Math.floor]. *)
Definition Math_floor (x : Q) : Z := Qfloor x.

(** ** Binary64 arithmetic

    A double is a rational [m * 2^e] with [|m| < 2^53] and
    [-1074 <= e]; the model leaves the upper end of the range open, no
    number of the program coming near it. *)

(** Rounding to the nearest integer, ties to the even one. *)
Definition rne (t : Q) : Z :=
  let f := Qfloor t in
  match Qcompare (t - inject_Z f) (1 # 2) with
  | Lt => f
  | Gt => f + 1
  | Eq => if Z.even f then f else f + 1
  end.

(** The inverse of the smallest positive double. *)
Definition two_1074 : Q := inject_Z (2 ^ 1074).

(** For [y = x * 2^1074]: how many binary places below the unit of [y]
    the last place of the double nearest to [x] lies; zero in the
    subnormal range. *)
Definition binade (y : Q) : Z := Z.max 0 (Z.log2 (Qfloor y) - 52).

(** The double nearest to a non-negative [x]. *)
Definition double_nonneg (x : Q) : Q :=
  let y := (x * two_1074)%Q in
  let g := binade y in
  (inject_Z (rne (y / inject_Z (2 ^ g)) * 2 ^ g) / two_1074)%Q.

(** The double nearest to [x], ties to even: the value of a numeric
    literal, and the rounding that ends every arithmetic operation. *)
Definition double (x : Q) : Q :=
  if Qle_bool 0 x then double_nonneg x else (- double_nonneg (- x))%Q.

(** [x + y], [x * y] and [x / y] on doubles ([y] not zero). *)
Definition fadd (x y : Q) : Q := double (x + y).
Definition fmul (x y : Q) : Q := double (x * y).
Definition fdiv (x y : Q) : Q := double (x / y).

(** The string produced by [x.toFixed(2)], kept as its number of
    hundredths: ["4.50"] is [{| hundredths := 450 |}]. *)
Record Fixed2 : Set := mkFixed2 { hundredths : Z }.

(** [x.toFixed(2)]: the integer [n] with [n / 100] closest to the exact
    value of the number [x], the larger one on a tie; a negative [x] is
    formatted as ["-"] followed by the digits of [-x].  The rounding is
    that of the exact value, so what is printed for the result of an
    operation depends on how the operation rounded: [1005 / 1000] is
    the double just below 1.005 and prints as ["1.00"]. *)
Definition toFixed2 (x : Q) : Fixed2 :=
  if Qltb x 0
  then mkFixed2 (- Qfloor ((- x) * 100 + (1 # 2)))
  else mkFixed2 (Qfloor (x * 100 + (1 # 2))).

(** [Number.parseFloat] on a string produced by [toFixed(2)]. *)
Definition parseFloat (s : Fixed2) : Q := Qmake (hundredths s) 100.

(** Numbers that may leave the finite range (a division by zero). *)
Inductive Number : Set :=
| Fin (q : Q)
| NaN
| PosInfinity
| NegInfinity.

(** [a / b] on finite operands. *)
Definition div (a b : Q) : Number :=
  if Qeq_bool b 0
  then (if Qeq_bool a 0 then NaN
        else if Qle_bool 0 a then PosInfinity else NegInfinity)
  else Fin (a / b).

(** [x * k] for a finite positive constant [k]. *)
Definition mul_pos (x : Number) (k : Q) : Number :=
  match x with
  | Fin q => Fin (q * k)
  | other => other
  end.

(** [Math.round] beyond the finite range. *)
Definition round (x : Number) : Number :=
  match x with
  | Fin q => Fin (inject_Z (Math_round q))
  | other => other
  end.

(** A template literal: literal chunks and interpolated values, in
    order. *)
Inductive Frag : Set :=
| Lit (s : string)
| Str (d : Fixed2)      (* an interpolated toFixed(2) string *)
| Num (n : Number).     (* an interpolated number *)

Definition Text : Set := list Frag.

Definition NumZ (z : Z) : Frag := Num (Fin (inject_Z z)).
Definition NumQ (q : Q) : Frag := Num (Fin q).

(** Truthiness of an optional string (absent and empty are falsy). *)
Definition truthy_string (o : option string) : bool :=
  match o with
  | Some s => negb (String.eqb s EmptyString)
  | None => false
  end.

(** Truthiness of an optional number (absent and [0] are falsy). *)
Definition truthy_number (o : option Q) : bool :=
  match o with
  | Some q => negb (Qeq_bool q 0)
  | None => false
  end.

(** [hay.includes(needle)]. *)
Fixpoint includes (needle hay : string) : bool :=
  String.prefix needle hay ||
  match hay with
  | EmptyString => false
  | String _ rest => includes needle rest
  end.

(** [s.startsWith(p)]. *)
Definition startsWith (p s : string) : bool := String.prefix p s.

End JS.

(* ================================================================== *)
(** * The API route: stages, scoring and the event stream *)
(* ================================================================== *)

Module Route.
Import JS.

(** ** Data *)

(** The object returned by [simulateLoadTest]. *)
Record LoadTestResults : Set := mkLoadTestResults {
  lt_totalRequests : Z;
  lt_failedRequests : Z;
  lt_avgResponseTime : Fixed2;
  lt_maxResponseTime : Fixed2
}.

(** The [testData] argument of [generateTestResults]. *)
Record TestData : Set := mkTestData {
  td_loadTime : Fixed2;
  td_brokenLinks : list string;
  td_mobileScore : Z;
  td_loadTestResults : LoadTestResults
}.

Inductive Severity : Set := high | medium.

Record Issue : Set := mkIssue {
  severity : Severity;
  description : Text
}.

(** The report; [timestamp] is the clock reading (milliseconds) that
    [new Date().toISOString()] prints. *)
Record Report : Set := mkReport {
  url : string;
  timestamp : Z;
  overallScore : Z;
  loadTime : Fixed2;
  speedIndex : Fixed2;
  totalRequests : Z;
  failedRequests : Z;
  mobileScore : Z;
  brokenLinks : list string;
  issues : list Issue;
  recommendations : list string
}.

(** ** generateTestResults

    The first argument is the clock the function reads through
    [new Date()]; the other two are its JavaScript arguments. *)
Definition generateTestResults (now : Z) (url : string) (testData : TestData)
  : Report :=
  let loadTime := parseFloat (td_loadTime testData) in
  let mobileScore := td_mobileScore testData in
  let failedRequests := lt_failedRequests (td_loadTestResults testData) in
  let brokenLinks_length := Z.of_nat (List.length (td_brokenLinks testData)) in
  let overallScore := 100 in
  let overallScore :=
    if Qltb 3 loadTime then overallScore - 20
    else if Qltb 2 loadTime then overallScore - 10
    else if Qltb 1 loadTime then overallScore - 5
    else overallScore in
  let overallScore :=
    if mobileScore <? 80 then overallScore - 15
    else if mobileScore <? 90 then overallScore - 5
    else overallScore in
  let overallScore := overallScore - failedRequests * 5 in
  let overallScore := overallScore - brokenLinks_length * 10 in
  let overallScore := Z.max 0 (Z.min 100 overallScore) in
  let issues : list Issue := [] in
  let recommendations : list string := [] in
  let '(issues, recommendations) :=
    if Qltb 2 loadTime then
      (issues ++ [ {| severity := if Qltb 4 loadTime then high else medium;
                      description :=
                        [Lit "Page load time is "; NumQ loadTime;
                         Lit "s, which may impact user experience"] |} ],
       recommendations ++
         ["Optimize images and enable compression to reduce load times"%string])
    else (issues, recommendations) in
  let '(issues, recommendations) :=
    if mobileScore <? 85 then
      (issues ++ [ {| severity := medium;
                      description :=
                        [Lit "Mobile responsiveness could be improved"] |} ],
       recommendations ++
         ["Ensure responsive design works well on all device sizes"%string])
    else (issues, recommendations) in
  let '(issues, recommendations) :=
    if 0 <? brokenLinks_length then
      (issues ++ [ {| severity := high;
                      description :=
                        [Lit "Found "; NumZ brokenLinks_length;
                         Lit " broken links"] |} ],
       recommendations ++
         ["Fix broken links to improve user experience and SEO"%string])
    else (issues, recommendations) in
  let '(issues, recommendations) :=
    if 0 <? failedRequests then
      (issues ++ [ {| severity := medium;
                      description :=
                        [NumZ failedRequests;
                         Lit " requests failed during load testing"] |} ],
       recommendations ++
         ["Investigate server stability under load"%string])
    else (issues, recommendations) in
  {| url := url;
     timestamp := now;
     overallScore := Math_round (inject_Z overallScore);
     loadTime := td_loadTime testData;
     speedIndex := toFixed2 (parseFloat (td_loadTime testData) * (12 # 10));
     totalRequests := lt_totalRequests (td_loadTestResults testData);
     failedRequests := lt_failedRequests (td_loadTestResults testData);
     mobileScore := td_mobileScore testData;
     brokenLinks := td_brokenLinks testData;
     issues := issues;
     recommendations := recommendations |}.

(** ** Messages of the stream *)

(** The [metrics] object of a message; a field that is not written is
    absent. *)
Record Metrics : Set := mkMetrics {
  currentLoadTime : option Text;
  requestsProcessed : option Z;
  successRate : option Text;
  concurrent : option Z
}.

(** One newline-delimited JSON object of the stream. *)
Record Message : Set := mkMessage {
  progress : option Z;
  status : option string;
  metrics : option Metrics;
  results : option Report;
  error : option string;
  message : option string
}.

Definition progress_message (p : Z) (s : string) (m : Metrics) : Message :=
  {| progress := Some p; status := Some s; metrics := Some m;
     results := None; error := None; message := None |}.

Definition metrics_message (m : Metrics) : Message :=
  {| progress := None; status := None; metrics := Some m;
     results := None; error := None; message := None |}.

Definition results_message (p : Z) (s : string) (r : Report) : Message :=
  {| progress := Some p; status := Some s; metrics := None;
     results := Some r; error := None; message := None |}.

Definition error_message (e m : string) : Message :=
  {| progress := None; status := None; metrics := None;
     results := None; error := Some e; message := Some m |}.

(** ** The world the route runs in *)

(** How the HEAD request of the load-time probe ends, and after how many
    milliseconds. *)
Inductive FetchOutcome : Set :=
| Responded (elapsed : Z)
| Rejected (elapsed : Z).

(** What the route cannot decide by itself: the successive values of
    [Math.random()] and the fate of a HEAD request to a url. *)
Record Env : Type := mkEnv {
  random : nat -> Q;
  fetch : string -> FetchOutcome
}.

(** What the route does to the outside. *)
Inductive Event : Set :=
| Enqueued (m : Message)     (* controller.enqueue *)
| Slept (ms : Z)             (* await delay(ms) *)
| FetchedHead (u : string)   (* fetch(u, { method: "HEAD" }) *)
| Closed.                    (* controller.close() *)

(** The clock, the number of random values drawn so far and the events
    so far, oldest first. *)
Record World : Set := mkWorld {
  now : Z;
  draws : nat;
  events : list Event
}.

(** An asynchronous computation either returns or throws. *)
Inductive Completion (A : Type) : Type :=
| Returned (a : A)
| Thrown (msg : string).
Arguments Returned {A} a.
Arguments Thrown {A} msg.

Definition Async (A : Type) : Type := Env -> World -> Completion A * World.

Definition ret {A} (a : A) : Async A := fun _ w => (Returned a, w).

Definition bind {A B} (m : Async A) (k : A -> Async B) : Async B :=
  fun e w =>
    match m e w with
    | (Returned a, w') => k a e w'
    | (Thrown msg, w') => (Thrown msg, w')
    end.

Definition throw {A} (msg : string) : Async A := fun _ w => (Thrown msg, w).

(** [try { m } catch (error) { handler(error.message) }]. *)
Definition try_catch {A} (m : Async A) (handler : string -> Async A)
  : Async A :=
  fun e w =>
    match m e w with
    | (Returned a, w') => (Returned a, w')
    | (Thrown msg, w') => handler msg e w'
    end.

(** [try { m } finally { f }]. *)
Definition try_finally {A} (m : Async A) (f : Async unit) : Async A :=
  fun e w =>
    match m e w with
    | (c, w') =>
        match f e w' with
        | (Returned _, w'') => (c, w'')
        | (Thrown msg, w'') => (Thrown msg, w'')
        end
    end.

Declare Scope async_scope.
Delimit Scope async_scope with async.
Notation "x <- m ;; k" := (bind m (fun x => k))
  (at level 61, m at next level, right associativity) : async_scope.
Notation "m ;; k" := (bind m (fun _ => k))
  (at level 61, right associativity) : async_scope.
Open Scope async_scope.

Definition emit (ev : Event) : Async unit :=
  fun _ w =>
    (Returned tt,
     {| now := now w; draws := draws w; events := events w ++ [ev] |}).

Definition advance (ms : Z) : Async unit :=
  fun _ w =>
    (Returned tt,
     {| now := now w + ms; draws := draws w; events := events w |}).

(** The consumer of the stream.  The model covers the runs in which the
    consumer keeps reading until the stream is closed: the browser page
    of this repository does.  A consumer that cancels the stream makes
    every later [controller.enqueue] and [controller.close] throw a
    TypeError; such runs are outside the model, and nothing below speaks
    about them. *)

(** [controller.enqueue(encoder.encode(JSON.stringify(m) + "\n"))] on a
    stream that is neither closed nor cancelled. *)
Definition enqueue (m : Message) : Async unit := emit (Enqueued m).

(** [controller.close()] on a stream that is neither closed nor
    cancelled. *)
Definition close : Async unit := emit Closed.

(** [await delay(ms)]. *)
Definition delay (ms : Z) : Async unit := emit (Slept ms) ;; advance ms.

(** [Date.now()]. *)
Definition Date_now : Async Z := fun _ w => (Returned (now w), w).

(** [Math.random()]. *)
Definition Math_random : Async Q :=
  fun e w =>
    (Returned (random e (draws w)),
     {| now := now w; draws := S (draws w); events := events w |}).

(** [await fetch(u, { method: "HEAD", signal: AbortSignal.timeout(10000) })]:
    a response that has not come after 10 seconds is a rejection. *)
Definition fetch_HEAD (u : string) : Async unit :=
  emit (FetchedHead u) ;;
  fun e w =>
    match fetch e u with
    | Responded ms =>
        if ms <? 10000 then advance ms e w
        else (advance 10000 ;; throw "The operation timed out") e w
    | Rejected ms => (advance ms ;; throw "fetch failed") e w
    end.

(** [for (let i = 0; i < n; i++) body(i)], the index counting from
    [from]. *)
Fixpoint for_loop (n : nat) (from : Z) (body : Z -> Async unit) : Async unit :=
  match n with
  | O => ret tt
  | S n' => body from ;; for_loop n' (from + 1) body
  end.

(** ** The stages *)

Definition load_time_metrics (t : Fixed2) : Metrics :=
  {| currentLoadTime := Some [Str t; Lit "s"];
     requestsProcessed := Some 3;
     successRate := None;
     concurrent := None |}.

Definition isLocalhost (url : string) : bool :=
  includes "localhost" url || includes "127.0.0.1" url
  || includes "192.168." url || includes "10." url.

Definition simulateLoadTimeTest (url : string) : Async Fixed2 :=
  startTime <- Date_now ;;
  try_catch
    (if isLocalhost url then
       delay 500 ;;
       r <- Math_random ;;
       let loadTime := toFixed2 (fadd (fmul r 1) (double (3 # 10))) in
       enqueue (metrics_message (load_time_metrics loadTime)) ;;
       ret loadTime
     else
       fetch_HEAD url ;;
       endTime <- Date_now ;;
       let loadTime :=
         toFixed2 (fdiv (inject_Z (endTime - startTime)) 1000) in
       enqueue (metrics_message (load_time_metrics loadTime)) ;;
       ret loadTime)
    (fun _ =>
       r <- Math_random ;;
       let fallbackTime := toFixed2 (fadd (fmul r 3) 1) in
       enqueue (metrics_message (load_time_metrics fallbackTime)) ;;
       ret fallbackTime).

Definition requests_metrics (n : Z) : Metrics :=
  {| currentLoadTime := None; requestsProcessed := Some n;
     successRate := None; concurrent := None |}.

Definition possibleBrokenLinks : list string :=
  ["/old-page"; "/missing-image.jpg"; "/broken-link"; "/404-page"]%string.

Definition simulateBrokenLinkCheck (url : string) : Async (list string) :=
  for_loop 3 0 (fun i =>
    delay 300 ;;
    enqueue (metrics_message (requests_metrics (5 + i * 2)))) ;;
  r <- Math_random ;;
  if Qltb (7 # 10) r then
    r' <- Math_random ;;
    ret (firstn (Z.to_nat (Math_floor (r' * 3))) possibleBrokenLinks)
  else ret [].

Definition simulateMobileTest (url : string) : Async Z :=
  for_loop 4 0 (fun i =>
    delay 400 ;;
    enqueue (metrics_message (requests_metrics (12 + i * 2)))) ;;
  r <- Math_random ;;
  ret (Math_floor (fadd (fmul r 30) 70)).

Definition simulateLoadTest (url : string) (concurrent : Z)
  : Async LoadTestResults :=
  let totalRequests := concurrent * 10 in
  for_loop 10 0 (fun i =>
    delay 200 ;;
    let processed :=
      Math_floor (inject_Z (i + 1) * (inject_Z totalRequests / 10)) in
    enqueue (metrics_message
      {| currentLoadTime := None;
         requestsProcessed := Some processed;
         successRate := None;
         concurrent :=
           Some (Math_floor (inject_Z (concurrent * (i + 1)) / 10)) |})) ;;
  r1 <- Math_random ;;
  r2 <- Math_random ;;
  r3 <- Math_random ;;
  ret {| lt_totalRequests := totalRequests;
         lt_failedRequests := Math_floor (r1 * 5);
         lt_avgResponseTime := toFixed2 (r2 * 2 + (1 # 2));
         lt_maxResponseTime := toFixed2 (r3 * 5 + 2) |}.

(** ** runPerformanceTest *)

(** The [testConfig] of the request body; the route reads only
    [concurrent]. *)
Record TestConfig : Set := mkTestConfig {
  cfg_concurrent : Z
}.

(** [testConfig.concurrent]; reading a property of an absent
    [testConfig] throws a TypeError. *)
Definition get_concurrent (testConfig : option TestConfig) : Async Z :=
  match testConfig with
  | Some c => ret (cfg_concurrent c)
  | None =>
      throw "Cannot read properties of undefined (reading 'concurrent')"
  end.

Definition seconds_text (t : Fixed2) : Text := [Str t; Lit "s"].

(** [`${Math.round(((total - failed) / total) * 100)}%`]. *)
Definition success_rate_text (total failed : Z) : Text :=
  [Num (round (mul_pos (div (inject_Z (total - failed)) (inject_Z total)) 100));
   Lit "%"].

Definition runPerformanceTest (url : string) (testConfig : option TestConfig)
  : Async unit :=
  try_finally
    (try_catch
       (enqueue (progress_message 0 "Initializing performance test..."
          {| currentLoadTime := Some [Lit "0.0s"];
             requestsProcessed := Some 0;
             successRate := None; concurrent := None |}) ;;
        delay 1000 ;;
        enqueue (progress_message 20 "Measuring page load time..."
          {| currentLoadTime := Some [Lit "Loading..."];
             requestsProcessed := Some 1;
             successRate := None; concurrent := None |}) ;;
        loadTime <- simulateLoadTimeTest url ;;
        delay 1000 ;;
        enqueue (progress_message 40 "Checking for broken links..."
          {| currentLoadTime := Some (seconds_text loadTime);
             requestsProcessed := Some 5;
             successRate := None; concurrent := None |}) ;;
        brokenLinks <- simulateBrokenLinkCheck url ;;
        delay 1000 ;;
        enqueue (progress_message 60 "Testing mobile responsiveness..."
          {| currentLoadTime := Some (seconds_text loadTime);
             requestsProcessed := Some 12;
             successRate := None; concurrent := None |}) ;;
        mobileScore <- simulateMobileTest url ;;
        delay 1000 ;;
        enqueue (progress_message 80 "Running concurrent user simulation..."
          {| currentLoadTime := Some (seconds_text loadTime);
             requestsProcessed := Some 25;
             successRate := None; concurrent := None |}) ;;
        concurrent <- get_concurrent testConfig ;;
        loadTestResults <- simulateLoadTest url concurrent ;;
        delay 1000 ;;
        concurrent' <- get_concurrent testConfig ;;
        enqueue (progress_message 100 "Generating report..."
          {| currentLoadTime := Some (seconds_text loadTime);
             requestsProcessed := Some (lt_totalRequests loadTestResults);
             successRate :=
               Some (success_rate_text (lt_totalRequests loadTestResults)
                                       (lt_failedRequests loadTestResults));
             concurrent := Some concurrent' |}) ;;
        clock <- Date_now ;;
        let results :=
          generateTestResults clock url
            {| td_loadTime := loadTime;
               td_brokenLinks := brokenLinks;
               td_mobileScore := mobileScore;
               td_loadTestResults := loadTestResults |} in
        enqueue (results_message 100 "Test completed!" results))
       (fun msg => enqueue (error_message "Test failed" msg)))
    close.

(** The initial world of a request received at clock reading [t]. *)
Definition start_at (t : Z) : World :=
  {| now := t; draws := O; events := [] |}.

(** The messages of an event list, in order. *)
Definition messages_of (evs : list Event) : list Message :=
  flat_map (fun ev => match ev with Enqueued m => [m] | _ => [] end) evs.

(** The stream the caller reads: the messages enqueued by a run. *)
Definition stream (e : Env) (t : Z) (url : string)
  (testConfig : option TestConfig) : list Message :=
  messages_of (events (snd (runPerformanceTest url testConfig e (start_at t)))).

End Route.

(* ================================================================== *)
(** * Regular expressions, by derivatives *)
(* ================================================================== *)

Module RegExp.

Inductive re : Set :=
| Empty                   (* matches nothing *)
| Eps                     (* matches the empty string *)
| Chr (c : ascii)         (* one given character *)
| Digit                   (* \d *)
| Any                     (* any character *)
| Cat (a b : re)
| Alt (a b : re)
| Star (a : re).

(** [\d] is [0-9]. *)
Definition is_digit (c : ascii) : bool :=
  let n := nat_of_ascii c in (48 <=? n)%nat && (n <=? 57)%nat.

Fixpoint nullable (r : re) : bool :=
  match r with
  | Empty => false
  | Eps => true
  | Chr _ => false
  | Digit => false
  | Any => false
  | Cat a b => nullable a && nullable b
  | Alt a b => nullable a || nullable b
  | Star _ => true
  end.

Fixpoint deriv (c : ascii) (r : re) : re :=
  match r with
  | Empty => Empty
  | Eps => Empty
  | Chr c' => if Ascii.eqb c c' then Eps else Empty
  | Digit => if is_digit c then Eps else Empty
  | Any => Eps
  | Cat a b =>
      if nullable a then Alt (Cat (deriv c a) b) (deriv c b)
      else Cat (deriv c a) b
  | Alt a b => Alt (deriv c a) (deriv c b)
  | Star a => Cat (deriv c a) (Star a)
  end.

(** The whole string is in the language of [r]. *)
Fixpoint matches (r : re) (s : string) : bool :=
  match s with
  | EmptyString => nullable r
  | String c rest => matches (deriv c r) rest
  end.

(** A literal run of characters. *)
Fixpoint lit (s : string) : re :=
  match s with
  | EmptyString => Eps
  | String c rest => Cat (Chr c) (lit rest)
  end.

(** [r+]. *)
Definition plus (r : re) : re := Cat r (Star r).

(** A pattern [/^body/] or [/^body$/]. *)
Record pattern : Set := mkPattern {
  body : re;
  anchored_end : bool
}.

(** [pattern.test(s)]: with [$] the whole string must match; without it
    any continuation is allowed. *)
Definition test (p : pattern) (s : string) : bool :=
  if anchored_end p then matches (body p) s
  else matches (Cat (body p) (Star Any)) s.

End RegExp.

(* ================================================================== *)
(** * The client page: validation and normalisation of the url *)
(* ================================================================== *)

Module Page.
Import JS RegExp.

(** ** The url patterns of the source *)

Definition dot : re := Chr ".".
Definition colon : re := Chr ":".
Definition digits : re := plus Digit.

(** [localhost:\d+] *)
Definition re_localhost : re := Cat (lit "localhost:") digits.
(** [127\.0\.0\.1:\d+] *)
Definition re_loopback : re := Cat (lit "127.0.0.1:") digits.
(** [192\.168\.\d+\.\d+:\d+] *)
Definition re_192_168 : re :=
  Cat (lit "192.168.") (Cat digits (Cat dot (Cat digits (Cat colon digits)))).
(** [10\.\d+\.\d+\.\d+:\d+] *)
Definition re_10 : re :=
  Cat (lit "10.")
      (Cat digits (Cat dot (Cat digits (Cat dot (Cat digits
        (Cat colon digits)))))).

(** ** The URL constructor

    [new URL(input)] is the platform's parser (WHATWG URL Standard, basic
    URL parser without a base URL), not code of the repository.  The
    model follows the standard up to the point where the scheme is known:
    leading and trailing C0 controls and spaces are stripped, tabs and
    newlines removed, the scheme is an ASCII letter followed by letters,
    digits, [+], [-] or [.] up to the first [:], lower-cased.  An input
    without a scheme fails (there is no base URL).  After a scheme that
    is not special, a remainder that does not start with [/] is an opaque
    path and a remainder that starts with a single [/] is a path; neither
    can fail.  The remaining cases (a special scheme, or an authority
    after [//]) go through the host and port parsers, which the model
    leaves to [authority_parses]. *)

Record URL : Set := mkURL { protocol : string }.

Definition is_c0_control_or_space (c : ascii) : bool :=
  (nat_of_ascii c <=? 32)%nat.

Definition is_tab_or_newline (c : ascii) : bool :=
  let n := nat_of_ascii c in
  Nat.eqb n 9 || Nat.eqb n 10 || Nat.eqb n 13.

Fixpoint drop_leading (l : list ascii) : list ascii :=
  match l with
  | [] => []
  | c :: rest => if is_c0_control_or_space c then drop_leading rest else l
  end.

Definition preprocess (input : string) : string :=
  let l := list_ascii_of_string input in
  let l := rev (drop_leading (rev (drop_leading l))) in
  string_of_list_ascii (filter (fun c => negb (is_tab_or_newline c)) l).

Definition is_upper (c : ascii) : bool :=
  let n := nat_of_ascii c in (65 <=? n)%nat && (n <=? 90)%nat.

Definition is_lower (c : ascii) : bool :=
  let n := nat_of_ascii c in (97 <=? n)%nat && (n <=? 122)%nat.

Definition is_alpha (c : ascii) : bool := is_upper c || is_lower c.

Definition is_scheme_char (c : ascii) : bool :=
  is_alpha c || is_digit c
  || Ascii.eqb c "+" || Ascii.eqb c "-" || Ascii.eqb c ".".

Definition to_lower (c : ascii) : ascii :=
  if is_upper c then ascii_of_nat (nat_of_ascii c + 32) else c.

(** The scheme state: [acc] is the scheme read so far. *)
Fixpoint scheme_state (s : string) (acc : string)
  : option (string * string) :=
  match s with
  | EmptyString => None
  | String c rest =>
      if Ascii.eqb c ":" then Some (acc, rest)
      else if is_scheme_char c
      then scheme_state rest (acc ++ String (to_lower c) EmptyString)
      else None
  end.

(** The scheme start state. *)
Definition scheme_start_state (s : string) : option (string * string) :=
  match s with
  | EmptyString => None
  | String c rest =>
      if is_alpha c
      then scheme_state rest (String (to_lower c) EmptyString)
      else None
  end.

Definition special_schemes : list string :=
  ["ftp"; "file"; "http"; "https"; "ws"; "wss"]%string.

Definition is_special (scheme : string) : bool :=
  existsb (String.eqb scheme) special_schemes.

Section WithURLParser.

(** Whether the authority, host, port and path states accept what
    follows ["scheme:"]. *)
Variable authority_parses : string -> string -> bool.

(** [new URL(input)]; [None] when the constructor throws. *)
Definition new_URL (input : string) : option URL :=
  match scheme_start_state (preprocess input) with
  | None => None
  | Some (scheme, rest) =>
      let parsed := Some {| protocol := scheme ++ ":" |} in
      if is_special scheme || startsWith "//" rest
      then (if authority_parses scheme rest then parsed else None)
      else parsed
  end.

(** ** isValidUrl *)

Definition isValidUrl_localhostPatterns : list pattern :=
  [ {| body := re_localhost; anchored_end := true |};
    {| body := re_loopback; anchored_end := true |};
    {| body := re_192_168; anchored_end := true |};
    {| body := re_10; anchored_end := true |} ].

Definition isValidUrl (urlString : string) : bool :=
  match new_URL urlString with
  | Some url =>
      String.eqb (protocol url) "http:" || String.eqb (protocol url) "https:"
  | None =>
      existsb (fun pattern => test pattern urlString)
              isValidUrl_localhostPatterns
  end.

(** ** formatUrl *)

Definition formatUrl_localhostPatterns : list pattern :=
  [ {| body := re_localhost; anchored_end := false |};
    {| body := re_loopback; anchored_end := false |};
    {| body := re_192_168; anchored_end := false |};
    {| body := re_10; anchored_end := false |} ].

Definition formatUrl (inputUrl : string) : string :=
  if String.eqb inputUrl EmptyString then EmptyString
  else if startsWith "http://" inputUrl || startsWith "https://" inputUrl
  then inputUrl
  else if existsb (fun pattern => test pattern inputUrl)
                  formatUrl_localhostPatterns
  then "http://" ++ inputUrl
  else "https://" ++ inputUrl.

(** ** The gate of the client's runPerformanceTest *)

(** [getTestConfig()], as far as the route reads it. *)
Definition getTestConfig : Route.TestConfig :=
  {| Route.cfg_concurrent := 10 |}.

(** The body posted to the route. *)
Record Request : Set := mkRequest {
  req_url : string;
  req_testConfig : Route.TestConfig
}.

(** The first lines of the client's [runPerformanceTest]: the request
    that is posted, or [None] when the function returns before posting
    anything. *)
Definition runPerformanceTest (url : string) : option Request :=
  let formattedUrl := formatUrl url in
  if negb (isValidUrl formattedUrl) then None
  else Some {| req_url := formattedUrl; req_testConfig := getTestConfig |}.

End WithURLParser.

End Page.

(* ================================================================== *)
(** * The Puppeteer tester: the load generator *)
(* ================================================================== *)

Module Tester.
Import JS.

(** The object recorded for one navigation; a field that is not written
    is absent. *)
Record Outcome : Set := mkOutcome {
  loadTime : option Q;
  statusCode : option Z;
  success : option bool;
  error : option string
}.

(** How [page.goto] ends: with a response, after [elapsed] milliseconds
    (the difference of two readings of [performance.now()], a double)
    and with an HTTP status, or with an exception. *)
Inductive Goto : Set :=
| Response (elapsed : Q) (status : Z)
| GotoThrew (msg : string).

(** One virtual user: the browser and page may fail to open
    ([setup_error]), the navigation ends as [goto] says, and closing the
    page and browser may fail ([cleanup_error]). *)
Record Navigation : Set := mkNavigation {
  setup_error : option string;
  goto : Goto;
  cleanup_error : option string
}.

(** A settled promise, as [Promise.allSettled] reports it. *)
Inductive Settled : Set :=
| Fulfilled (value : Outcome)
| Rejected (reason_message : string).

Definition singleUserLoadTest (nav : Navigation) : Settled :=
  match setup_error nav with
  | Some msg => Rejected msg
  | None =>
      let returned :=
        match goto nav with
        | Response elapsed status =>
            {| loadTime := Some (fdiv elapsed 1000);
               statusCode := Some status;
               success := Some (status <? 400);
               error := None |}
        | GotoThrew msg =>
            {| loadTime := None;
               statusCode := None;
               success := Some false;
               error := Some msg |}
        end in
      match cleanup_error nav with
      | Some msg => Rejected msg
      | None => Fulfilled returned
      end
  end.

(** [result.status === "fulfilled" ? result.value
                                   : { error: result.reason.message }]. *)
Definition recorded (result : Settled) : Outcome :=
  match result with
  | Fulfilled value => value
  | Rejected msg =>
      {| loadTime := None; statusCode := None; success := None;
         error := Some msg |}
  end.

(** What the generator cannot decide by itself: how each navigation of
    each batch ends, and how many milliseconds a batch takes to settle. *)
Record Env : Type := mkEnv {
  navigation : nat -> nat -> Navigation;
  batch_ms : nat -> N
}.

(** The [options] argument; an absent field takes its default. *)
Record Options : Set := mkOptions {
  opt_concurrent : option nat;
  opt_duration : option Z
}.

Definition concurrent_of (o : Options) : nat :=
  match opt_concurrent o with Some c => c | None => 10%nat end.

Definition duration_of (o : Options) : Z :=
  match opt_duration o with Some d => d | None => 30 end.

(** One batch: [concurrent] navigations, all settled, each recorded. *)
Definition batch (e : Env) (concurrent : nat) (k : nat) : list Outcome :=
  let promises :=
    map (fun i => singleUserLoadTest (navigation e k i)) (seq 0 concurrent) in
  map recorded promises.

(** The [while] loop of [runLoadTest].  [elapsed] is [Date.now() -
    startTime] in milliseconds, [k] the number of batches already run;
    after a batch the loop pauses for one second.  [None] when the fuel
    runs out. *)
Fixpoint batches (fuel : nat) (e : Env) (concurrent : nat) (duration : Z)
  (k : nat) (elapsed : N) (results : list Outcome) : option (list Outcome) :=
  match fuel with
  | O => None
  | S fuel' =>
      if Qltb (inject_Z (Z.of_N elapsed) / 1000) (inject_Z duration)
      then batches fuel' e concurrent duration (S k)
                   (elapsed + batch_ms e k + 1000)
                   (results ++ batch e concurrent k)
      else Some results
  end.

Record LoadTestSummary : Type := mkLoadTestSummary {
  totalRequests : nat;
  successfulRequests : nat;
  failedRequests : nat;
  successRate : Number;
  averageLoadTime : option Q;
  minLoadTime : option Q;
  maxLoadTime : option Q;
  errors : list (option string)
}.

(** [results.filter((r) => !r.error)]. *)
Definition successful (results : list Outcome) : list Outcome :=
  filter (fun r => negb (truthy_string (error r))) results.

(** [results.filter((r) => r.error)]. *)
Definition failed (results : list Outcome) : list Outcome :=
  filter (fun r => truthy_string (error r)) results.

(** The numbers that survive [filter((t) => t)]. *)
Fixpoint numbers (l : list (option Q)) : list Q :=
  match l with
  | [] => []
  | Some q :: rest => q :: numbers rest
  | None :: rest => numbers rest
  end.

(** [successful.map((r) => r.loadTime).filter((t) => t)]. *)
Definition loadTimes (results : list Outcome) : list Q :=
  numbers (filter truthy_number (map loadTime (successful results))).

(** [l.reduce(f)] on a non-empty array. *)
Definition reduce (f : Q -> Q -> Q) (l : list Q) : option Q :=
  match l with
  | [] => None
  | x :: rest => Some (fold_left f rest x)
  end.

(** The analysis that follows the loop. *)
Definition analyze (results : list Outcome) : LoadTestSummary :=
  let successful := successful results in
  let failed := failed results in
  let loadTimes := loadTimes results in
  {| totalRequests := List.length results;
     successfulRequests := List.length successful;
     failedRequests := List.length failed;
     successRate :=
       mul_pos (div (inject_Z (Z.of_nat (List.length successful)))
                    (inject_Z (Z.of_nat (List.length results)))) 100;
     averageLoadTime :=
       if (0 <? List.length loadTimes)%nat
       then option_map
              (fun sum => fdiv sum (inject_Z (Z.of_nat (List.length loadTimes))))
              (reduce fadd loadTimes)
       else None;
     minLoadTime :=
       if (0 <? List.length loadTimes)%nat then reduce Qmin loadTimes
       else None;
     maxLoadTime :=
       if (0 <? List.length loadTimes)%nat then reduce Qmax loadTimes
       else None;
     errors := map error failed |}.

Definition runLoadTest (fuel : nat) (e : Env) (url : string)
  (options : Options) : option LoadTestSummary :=
  let concurrent := concurrent_of options in
  let duration := duration_of options in
  option_map analyze (batches fuel e concurrent duration 0 0 []).

End Tester.

(* ================================================================== *)
(** * The scoring rules as the specification words them *)
(* ================================================================== *)

Module ScoringSpec.
Import JS Route.

(** Load time: -20 if >3s, -10 if >2s, -5 if >1s, worst bracket wins. *)
Definition load_time_deduction (seconds : Q) : Z :=
  if Qltb 3 seconds then 20
  else if Qltb 2 seconds then 10
  else if Qltb 1 seconds then 5
  else 0.

(** Mobile score: -15 if <80, -5 if <90. *)
Definition mobile_deduction (score : Z) : Z :=
  if score <? 80 then 15 else if score <? 90 then 5 else 0.

Definition clamp (lo hi x : Z) : Z :=
  if x <? lo then lo else if hi <? x then hi else x.

(** The score of a metrics bundle: every term is an integer, so the
    clamped value is its own nearest integer. *)
Definition expected_score
  (seconds : Q) (mobile failed : Z) (broken : nat) : Z :=
  clamp 0 100
    (100 - load_time_deduction seconds - mobile_deduction mobile
         - 5 * failed - 10 * Z.of_nat broken).

(** The four issue categories. *)
Inductive Category : Set :=
| LoadTimeCat
| MobileCat
| BrokenLinksCat
| FailedRequestsCat.

Definition Category_eqb (a b : Category) : bool :=
  match a, b with
  | LoadTimeCat, LoadTimeCat
  | MobileCat, MobileCat
  | BrokenLinksCat, BrokenLinksCat
  | FailedRequestsCat, FailedRequestsCat => true
  | _, _ => false
  end.

(** The category an issue belongs to, read off its description. *)
Definition category_of (i : Issue) : option Category :=
  match description i with
  | [Lit a; Num _; Lit b] =>
      if (a =? "Page load time is ")%string
         && (b =? "s, which may impact user experience")%string
      then Some LoadTimeCat
      else if (a =? "Found ")%string && (b =? " broken links")%string
      then Some BrokenLinksCat
      else None
  | [Lit a] =>
      if (a =? "Mobile responsiveness could be improved")%string
      then Some MobileCat else None
  | [Num _; Lit b] =>
      if (b =? " requests failed during load testing")%string
      then Some FailedRequestsCat else None
  | _ => None
  end.

Definition in_category (c : Category) (i : Issue) : bool :=
  match category_of i with
  | Some c' => Category_eqb c c'
  | None => false
  end.

Definition count_category (c : Category) (l : list Issue) : nat :=
  List.length (filter (in_category c) l).

(** The fixed recommendation of each category. *)
Definition recommendation_for (c : Category) : string :=
  match c with
  | LoadTimeCat =>
      "Optimize images and enable compression to reduce load times"
  | MobileCat => "Ensure responsive design works well on all device sizes"
  | BrokenLinksCat => "Fix broken links to improve user experience and SEO"
  | FailedRequestsCat => "Investigate server stability under load"
  end.

(** A category is violated, in the words of the scoring rules, when it
    costs points. *)
Definition violated (c : Category) (td : TestData) : bool :=
  match c with
  | LoadTimeCat =>
      negb (load_time_deduction (parseFloat (td_loadTime td)) =? 0)
  | MobileCat => negb (mobile_deduction (td_mobileScore td) =? 0)
  | BrokenLinksCat => negb (Nat.eqb (List.length (td_brokenLinks td)) 0)
  | FailedRequestsCat => 0 <? lt_failedRequests (td_loadTestResults td)
  end.

(** The least number of points a category costs once it is reported as
    an issue. *)
Definition least_cost (c : Category) : Z :=
  match c with
  | LoadTimeCat => 10
  | MobileCat => 5
  | BrokenLinksCat => 10
  | FailedRequestsCat => 5
  end.

(** The thresholds at which the code reports an issue. *)
Definition fires (c : Category) (td : TestData) : bool :=
  match c with
  | LoadTimeCat => Qltb 2 (parseFloat (td_loadTime td))
  | MobileCat => td_mobileScore td <? 85
  | BrokenLinksCat => negb (Nat.eqb (List.length (td_brokenLinks td)) 0)
  | FailedRequestsCat => 0 <? lt_failedRequests (td_loadTestResults td)
  end.

(** The entry the code pushes for a category. *)
Definition issue_of (c : Category) (td : TestData) : Issue :=
  match c with
  | LoadTimeCat =>
      {| severity :=
           if Qltb 4 (parseFloat (td_loadTime td)) then high else medium;
         description :=
           [Lit "Page load time is "; NumQ (parseFloat (td_loadTime td));
            Lit "s, which may impact user experience"] |}
  | MobileCat =>
      {| severity := medium;
         description := [Lit "Mobile responsiveness could be improved"] |}
  | BrokenLinksCat =>
      {| severity := high;
         description :=
           [Lit "Found ";
            NumZ (Z.of_nat (List.length (td_brokenLinks td)));
            Lit " broken links"] |}
  | FailedRequestsCat =>
      {| severity := medium;
         description :=
           [NumZ (lt_failedRequests (td_loadTestResults td));
            Lit " requests failed during load testing"] |}
  end.

(** The categories in the order the code examines them. *)
Definition categories : list Category :=
  [LoadTimeCat; MobileCat; BrokenLinksCat; FailedRequestsCat].

(** A report with its timestamp replaced. *)
Definition with_timestamp (t : Z) (r : Report) : Report :=
  {| url := url r;
     timestamp := t;
     overallScore := overallScore r;
     loadTime := loadTime r;
     speedIndex := speedIndex r;
     totalRequests := totalRequests r;
     failedRequests := failedRequests r;
     mobileScore := mobileScore r;
     brokenLinks := brokenLinks r;
     issues := issues r;
     recommendations := recommendations r |}.

(** Two reports that agree on every field but the timestamp. *)
Definition same_except_timestamp (a b : Report) : Prop :=
  url a = url b /\
  overallScore a = overallScore b /\
  loadTime a = loadTime b /\
  speedIndex a = speedIndex b /\
  totalRequests a = totalRequests b /\
  failedRequests a = failedRequests b /\
  mobileScore a = mobileScore b /\
  brokenLinks a = brokenLinks b /\
  issues a = issues b /\
  recommendations a = recommendations b.

(** The metrics bundle of the worked example: 4.5 s, mobile 65, two
    failed requests, two broken links. *)
Definition example_bundle : TestData :=
  {| td_loadTime := mkFixed2 450;
     td_brokenLinks := ["a"; "b"]%string;
     td_mobileScore := 65;
     td_loadTestResults :=
       {| lt_totalRequests := 100;
          lt_failedRequests := 2;
          lt_avgResponseTime := mkFixed2 120;
          lt_maxResponseTime := mkFixed2 340 |} |}.

(** A bundle that loses points on load time only: 1.5 s. *)
Definition slow_but_quiet_bundle : TestData :=
  {| td_loadTime := mkFixed2 150;
     td_brokenLinks := [];
     td_mobileScore := 95;
     td_loadTestResults :=
       {| lt_totalRequests := 100;
          lt_failedRequests := 0;
          lt_avgResponseTime := mkFixed2 120;
          lt_maxResponseTime := mkFixed2 340 |} |}.

(** A bundle with a thousand failed requests. *)
Definition thousand_failures_bundle : TestData :=
  {| td_loadTime := mkFixed2 50;
     td_brokenLinks := [];
     td_mobileScore := 95;
     td_loadTestResults :=
       {| lt_totalRequests := 1000;
          lt_failedRequests := 1000;
          lt_avgResponseTime := mkFixed2 120;
          lt_maxResponseTime := mkFixed2 340 |} |}.

End ScoringSpec.

(* ================================================================== *)
(** * Observations on the event stream *)
(* ================================================================== *)

Module StreamSpec.
Import JS Route.

(** The progress values of the messages that carry one, in order. *)
Definition progress_values (msgs : list Message) : list Z :=
  flat_map (fun m => match progress m with Some p => [p] | None => [] end)
           msgs.

Fixpoint nondecreasing (l : list Z) : Prop :=
  match l with
  | [] => True
  | x :: rest =>
      match rest with
      | [] => True
      | y :: _ => x <= y /\ nondecreasing rest
      end
  end.

Definition carries_error (m : Message) : bool :=
  match error m with Some _ => true | None => false end.

(** A run is successful when no message of its stream reports an
    error. *)
Definition run_successful (msgs : list Message) : Prop :=
  existsb carries_error msgs = false.

(** Random values that never trigger the broken-link branch, and a
    remote host that answers a HEAD request after 120 ms. *)
Definition calm_env : Env :=
  {| random := fun _ => (1 # 2)%Q; fetch := fun _ => Responded 120 |}.

(** Random values close to 1, and a remote host that does not answer. *)
Definition harsh_env : Env :=
  {| random := fun _ => (999 # 1000)%Q; fetch := fun _ => Rejected 40 |}.

Definition default_config : TestConfig := {| cfg_concurrent := 10 |}.

(** A message with metrics only: no status, no report, no error. *)
Definition metrics_only_b (m : Message) : bool :=
  match status m, results m, error m with
  | None, None, None => true
  | _, _, _ => false
  end.

(** The HEAD request of the probe times out or errors. *)
Definition head_request_failed (e : Env) (u : string) : bool :=
  match fetch e u with
  | Responded ms => negb (ms <? 10000)
  | Rejected _ => true
  end.

(** A remote host that answers after exactly one second, and one that
    refuses the connection after one second while [Math.random()] gives
    0. *)
Definition env_up : Env :=
  {| random := fun _ => 0%Q; fetch := fun _ => Responded 1000 |}.

Definition env_down : Env :=
  {| random := fun _ => 0%Q; fetch := fun _ => Rejected 1000 |}.

End StreamSpec.

(* ================================================================== *)
(** * Words of the specification about urls *)
(* ================================================================== *)

Module UrlSpec.
Import JS RegExp Page.

(** The input already starts with [http://] or [https://]. *)
Definition has_http_prefix (s : string) : bool :=
  startsWith "http://" s || startsWith "https://" s.

(** A bare input that matches one of the four private host:port
    patterns, as [formatUrl] tests them. *)
Definition is_private_host_port (s : string) : bool :=
  existsb (fun pattern => test pattern s) formatUrl_localhostPatterns.

(** The input, whole, matches one of the four private host:port
    patterns, as [isValidUrl] tests them. *)
Definition matches_private_pattern (s : string) : bool :=
  existsb (fun pattern => test pattern s) isValidUrl_localhostPatterns.

(** A host parser that accepts everything, for running examples. *)
Definition lenient_authority (scheme rest : string) : bool := true.

End UrlSpec.

(* ================================================================== *)
(** * Sample runs of the load generator *)
(* ================================================================== *)

Module TesterSpec.
Import JS Tester.

(** A navigation that ends normally with the given status. *)
Definition answered (elapsed : Q) (status : Z) : Navigation :=
  {| setup_error := None;
     goto := Response elapsed status;
     cleanup_error := None |}.


(** Every first user gets a 404 after 1.2 s, every second user times
    out, the others get a 200 after 0.8 s; a batch settles in 1.5 s. *)
Definition mixed_env : Env :=
  {| navigation := fun _ i =>
       match i with
       | O => answered 1200 404
       | S O => {| setup_error := None;
                   goto := GotoThrew "Navigation timeout of 30000 ms exceeded";
                   cleanup_error := None |}
       | _ => answered 800 200
       end;
     batch_ms := fun _ => 1500%N |}.

Definition three_users_two_seconds : Options :=
  {| opt_concurrent := Some 3%nat; opt_duration := Some 2 |}.

(** An outcome is a failure when it carries an error field with a
    message; an empty message does not count. *)
Definition has_error (r : Outcome) : bool :=
  match error r with
  | Some (String _ _) => true
  | _ => false
  end.

(** The latency an outcome contributes: none when it is a failure, none
    when it has no load time or a load time of zero. *)
Definition latency (r : Outcome) : option Q :=
  if has_error r then None
  else match loadTime r with
       | Some t => if Qeq_bool t 0 then None else Some t
       | None => None
       end.

(** The latencies of the successful outcomes, in the order of the
    outcomes. *)
Fixpoint latencies (results : list Outcome) : list Q :=
  match results with
  | [] => []
  | r :: rest =>
      match latency r with
      | Some t => t :: latencies rest
      | None => latencies rest
      end
  end.

(** The mean of a list of doubles as JavaScript computes it: the sum
    from the left, then the division by the length, each operation
    rounded; nothing for the empty list. *)
Definition mean (l : list Q) : option Q :=
  match l with
  | [] => None
  | x :: rest =>
      Some (fdiv (fold_left fadd rest x) (inject_Z (Z.of_nat (List.length l))))
  end.

(** Three navigations that each get a 200 after 100 ms. *)
Definition three_fast_outcomes : list Outcome :=
  map (fun _ => recorded (singleUserLoadTest (answered 100 200)))
      [tt; tt; tt].

End TesterSpec.

(* ================================================================== *)
(** * Further observations on runs of the route *)
(* ================================================================== *)

Module RunSpec.
Import JS Route StreamSpec.


Definition is_closed (ev : Event) : bool :=
  match ev with Closed => true | _ => false end.

(** The last event is the closing of the stream and no other event
    is. *)
Definition closes_once_at_end (evs : list Event) : bool :=
  match rev evs with
  | Closed :: earlier => negb (existsb is_closed earlier)
  | _ => false
  end.

(** A terminal message: one that carries a report or an error. *)
Definition is_terminal (m : Message) : bool :=
  match results m, error m with
  | None, None => false
  | _, _ => true
  end.

Definition placeholder : Message :=
  {| progress := None; status := None; metrics := None;
     results := None; error := None; message := None |}.

(** The last message of a stream. *)
Definition final_message (msgs : list Message) : Message :=
  last msgs placeholder.

(** Two bundles, the second at least as bad as the first on every
    metric. *)
Definition no_better (td td' : TestData) : Prop :=
  (parseFloat (td_loadTime td) <= parseFloat (td_loadTime td'))%Q
  /\ td_mobileScore td' <= td_mobileScore td
  /\ lt_failedRequests (td_loadTestResults td)
       <= lt_failedRequests (td_loadTestResults td')
  /\ (List.length (td_brokenLinks td)
       <= List.length (td_brokenLinks td'))%nat.

Definition has_results (m : Message) : bool :=
  match results m with Some _ => true | None => false end.

(** The report of the last message of a stream, if it carries one. *)
Definition final_report (msgs : list Message) : option Report :=
  results (final_message msgs).



(** The largest double below 1. *)
Definition below_one : Q := 9007199254740991 # 9007199254740992.

(** Random values at the largest double below 1, and a remote host that
    answers a HEAD request after 120 ms. *)
Definition top_env : Env :=
  {| random := fun _ => below_one; fetch := fun _ => Responded 120 |}.

(** A bundle that loses no point. *)
Definition perfect_bundle : TestData :=
  {| td_loadTime := mkFixed2 50;
     td_brokenLinks := [];
     td_mobileScore := 95;
     td_loadTestResults :=
       {| lt_totalRequests := 100;
          lt_failedRequests := 0;
          lt_avgResponseTime := mkFixed2 120;
          lt_maxResponseTime := mkFixed2 340 |} |}.

(** The metrics-only message of the link and mobile stages. *)
Definition tick (n : Z) : Event :=
  Enqueued (metrics_message (requests_metrics n)).


End RunSpec.

(* ================================================================== *)
(** * Shapes of inputs to the url functions *)
(* ================================================================== *)

Module InputShapes.
Import JS RegExp Page.

Fixpoint all_digits (s : string) : bool :=
  match s with
  | EmptyString => true
  | String c rest => is_digit c && all_digits rest
  end.

(** The input begins with a decimal digit. *)
Definition starts_with_digit (s : string) : bool :=
  match s with
  | EmptyString => false
  | String c _ => is_digit c
  end.

(** No character of the input is a space or a C0 control. *)
Definition printable (l : list ascii) : bool :=
  forallb (fun c => negb (is_c0_control_or_space c)) l.

(** The anchored pattern [/^localhost:\d+$/] of [isValidUrl]. *)
Definition localhost_port_pattern : pattern :=
  {| body := re_localhost; anchored_end := true |}.

End InputShapes.

(* ================================================================== *)
(** * The url forms the specification names *)
(* ================================================================== *)

Module UrlShapes.
Import JS RegExp Page InputShapes.

(** A non-empty run of decimal digits: a port, or one number of a dotted
    address. *)
Definition digit_run (p : string) : Prop :=
  p <> EmptyString /\ all_digits p = true.

(** The numeric private and loopback forms: [127.0.0.1:port],
    [192.168.x.x:port] and [10.x.x.x:port]. *)
Inductive numeric_private_host_port : string -> Prop :=
| loopback_port (p : string) :
    digit_run p ->
    numeric_private_host_port ("127.0.0.1:" ++ p)%string
| net_192_168_port (a b p : string) :
    digit_run a -> digit_run b -> digit_run p ->
    numeric_private_host_port
      ("192.168." ++ a ++ "." ++ b ++ ":" ++ p)%string
| net_10_port (a b c p : string) :
    digit_run a -> digit_run b -> digit_run c -> digit_run p ->
    numeric_private_host_port
      ("10." ++ a ++ "." ++ b ++ "." ++ c ++ ":" ++ p)%string.

(** The four private host:port forms: [localhost:port] and the numeric
    ones. *)
Inductive private_host_port : string -> Prop :=
| localhost_port (p : string) :
    digit_run p -> private_host_port ("localhost:" ++ p)%string
| numeric_port (s : string) :
    numeric_private_host_port s -> private_host_port s.

(** A bare input that begins with a private host:port form; a path or
    anything else may follow. *)
Definition begins_with_private_host_port (s : string) : Prop :=
  exists h rest, private_host_port h /\ s = (h ++ rest)%string.

(** The input already starts with [http://] or [https://]. *)
Definition begins_with_http (s : string) : Prop :=
  exists rest, s = ("http://" ++ rest)%string
               \/ s = ("https://" ++ rest)%string.


End UrlShapes.

(* ================================================================== *)
(** * The client page: reading the stream *)
(* ================================================================== *)

Module PageClient.
Import JS Route.

(** The React state the stream handler writes. *)
Record State : Set := mkState {
  st_isRunning : bool;
  st_progress : Z;
  st_currentTest : option string;
  st_testResults : option Report;
  st_testHistory : list Report;
  st_realtimeMetrics : Metrics
}.

(** The state of a freshly mounted page. *)
Definition initial : State :=
  {| st_isRunning := false;
     st_progress := 0;
     st_currentTest := None;
     st_testResults := None;
     st_testHistory := [];
     st_realtimeMetrics :=
       {| currentLoadTime := None; requestsProcessed := None;
          successRate := None; concurrent := None |} |}.

(** One non-blank line of a chunk: the object [JSON.parse] returns, or
    [None] when it throws.  Chunks are taken to end on line boundaries,
    so that every enqueued message arrives as one line. *)
Definition Line : Set := option Message.

(** The body of the [for (const line of lines)] loop. *)
Definition handle_line (st : State) (line : Line) : State :=
  match line with
  | None => st
  | Some data =>
      let st :=
        match progress data with
        | Some p =>
            {| st_isRunning := st_isRunning st;
               st_progress := p;
               st_currentTest := st_currentTest st;
               st_testResults := st_testResults st;
               st_testHistory := st_testHistory st;
               st_realtimeMetrics := st_realtimeMetrics st |}
        | None => st
        end in
      let st :=
        if truthy_string (status data) then
          {| st_isRunning := st_isRunning st;
             st_progress := st_progress st;
             st_currentTest := status data;
             st_testResults := st_testResults st;
             st_testHistory := st_testHistory st;
             st_realtimeMetrics := st_realtimeMetrics st |}
        else st in
      let st :=
        match metrics data with
        | Some m =>
            {| st_isRunning := st_isRunning st;
               st_progress := st_progress st;
               st_currentTest := st_currentTest st;
               st_testResults := st_testResults st;
               st_testHistory := st_testHistory st;
               st_realtimeMetrics := m |}
        | None => st
        end in
      match results data with
      | Some r =>
          {| st_isRunning := st_isRunning st;
             st_progress := st_progress st;
             st_currentTest := st_currentTest st;
             st_testResults := Some r;
             st_testHistory := r :: firstn 9 (st_testHistory st);
             st_realtimeMetrics := st_realtimeMetrics st |}
      | None => st
      end
  end.

(** What [fetch("/api/performance-test", ...)] gives the page. *)
Inductive Response : Set :=
| FetchThrew                      (* the request itself failed *)
| NotOk                           (* response.ok is false *)
| NoBody                          (* response.body has no reader *)
| Body (lines : list Line).       (* the lines read until done *)

(** The client's [runPerformanceTest] once the url passed the gate:
    the resets, the [try] with the read loop, its [catch] and its
    [finally]. *)
Definition receive (st : State) (response : Response) : State :=
  let st :=
    {| st_isRunning := true;
       st_progress := 0;
       st_currentTest := Some "Initializing test..."%string;
       st_testResults := None;
       st_testHistory := st_testHistory st;
       st_realtimeMetrics := st_realtimeMetrics st |} in
  let st :=
    match response with
    | Body lines => fold_left handle_line lines st
    | _ =>
        {| st_isRunning := st_isRunning st;
           st_progress := st_progress st;
           st_currentTest := Some "Test failed"%string;
           st_testResults := st_testResults st;
           st_testHistory := st_testHistory st;
           st_realtimeMetrics := st_realtimeMetrics st |}
    end in
  {| st_isRunning := false;
     st_progress := 100;
     st_currentTest := st_currentTest st;
     st_testResults := st_testResults st;
     st_testHistory := st_testHistory st;
     st_realtimeMetrics := st_realtimeMetrics st |}.

(** The client's [runPerformanceTest] as a whole: nothing happens when
    the gate rejects the url; otherwise the request goes to [server]. *)
Definition runPerformanceTest
  (authority_parses : string -> string -> bool)
  (server : Page.Request -> Response) (url : string) (st : State) : State :=
  match Page.runPerformanceTest authority_parses url with
  | None => st
  | Some request => receive st (server request)
  end.

(** The route as a server: it answers a request received at clock
    reading [t] with the lines of its stream. *)
Definition route_server (e : Env) (t : Z) (request : Page.Request)
  : Response :=
  Body (map Some (stream e t (Page.req_url request)
                         (Some (Page.req_testConfig request)))).

End PageClient.

(* ================================================================== *)
(** * The results view: performance suggestions *)
(* ================================================================== *)

Module ResultsView.
Import JS.

Inductive Priority : Set := High | Medium | Low.

Record Suggestion : Set := mkSuggestion {
  category : string;
  priority : Priority;
  issue : Text;
  fixes : list string
}.

(** [x || 0] on a number. *)
Definition or_zero (x : Z) : Z := if x =? 0 then 0 else x.

(** [Number.parseFloat(s) || 0] on a two-decimal string. *)
Definition parse_or_zero (s : Fixed2) : Q :=
  if Qeq_bool (parseFloat s) 0 then 0%Q else parseFloat s.

Definition generatePerformanceSuggestions (results : Route.Report)
  : list Suggestion :=
  let suggestions : list Suggestion := [] in
  let loadTime := parse_or_zero (Route.loadTime results) in
  let mobileScore := or_zero (Route.mobileScore results) in
  let totalRequests := or_zero (Route.totalRequests results) in
  let failedRequests := or_zero (Route.failedRequests results) in
  let suggestions :=
    if Qltb 3 loadTime then
      suggestions ++
      [ {| category := "Load Time";
           priority := High;
           issue := [Lit "Slow load time: "; NumQ loadTime;
                     Lit "s (target: <3s)"];
           fixes :=
             ["Optimize images: Use WebP format and compress images";
              "Enable browser caching with proper cache headers";
              "Minify CSS, JavaScript, and HTML files";
              "Use a Content Delivery Network (CDN)";
              "Reduce server response time (TTFB)"]%string |} ]
    else if Qltb (15 # 10) loadTime then
      suggestions ++
      [ {| category := "Load Time";
           priority := Medium;
           issue := [Lit "Load time could be improved: "; NumQ loadTime;
                     Lit "s (target: <1.5s)"];
           fixes :=
             ["Implement lazy loading for images and videos";
              "Remove unused CSS and JavaScript";
              "Use resource hints (preload, prefetch, preconnect)"]%string |} ]
    else suggestions in
  let suggestions :=
    if mobileScore <? 70 then
      suggestions ++
      [ {| category := "Mobile Score";
           priority := High;
           issue := [Lit "Poor mobile performance: "; NumZ mobileScore;
                     Lit "/100"];
           fixes :=
             ["Implement responsive design with proper viewport meta tag";
              "Optimize touch targets (minimum 44px)";
              "Reduce mobile-specific JavaScript execution";
              "Use mobile-first CSS approach";
              "Optimize font loading for mobile devices"]%string |} ]
    else if mobileScore <? 90 then
      suggestions ++
      [ {| category := "Mobile Score";
           priority := Medium;
           issue := [Lit "Mobile score can be improved: "; NumZ mobileScore;
                     Lit "/100"];
           fixes :=
             ["Optimize images for different screen densities";
              "Reduce layout shifts on mobile";
              "Minimize third-party scripts on mobile"]%string |} ]
    else suggestions in
  let suggestions :=
    if 100 <? totalRequests then
      suggestions ++
      [ {| category := "Requests";
           priority := High;
           issue := [Lit "Too many HTTP requests: "; NumZ totalRequests;
                     Lit " (target: <50)"];
           fixes :=
             ["Combine CSS and JavaScript files";
              "Use CSS sprites for small images";
              "Implement HTTP/2 server push";
              "Remove unnecessary third-party scripts";
              "Use inline SVGs instead of icon fonts"]%string |} ]
    else if 50 <? totalRequests then
      suggestions ++
      [ {| category := "Requests";
           priority := Medium;
           issue := [Lit "High number of requests: "; NumZ totalRequests;
                     Lit " (target: <50)"];
           fixes :=
             ["Bundle similar resources together";
              "Use data URIs for small images";
              "Implement resource bundling"]%string |} ]
    else suggestions in
  let suggestions :=
    if 0 <? failedRequests then
      suggestions ++
      [ {| category := "Requests";
           priority := High;
           issue := [NumZ failedRequests; Lit " failed requests detected"];
           fixes :=
             ["Fix broken resource URLs";
              "Implement proper error handling";
              "Add fallback resources for critical assets";
              "Check CORS configuration for external resources"]%string |} ]
    else suggestions in
  let suggestions :=
    if Nat.eqb (List.length suggestions) 0 then
      suggestions ++
      [ {| category := "General";
           priority := Low;
           issue := [Lit "Good performance! Consider these optimizations:"];
           fixes :=
             ["Implement Progressive Web App (PWA) features";
              "Add service worker for offline functionality";
              "Use advanced image formats (AVIF, WebP)";
              "Implement critical CSS inlining";
              "Consider using a performance monitoring tool"]%string |} ]
    else suggestions in
  suggestions.

End ResultsView.

(* ================================================================== *)
(** * Observations on the page *)
(* ================================================================== *)

Module ViewSpec.
Import JS ResultsView.

(** Some suggestion of the list has the given category. *)
Definition has_category (c : string) (l : list Suggestion) : bool :=
  existsb (fun s => String.eqb (category s) c) l.

(** A report that triggers no specific suggestion: load time at most
    1.5 s, mobile score at least 90, at most 50 requests, none failed. *)
Definition quiet (r : Route.Report) : bool :=
  negb (Qltb (15 # 10) (parseFloat (Route.loadTime r)))
  && negb (Route.mobileScore r <? 90)
  && negb (50 <? Route.totalRequests r)
  && negb (0 <? Route.failedRequests r).

(** The gate of the client: the formatted input passes isValidUrl. *)
Definition isValidUrl_gate
  (authority_parses : string -> string -> bool) (input : string) : bool :=
  Page.isValidUrl authority_parses (Page.formatUrl input).

(** A page that already holds ten reports of the worked example. *)
Definition full_history : PageClient.State :=
  {| PageClient.st_isRunning := false;
     PageClient.st_progress := 100;
     PageClient.st_currentTest := Some "Test completed!"%string;
     PageClient.st_testResults := None;
     PageClient.st_testHistory :=
       repeat (Route.generateTestResults 0 "https://example.com"
                 ScoringSpec.example_bundle) 10;
     PageClient.st_realtimeMetrics :=
       PageClient.st_realtimeMetrics PageClient.initial |}.

End ViewSpec.

(* ================================================================== *)
(** * The Puppeteer tester: accessibility issues and the overall score *)
(* ================================================================== *)

Module Comprehensive.
Import JS.

(** The Core Web Vitals object; an observer that never fired leaves its
    field absent. *)
Record WebVitals : Set := mkWebVitals {
  lcp : option Q;
  fid : option Q;
  cls : option Q
}.

(** What [measurePageMetrics] returns, as far as the score reads it:
    the measured object, or the object of the [catch] branch with its
    [error] message. *)
Inductive PageMetrics : Set :=
| Measured (totalLoadTime : Q) (webVitals : WebVitals)
| MeasureFailed (error : string).

Definition error_of (m : PageMetrics) : option string :=
  match m with
  | Measured _ _ => None
  | MeasureFailed msg => Some msg
  end.

Inductive Severity : Set := high | medium | low.

Record AccessibilityIssue : Set := mkAccessibilityIssue {
  issue_type : string;
  issue_count : option nat;
  severity : Severity
}.

(** What the accessibility checks read from the document. *)
Record Document : Set := mkDocument {
  imagesWithoutAlt : nat;      (* img:not([alt]) *)
  unlabeledInputs : nat;       (* inputs without any label *)
  titleMissing : bool;         (* the title is absent or blank *)
  h1Count : nat
}.

(** The function evaluated in the page by [checkAccessibility]. *)
Definition accessibilityIssues (d : Document) : list AccessibilityIssue :=
  let issues : list AccessibilityIssue := [] in
  let issues :=
    if (0 <? imagesWithoutAlt d)%nat then
      issues ++ [ {| issue_type := "missing_alt_text";
                     issue_count := Some (imagesWithoutAlt d);
                     severity := medium |} ]
    else issues in
  let issues :=
    if (0 <? unlabeledInputs d)%nat then
      issues ++ [ {| issue_type := "unlabeled_inputs";
                     issue_count := Some (unlabeledInputs d);
                     severity := high |} ]
    else issues in
  let issues :=
    if titleMissing d then
      issues ++ [ {| issue_type := "missing_title";
                     issue_count := None;
                     severity := high |} ]
    else issues in
  let issues :=
    if Nat.eqb (h1Count d) 0 then
      issues ++ [ {| issue_type := "missing_h1";
                     issue_count := None;
                     severity := medium |} ]
    else if (1 <? h1Count d)%nat then
      issues ++ [ {| issue_type := "multiple_h1";
                     issue_count := Some (h1Count d);
                     severity := low |} ]
    else issues in
  issues.

(** What [checkAccessibility] returns: the issues, or the object of its
    [catch] branch. *)
Inductive AccessibilityResult : Set :=
| Issues (l : list AccessibilityIssue)
| AccessibilityError (error : string).

(** How the navigation of [checkAccessibility] ends. *)
Inductive PageLoad : Set :=
| Loaded (d : Document)
| LoadFailed (msg : string).

Definition checkAccessibility (page : PageLoad) : AccessibilityResult :=
  match page with
  | Loaded d => Issues (accessibilityIssues d)
  | LoadFailed msg => AccessibilityError msg
  end.

(** The [results] object of [runComprehensiveTest], as far as the score
    reads it; a stage that did not run leaves its field absent. *)
Record Results : Type := mkResults {
  desktop : option PageMetrics;
  mobile : option PageMetrics;
  accessibility : option AccessibilityResult;
  loadTest : option Tester.LoadTestSummary
}.

(** [x > c] where [x] may be undefined. *)
Definition exceeds (x : option Q) (c : Q) : bool :=
  match x with
  | Some q => Qltb c q
  | None => false
  end.

Definition count_severity (s : Severity) (l : list AccessibilityIssue)
  : nat :=
  List.length
    (filter (fun issue =>
               match severity issue, s with
               | high, high | medium, medium | low, low => true
               | _, _ => false
               end) l).

(** [Math.max(0, Math.min(100, Math.round(score)))]. *)
Definition clamp_round (score : Number) : Number :=
  match score with
  | Fin q => Fin (inject_Z (Z.max 0 (Z.min 100 (Math_round q))))
  | NaN => NaN
  | PosInfinity => Fin 100
  | NegInfinity => Fin 0
  end.

(** [calculateOverallScore]; [None] when it throws a TypeError. *)
Definition calculateOverallScore (results : Results) : option Number :=
  let score := 100%Q in
  let after_desktop : option Q :=
    match desktop results with
    | Some d =>
        if negb (truthy_string (error_of d)) then
          match d with
          | Measured loadTime vitals =>
              let score :=
                if Qltb 5 loadTime then (score - 25)%Q
                else if Qltb 3 loadTime then (score - 15)%Q
                else if Qltb 2 loadTime then (score - 10)%Q
                else if Qltb 1 loadTime then (score - 5)%Q
                else score in
              let score :=
                if exceeds (lcp vitals) 2500 then (score - 10)%Q else score in
              let score :=
                if exceeds (fid vitals) 100 then (score - 10)%Q else score in
              let score :=
                if exceeds (cls vitals) (1 # 10) then (score - 10)%Q
                else score in
              Some score
          | MeasureFailed _ =>
              (* an empty error message: totalLoadTime and webVitals are
                 undefined, and reading vitals.lcp throws *)
              None
          end
        else Some score
    | None => Some score
    end in
  match after_desktop with
  | None => None
  | Some score =>
      let score :=
        match mobile results with
        | Some m =>
            if negb (truthy_string (error_of m)) then
              let mobileLoadTime :=
                match m with
                | Measured t _ => Some t
                | MeasureFailed _ => None
                end in
              let desktop_times_1_5 :=
                match desktop results with
                | Some (Measured t _) => Some (t * (15 # 10))%Q
                | _ => None
                end in
              match mobileLoadTime, desktop_times_1_5 with
              | Some m_t, Some d_t =>
                  if Qltb d_t m_t then (score - 15)%Q else score
              | _, _ => score
              end
            else score
        | None => score
        end in
      let score :=
        match accessibility results with
        | Some (Issues l) =>
            let highSeverityIssues := count_severity high l in
            let mediumSeverityIssues := count_severity medium l in
            let score :=
              (score - inject_Z (Z.of_nat highSeverityIssues) * 10)%Q in
            (score - inject_Z (Z.of_nat mediumSeverityIssues) * 5)%Q
        | _ => score
        end in
      let score : Number :=
        match loadTest results with
        | Some lt =>
            match Tester.successRate lt with
            | Fin successRate =>
                if Qltb successRate 95
                then Fin (score - (95 - successRate) * 2)
                else Fin score
            | NegInfinity => NegInfinity
            | _ => Fin score
            end
        | None => Fin score
        end in
      Some (clamp_round score)
  end.

End Comprehensive.

(* ================================================================== *)
(** * Samples for the tester's score *)
(* ================================================================== *)

Module ComprehensiveSpec.
Import JS Comprehensive.

(** A document with nothing to report. *)
Definition clean (d : Document) : Prop :=
  imagesWithoutAlt d = 0%nat /\ unlabeledInputs d = 0%nat
  /\ titleMissing d = false /\ h1Count d = 1%nat.

Definition without_mobile (r : Results) : Results :=
  {| desktop := desktop r; mobile := None;
     accessibility := accessibility r; loadTest := loadTest r |}.

Definition without_loadTest (r : Results) : Results :=
  {| desktop := desktop r; mobile := mobile r;
     accessibility := accessibility r; loadTest := None |}.

(** The results of a test that ran the accessibility check alone, on a
    document that loaded. *)
Definition accessibility_only (d : Document) : Results :=
  {| desktop := None; mobile := None;
     accessibility := Some (checkAccessibility (Loaded d));
     loadTest := None |}.

(** The desktop measurement failed with an empty error message. *)
Definition desktop_failed_silently (r : Results) : bool :=
  match desktop r with
  | Some (MeasureFailed msg) => String.eqb msg EmptyString
  | _ => false
  end.

End ComprehensiveSpec.

(* ================================================================== *)
(** * Properties *)
(* ================================================================== *)

Section JSFacts.
Import JS.

Lemma Math_round_inject_Z (z : Z) : Math_round (inject_Z z) = z.
Proof.
  unfold Math_round, Qfloor, Qplus, inject_Z. simpl.
  replace (z * 2 + 1) with (1 + z * 2) by lia.
  rewrite Z.div_add by lia. reflexivity.
Qed.

(** ** Rounding to the nearest double *)

Lemma Qcompare_cases (p q : Q) :
  match Qcompare p q with
  | Lt => (p < q)%Q
  | Eq => (p == q)%Q
  | Gt => (q < p)%Q
  end.
Proof.
  destruct (Qcompare p q) eqn:C.
  - apply Qeq_alt. exact C.
  - apply Qlt_alt. exact C.
  - apply Qgt_alt. exact C.
Qed.

Lemma rne_bounds (t : Q) : Qfloor t <= rne t <= Qfloor t + 1.
Proof.
  unfold rne. destruct (Qcompare _ _); [destruct (Z.even _)| |]; lia.
Qed.

(** [rne t] is within one half of [t]. *)
Lemma rne_error (t : Q) :
  (inject_Z (rne t) - t <= 1 # 2)%Q /\ (t - inject_Z (rne t) <= 1 # 2)%Q.
Proof.
  unfold rne.
  pose proof (Qcompare_cases (t - inject_Z (Qfloor t)) (1 # 2)) as C.
  pose proof (Qfloor_le t) as Hlo. pose proof (Qlt_floor t) as Hhi.
  rewrite inject_Z_plus in Hhi. change (inject_Z 1) with 1%Q in Hhi.
  destruct (Qcompare (t - inject_Z (Qfloor t)) (1 # 2));
    [destruct (Z.even (Qfloor t))| |];
    rewrite ?inject_Z_plus; change (inject_Z 1) with 1%Q; split; lra.
Qed.

Lemma rne_monotone (t t' : Q) : (t <= t')%Q -> rne t <= rne t'.
Proof.
  intros Hle.
  pose proof (Qfloor_resp_le _ _ Hle) as Hf.
  pose proof (rne_bounds t) as Hb. pose proof (rne_bounds t') as Hb'.
  destruct (Z.eq_dec (Qfloor t) (Qfloor t')) as [E|NE]; [|lia].
  unfold rne in *. rewrite <- E in *.
  pose proof (Qcompare_cases (t - inject_Z (Qfloor t)) (1 # 2)) as C.
  pose proof (Qcompare_cases (t' - inject_Z (Qfloor t)) (1 # 2)) as C'.
  destruct (Qcompare (t - inject_Z (Qfloor t)) (1 # 2));
    destruct (Qcompare (t' - inject_Z (Qfloor t)) (1 # 2));
    try (destruct (Z.even (Qfloor t))); try lia; exfalso; lra.
Qed.

Lemma two_1074_pos : (0 < two_1074)%Q.
Proof.
  unfold two_1074. rewrite <- (Zlt_Qlt 0). apply Z.pow_pos_nonneg; lia.
Qed.

Lemma two_1074_large : (inject_Z (2 ^ 53) <= two_1074)%Q.
Proof.
  unfold two_1074. rewrite <- Zle_Qle. apply Z.pow_le_mono_r; lia.
Qed.

Lemma pow2_pos (g : Z) : 0 <= g -> (0 < inject_Z (2 ^ g))%Q.
Proof. intros. rewrite <- (Zlt_Qlt 0). apply Z.pow_pos_nonneg; lia. Qed.

Lemma binade_nonneg (y : Q) : 0 <= binade y.
Proof. unfold binade. lia. Qed.

Lemma binade_monotone (y y' : Q) : (y <= y')%Q -> binade y <= binade y'.
Proof.
  intros H. unfold binade.
  pose proof (Z.log2_le_mono _ _ (Qfloor_resp_le _ _ H)). lia.
Qed.

(** The scaled significand stays below 2^53. *)
Lemma significand_upper (y : Q) :
  (0 <= y)%Q -> (y / inject_Z (2 ^ binade y) < inject_Z (2 ^ 53))%Q.
Proof.
  intros Hy.
  pose proof (pow2_pos _ (binade_nonneg y)) as Hp.
  apply Qlt_shift_div_r; [exact Hp|].
  rewrite <- inject_Z_mult, <- Z.pow_add_r
    by (pose proof (binade_nonneg y); lia).
  eapply Qlt_le_trans; [apply (Qlt_floor y)|].
  rewrite <- Zle_Qle.
  assert (H0 : 0 <= Qfloor y).
  { rewrite <- (Qfloor_Z 0). apply Qfloor_resp_le. exact Hy. }
  destruct (Z.eq_dec (Qfloor y) 0) as [E|NE].
  - rewrite E. pose proof (binade_nonneg y).
    assert (2 ^ 0 <= 2 ^ (53 + binade y)) by (apply Z.pow_le_mono_r; lia).
    change (2 ^ 0) with 1 in *. lia.
  - destruct (Z.log2_spec (Qfloor y)) as [_ Hu]; [lia|].
    assert (2 ^ Z.succ (Z.log2 (Qfloor y)) <= 2 ^ (53 + binade y)).
    { apply Z.pow_le_mono_r; [lia|]. unfold binade. lia. }
    lia.
Qed.

(** Above the subnormal range it is at least 2^52. *)
Lemma significand_lower (y : Q) :
  0 < binade y -> (inject_Z (2 ^ 52) <= y / inject_Z (2 ^ binade y))%Q.
Proof.
  intros Hg.
  pose proof (pow2_pos _ (binade_nonneg y)) as Hp.
  apply Qle_shift_div_l; [exact Hp|].
  rewrite <- inject_Z_mult, <- Z.pow_add_r by lia.
  eapply Qle_trans; [|apply (Qfloor_le y)].
  rewrite <- Zle_Qle.
  assert (HN : 0 < Qfloor y).
  { unfold binade in Hg. destruct (Z_lt_le_dec 0 (Qfloor y)); [assumption|].
    rewrite Z.log2_nonpos in Hg by assumption. lia. }
  destruct (Z.log2_spec (Qfloor y) HN) as [Hl _].
  replace (52 + binade y) with (Z.log2 (Qfloor y)); [exact Hl|].
  unfold binade in *. lia.
Qed.

Lemma double_nonneg_monotone (x x' : Q) :
  (0 <= x)%Q -> (x <= x')%Q -> (double_nonneg x <= double_nonneg x')%Q.
Proof.
  intros H0 Hle. unfold double_nonneg.
  pose proof two_1074_pos as HT.
  set (y := (x * two_1074)%Q). set (y' := (x' * two_1074)%Q).
  assert (Hy0 : (0 <= y)%Q) by (unfold y; apply Qmult_le_0_compat; lra).
  assert (Hyy : (y <= y')%Q) by (unfold y, y'; apply Qmult_le_compat_r; lra).
  pose proof (binade_monotone _ _ Hyy) as Hg.
  pose proof (binade_nonneg y) as Hg0.
  set (g := binade y) in *. set (g' := binade y') in *.
  set (m := rne (y / inject_Z (2 ^ g))).
  set (m' := rne (y' / inject_Z (2 ^ g'))).
  apply Qle_shift_div_l; [exact HT|].
  unfold Qdiv.
  rewrite <- Qmult_assoc, (Qmult_comm (/ two_1074)), Qmult_inv_r, Qmult_1_r
    by lra.
  rewrite <- Zle_Qle.
  destruct (Z.eq_dec g g') as [E|NE].
  - subst m m'. rewrite <- E.
    apply Z.mul_le_mono_nonneg_r; [apply Z.pow_nonneg; lia|].
    apply rne_monotone.
    apply Qmult_le_compat_r; [exact Hyy|].
    apply Qlt_le_weak, Qinv_lt_0_compat, pow2_pos; lia.
  - assert (Hlt : g < g') by lia.
    assert (Hm : m <= 2 ^ 53).
    { pose proof (rne_bounds (y / inject_Z (2 ^ g))) as [_ Hu].
      pose proof (significand_upper y Hy0) as Hs. fold g in Hs.
      assert (Qfloor (y / inject_Z (2 ^ g)) < 2 ^ 53).
      { rewrite Zlt_Qlt. eapply Qle_lt_trans; [apply Qfloor_le|exact Hs]. }
      subst m. lia. }
    assert (Hm' : 2 ^ 52 <= m').
    { pose proof (rne_bounds (y' / inject_Z (2 ^ g'))) as [Hl _].
      assert (Hpos : 0 < binade y') by (fold g'; lia).
      pose proof (significand_lower y' Hpos) as Hs. fold g' in Hs.
      pose proof (Qfloor_resp_le _ _ Hs) as Hf. rewrite Qfloor_Z in Hf.
      subst m'. lia. }
    assert (Hp : 2 * 2 ^ g <= 2 ^ g').
    { replace (2 * 2 ^ g) with (2 ^ (g + 1))
        by (rewrite Z.pow_add_r by lia; lia).
      apply Z.pow_le_mono_r; lia. }
    assert (Hpg : 0 < 2 ^ g) by (apply Z.pow_pos_nonneg; lia).
    assert (Hpg' : 0 < 2 ^ g') by (apply Z.pow_pos_nonneg; lia).
    change (2 ^ 53) with (2 ^ 52 * 2) in Hm.
    assert (H252 : 0 < 2 ^ 52) by (apply Z.pow_pos_nonneg; lia).
    set (P := 2 ^ 52) in *. clearbody P.
    set (A := 2 ^ g) in *. set (B := 2 ^ g') in *. clearbody A B.
    clearbody m m'.
    apply Z.le_trans with (P * 2 * A); [apply Z.mul_le_mono_nonneg_r; lia|].
    apply Z.le_trans with (P * B); [|apply Z.mul_le_mono_nonneg_r; lia].
    rewrite <- Z.mul_assoc. apply Z.mul_le_mono_nonneg_l; lia.
Qed.

Lemma double_nonneg_nonneg (x : Q) : (0 <= x)%Q -> (0 <= double_nonneg x)%Q.
Proof.
  intros H. unfold double_nonneg.
  pose proof two_1074_pos as HT.
  apply Qle_shift_div_l; [exact HT|]. rewrite Qmult_0_l.
  rewrite <- (Zle_Qle 0).
  apply Z.mul_nonneg_nonneg; [|apply Z.pow_nonneg; lia].
  pose proof (rne_bounds
                (x * two_1074 / inject_Z (2 ^ binade (x * two_1074))))
    as [Hl _].
  assert (0 <= Qfloor (x * two_1074 / inject_Z (2 ^ binade (x * two_1074))));
    [|lia].
  rewrite <- (Qfloor_Z 0). apply Qfloor_resp_le.
  apply Qle_shift_div_l; [apply pow2_pos, binade_nonneg|].
  rewrite Qmult_0_l. apply Qmult_le_0_compat; lra.
Qed.

(** Rounding preserves the order. *)
Lemma double_monotone (x x' : Q) : (x <= x')%Q -> (double x <= double x')%Q.
Proof.
  intros Hle. unfold double.
  destruct (Qle_bool 0 x) eqn:Hx; destruct (Qle_bool 0 x') eqn:Hx'.
  - apply Qle_bool_iff in Hx. apply double_nonneg_monotone; assumption.
  - apply Qle_bool_iff in Hx.
    assert (~ (0 <= x')%Q) by (rewrite <- Qle_bool_iff; congruence). lra.
  - apply Qle_bool_iff in Hx'.
    assert (Hn : ~ (0 <= x)%Q) by (rewrite <- Qle_bool_iff; congruence).
    pose proof (double_nonneg_nonneg x' Hx').
    pose proof (double_nonneg_nonneg (- x) ltac:(lra)). lra.
  - assert (Hn : ~ (0 <= x)%Q) by (rewrite <- Qle_bool_iff; congruence).
    assert (Hn' : ~ (0 <= x')%Q) by (rewrite <- Qle_bool_iff; congruence).
    apply Qopp_le_compat. apply double_nonneg_monotone; lra.
Qed.

Lemma double_compat (x x' : Q) : (x == x')%Q -> (double x == double x')%Q.
Proof.
  intro E. apply Qle_antisym; apply double_monotone; rewrite E; apply Qle_refl.
Qed.

(** The rounding error: relative below 2^-53, or half the smallest
    positive double. *)
Lemma double_nonneg_error (x : Q) :
  (0 <= x)%Q ->
  (double_nonneg x - x <= x / inject_Z (2 ^ 53) + 1 / (2 * two_1074))%Q
  /\ (x - double_nonneg x <= x / inject_Z (2 ^ 53) + 1 / (2 * two_1074))%Q.
Proof.
  intros H0. unfold double_nonneg.
  pose proof two_1074_pos as HT.
  set (y := (x * two_1074)%Q).
  assert (Hy0 : (0 <= y)%Q) by (unfold y; apply Qmult_le_0_compat; lra).
  pose proof (binade_nonneg y) as Hg0.
  pose proof (pow2_pos _ Hg0) as HG.
  destruct (rne_error (y / inject_Z (2 ^ binade y))) as [Eu El].
  set (m := inject_Z (rne (y / inject_Z (2 ^ binade y)))) in *.
  rewrite inject_Z_mult. fold m.
  assert (HGy : (inject_Z (2 ^ binade y) <= 1 + y / inject_Z (2 ^ 52))%Q).
  { destruct (Z.eq_dec (binade y) 0) as [E|NE].
    - rewrite E. change (inject_Z (2 ^ 0)) with 1%Q.
      assert (0 <= y / inject_Z (2 ^ 52))%Q; [|lra].
      apply Qle_shift_div_l; [apply pow2_pos; lia|]. lra.
    - assert (Hpos : 0 < binade y) by lia.
      pose proof (significand_lower y Hpos) as Hs.
      assert (inject_Z (2 ^ binade y) <= y / inject_Z (2 ^ 52))%Q; [|lra].
      apply Qle_shift_div_l; [apply pow2_pos; lia|].
      apply (Qmult_le_r _ _ (inject_Z (2 ^ binade y))) in Hs; [|exact HG].
      unfold Qdiv in Hs.
      rewrite <- Qmult_assoc, (Qmult_comm (/ _)), Qmult_inv_r, Qmult_1_r in Hs
        by lra.
      rewrite Qmult_comm. exact Hs. }
  set (G := inject_Z (2 ^ binade y)) in *.
  assert (H53 : (inject_Z (2 ^ 53) == 2 * inject_Z (2 ^ 52))%Q).
  { rewrite <- (inject_Z_mult 2). reflexivity. }
  pose proof (pow2_pos 52 ltac:(lia)) as HP.
  set (P := inject_Z (2 ^ 52)) in *.
  assert (Ey : (y / G == m + (y / G - m))%Q) by ring.
  assert (Hx : (x == y / two_1074)%Q).
  { unfold y. field. lra. }
  assert (Hbound : forall d : Q,
            (d <= 1 # 2)%Q -> (- (1 # 2) <= d)%Q ->
            (d * G / two_1074 <= x / (2 * P) + 1 / (2 * two_1074))%Q
            /\ (- (x / (2 * P) + 1 / (2 * two_1074)) <= d * G / two_1074)%Q).
  { intros d Hd1 Hd2.
    assert (HGx : (G / two_1074 <= 1 / two_1074 + x / P)%Q).
    { rewrite Hx. apply Qle_shift_div_r; [exact HT|].
      assert (E : ((1 / two_1074 + y / two_1074 / P) * two_1074
                   == 1 + y / P)%Q) by (field; split; lra).
      rewrite E. exact HGy. }
    assert (HGT : (0 <= G / two_1074)%Q).
    { apply Qle_shift_div_l; [exact HT|]. lra. }
    assert (E1 : (d * G / two_1074 == d * (G / two_1074))%Q)
      by (field; lra).
    assert (E2 : (x / (2 * P) + 1 / (2 * two_1074)
                  == (1 # 2) * (1 / two_1074 + x / P))%Q)
      by (field; split; lra).
    rewrite E1, E2.
    set (q := (G / two_1074)%Q) in *.
    set (b := (1 / two_1074 + x / P)%Q) in *.
    split; nra. }
  rewrite H53.
  assert (Em : (m * G / two_1074 - x == (m - y / G) * G / two_1074)%Q).
  { rewrite Hx. field. split; lra. }
  assert (Em' : (x - m * G / two_1074 == (y / G - m) * G / two_1074)%Q).
  { rewrite Hx. field. split; lra. }
  rewrite Em, Em'. split.
  - apply Hbound; lra.
  - apply Hbound; lra.
Qed.

Lemma double_error (x : Q) :
  (0 <= x)%Q ->
  (double x - x <= x / inject_Z (2 ^ 53) + 1 / (2 * two_1074))%Q
  /\ (x - double x <= x / inject_Z (2 ^ 53) + 1 / (2 * two_1074))%Q.
Proof.
  intro H0. unfold double.
  assert (Hx : Qle_bool 0 x = true) by (apply Qle_bool_iff; exact H0).
  rewrite Hx. apply double_nonneg_error. exact H0.
Qed.

(** The integers the route adds and multiplies by are doubles. *)
Lemma double_integers :
  (double 0 == 0)%Q /\ (double 1 == 1)%Q /\ (double 3 == 3)%Q
  /\ (double 4 == 4)%Q /\ (double 30 == 30)%Q /\ (double 70 == 70)%Q
  /\ (double 100 == 100)%Q.
Proof. repeat split; vm_compute; reflexivity. Qed.

Lemma double_nonneg_of_nonneg (x : Q) : (0 <= x)%Q -> (0 <= double x)%Q.
Proof.
  intro H. destruct double_integers as [E0 _]. rewrite <- E0.
  apply double_monotone. exact H.
Qed.

Lemma Qfloor_range (x : Q) (lo hi : Z) :
  (inject_Z lo <= x)%Q -> (x < inject_Z hi)%Q -> lo <= Qfloor x < hi.
Proof.
  intros Hlo Hhi. split.
  - rewrite <- (Qfloor_Z lo). apply Qfloor_resp_le. exact Hlo.
  - rewrite Zlt_Qlt. apply Qle_lt_trans with x; [apply Qfloor_le | exact Hhi].
Qed.

(** [toFixed(2)] preserves the order of non-negative numbers. *)
Lemma toFixed2_monotone (x y : Q) :
  (0 <= x)%Q -> (x <= y)%Q ->
  hundredths (toFixed2 x) <= hundredths (toFixed2 y).
Proof.
  intros H0 Hle. unfold toFixed2, Qltb.
  assert (Hx : Qle_bool 0 x = true) by (apply Qle_bool_iff; exact H0).
  assert (Hy : Qle_bool 0 y = true) by (apply Qle_bool_iff; lra).
  rewrite Hx, Hy. cbn [negb hundredths].
  apply Qfloor_resp_le. lra.
Qed.

Lemma toFixed2_between (x lo hi : Q) (a b : Z) :
  (0 <= lo)%Q -> (lo <= x)%Q -> (x <= hi)%Q ->
  hundredths (toFixed2 lo) = a -> hundredths (toFixed2 hi) = b ->
  a <= hundredths (toFixed2 x) <= b.
Proof.
  intros H0 Hlo Hhi <- <-. split.
  - apply toFixed2_monotone; assumption.
  - apply toFixed2_monotone; [lra | assumption].
Qed.

(** The score compares the parsed load time with 1, 2, 3 and 4.  The
    model keeps the parsed number as the decimal it was printed from; on
    the double nearest to that decimal the comparisons come out the
    same. *)
Lemma parseFloat_threshold (s : Fixed2) (k : Z) :
  (double (inject_Z k) == inject_Z k)%Q ->
  (inject_Z k < double (Qmake (100 * k + 1) 100))%Q ->
  Qltb (inject_Z k) (double (parseFloat s)) =
  Qltb (inject_Z k) (parseFloat s).
Proof.
  intros Ek Hnext. unfold parseFloat, Qltb.
  destruct (Z_le_gt_dec (hundredths s) (100 * k)) as [Hle|Hgt].
  - assert (Hq : (Qmake (hundredths s) 100 <= inject_Z k)%Q).
    { unfold Qle, inject_Z. cbn [Qnum Qden]. lia. }
    pose proof (double_monotone _ _ Hq) as Hd. rewrite Ek in Hd.
    apply Qle_bool_iff in Hq, Hd. rewrite Hq, Hd. reflexivity.
  - assert (Hq : (Qmake (100 * k + 1) 100 <= Qmake (hundredths s) 100)%Q).
    { unfold Qle. cbn [Qnum Qden]. lia. }
    pose proof (double_monotone _ _ Hq) as Hd.
    assert (H1 : ~ (Qmake (hundredths s) 100 <= inject_Z k)%Q).
    { unfold Qle, inject_Z. cbn [Qnum Qden]. lia. }
    assert (H2 : ~ (double (Qmake (hundredths s) 100) <= inject_Z k)%Q)
      by lra.
    rewrite <- Qle_bool_iff in H1, H2.
    apply not_true_is_false in H1, H2. rewrite H1, H2. reflexivity.
Qed.

Lemma parseFloat_thresholds (s : Fixed2) :
  Qltb 1 (double (parseFloat s)) = Qltb 1 (parseFloat s)
  /\ Qltb 2 (double (parseFloat s)) = Qltb 2 (parseFloat s)
  /\ Qltb 3 (double (parseFloat s)) = Qltb 3 (parseFloat s)
  /\ Qltb 4 (double (parseFloat s)) = Qltb 4 (parseFloat s).
Proof.
  repeat split.
  - apply (parseFloat_threshold s 1); vm_compute; reflexivity.
  - apply (parseFloat_threshold s 2); vm_compute; reflexivity.
  - apply (parseFloat_threshold s 3); vm_compute; reflexivity.
  - apply (parseFloat_threshold s 4); vm_compute; reflexivity.
Qed.

(** A whole number of milliseconds below ten seconds, divided by 1000
    and printed with two decimals, is the number of centiseconds nearest
    to it; when two are as near ([ms] ends in 5) either may be printed,
    as the quotient was rounded below or above the tie. *)
Lemma toFixed2_milliseconds (ms : Z) :
  0 <= ms < 10000 ->
  (ms + 4) / 10 <= hundredths (toFixed2 (fdiv (inject_Z ms) 1000))
                <= (ms + 5) / 10.
Proof.
  intros [H0 H1]. unfold fdiv.
  set (x := (inject_Z ms / 1000)%Q).
  assert (Hx : (x * 1000 == inject_Z ms)%Q) by (unfold x; field).
  assert (Hms0 : (0 <= inject_Z ms)%Q) by (rewrite <- (Zle_Qle 0); exact H0).
  assert (Hms1 : (inject_Z ms <= 10000)%Q).
  { change 10000%Q with (inject_Z 10000). rewrite <- Zle_Qle. lia. }
  assert (Hx0 : (0 <= x)%Q) by lra.
  destruct (double_error x Hx0) as [Eu El].
  pose proof (double_nonneg_of_nonneg x Hx0) as Hd0.
  pose proof two_1074_large as HT.
  assert (Hsmall : (x / inject_Z (2 ^ 53) + 1 / (2 * two_1074)
                    <= 1 # 100000)%Q).
  { change (inject_Z (2 ^ 53)) with (9007199254740992 # 1)%Q in *.
    assert (H1T : (1 / (2 * two_1074) <= 1 # 1000000)%Q).
    { apply Qle_shift_div_r; lra. }
    assert (Hx53 : (x / (9007199254740992 # 1) <= 1 # 1000000)%Q).
    { apply Qle_shift_div_r; lra. }
    lra. }
  set (d := double x) in *.
  unfold toFixed2, Qltb.
  assert (Hb : Qle_bool 0 d = true) by (apply Qle_bool_iff; exact Hd0).
  rewrite Hb. cbn [negb hundredths].
  assert (Hlo : (inject_Z ((ms + 4) / 10) <= d * 100 + (1 # 2))%Q).
  { assert (Hk : (inject_Z ((ms + 4) / 10) * 10 <= inject_Z ms + 4)%Q).
    { change 10%Q with (inject_Z 10). change 4%Q with (inject_Z 4).
      rewrite <- inject_Z_mult, <- inject_Z_plus, <- Zle_Qle.
      pose proof (Z.mul_div_le (ms + 4) 10). lia. }
    lra. }
  assert (Hhi : (d * 100 + (1 # 2) < inject_Z ((ms + 5) / 10 + 1))%Q).
  { assert (Hk : (inject_Z ms + 6 <= inject_Z ((ms + 5) / 10 + 1) * 10)%Q).
    { change 10%Q with (inject_Z 10). change 6%Q with (inject_Z 6).
      rewrite <- inject_Z_mult, <- inject_Z_plus, <- Zle_Qle.
      pose proof (Z.mul_succ_div_gt (ms + 5) 10). lia. }
    lra. }
  pose proof (Qfloor_range _ _ _ Hlo Hhi). lia.
Qed.

(** 1005 ms is printed as 1.00: the quotient is the double just below
    1.005. *)
Example toFixed2_1005_milliseconds :
  toFixed2 (fdiv (inject_Z 1005) 1000) = mkFixed2 100.
Proof. vm_compute. reflexivity. Qed.

End JSFacts.

Section Scoring.
Import JS Route ScoringSpec.

Lemma clamp_max_min (x : Z) : Z.max 0 (Z.min 100 x) = clamp 0 100 x.
Proof.
  unfold clamp.
  destruct (Z.ltb_spec x 0), (Z.ltb_spec 100 x); lia.
Qed.

Lemma clamp_bounds (x : Z) : 0 <= clamp 0 100 x <= 100.
Proof.
  unfold clamp.
  destruct (Z.ltb_spec x 0), (Z.ltb_spec 100 x); lia.
Qed.

(** The score field of the report, whatever issues are reported. *)
Lemma overallScore_unfold (now : Z) (u : string) (td : TestData) :
  overallScore (generateTestResults now u td) =
  Math_round (inject_Z (Z.max 0 (Z.min 100
    (100 - load_time_deduction (parseFloat (td_loadTime td))
         - mobile_deduction (td_mobileScore td)
         - lt_failedRequests (td_loadTestResults td) * 5
         - Z.of_nat (List.length (td_brokenLinks td)) * 10)))).
Proof.
  unfold generateTestResults, load_time_deduction, mobile_deduction.
  destruct (Qltb 2 (parseFloat (td_loadTime td))) eqn:H2;
  destruct (td_mobileScore td <? 85) eqn:H85;
  destruct (0 <? Z.of_nat (List.length (td_brokenLinks td))) eqn:Hb;
  destruct (0 <? lt_failedRequests (td_loadTestResults td)) eqn:Hf;
  cbn [overallScore];
  destruct (Qltb 3 (parseFloat (td_loadTime td)));
  destruct (Qltb 1 (parseFloat (td_loadTime td)));
  destruct (td_mobileScore td <? 80);
  destruct (td_mobileScore td <? 90);
  reflexivity.
Qed.

(** C1: for every metrics bundle the overall score is 100 minus the
    load-time bracket, the mobile bracket, 5 per failed request and 10
    per broken link, clamped to [0,100]; the clamped value is an integer,
    which rounding to the nearest integer leaves unchanged. *)
Theorem generateTestResults_overallScore
  (now : Z) (u : string) (td : TestData) :
  overallScore (generateTestResults now u td) =
    expected_score (parseFloat (td_loadTime td)) (td_mobileScore td)
      (lt_failedRequests (td_loadTestResults td))
      (List.length (td_brokenLinks td))
  /\ 0 <= overallScore (generateTestResults now u td) <= 100.
Proof.
  rewrite overallScore_unfold, Math_round_inject_Z, clamp_max_min.
  unfold expected_score. split.
  - f_equal. lia.
  - apply clamp_bounds.
Qed.

(** A thousand failed requests give the score 0, not a negative one. *)
Example thousand_failures_score (now : Z) (u : string) :
  overallScore (generateTestResults now u thousand_failures_bundle) = 0.
Proof. reflexivity. Qed.

(** The issue and recommendation lists, category by category. *)
Lemma issues_recommendations_unfold (now : Z) (u : string) (td : TestData) :
  issues (generateTestResults now u td) =
    map (fun c => issue_of c td) (filter (fun c => fires c td) categories)
  /\ recommendations (generateTestResults now u td) =
    map recommendation_for (filter (fun c => fires c td) categories).
Proof.
  destruct td as [lt bl ms ltr].
  unfold generateTestResults, categories, fires.
  cbn [filter td_loadTime td_brokenLinks td_mobileScore td_loadTestResults].
  destruct (Qltb 2 (parseFloat lt));
  destruct (ms <? 85);
  destruct (0 <? lt_failedRequests ltr);
  destruct bl as [|b bs];
  split; reflexivity.
Qed.

Lemma category_of_issue_of (c : Category) (td : TestData) :
  category_of (issue_of c td) = Some c.
Proof. destruct c; reflexivity. Qed.

Lemma count_category_fired (c : Category) (td : TestData) (l : list Category) :
  count_category c (map (fun c' => issue_of c' td) l) =
  List.length (filter (Category_eqb c) l).
Proof.
  unfold count_category.
  induction l as [|a l IH]; [reflexivity|].
  cbn [map filter]. unfold in_category at 1.
  rewrite category_of_issue_of.
  destruct (Category_eqb c a); cbn [List.length]; rewrite IH; reflexivity.
Qed.

(** C2: on the worked example (4.5 s, mobile 65, two failed requests,
    two broken links) the score is 35, the issue list holds exactly the
    four entries load-time/high, mobile/medium, broken-links/high and
    failed-requests/medium, and the recommendation list holds the four
    category strings. *)
Theorem generateTestResults_worked_example (now : Z) (u : string) :
  let r := generateTestResults now u example_bundle in
  overallScore r = 35
  /\ List.length (issues r) = 4%nat
  /\ map (fun i => (category_of i, severity i)) (issues r) =
       [(Some LoadTimeCat, high); (Some MobileCat, medium);
        (Some BrokenLinksCat, high); (Some FailedRequestsCat, medium)]
  /\ List.length (recommendations r) = 4%nat
  /\ recommendations r = map recommendation_for categories.
Proof. repeat split. Qed.

(** The clock reaches the report through the timestamp only. *)
Lemma generateTestResults_clock (now : Z) (u : string) (td : TestData) :
  generateTestResults now u td =
  with_timestamp now (generateTestResults 0 u td).
Proof.
  unfold generateTestResults, with_timestamp.
  destruct (Qltb 2 (parseFloat (td_loadTime td)));
  destruct (td_mobileScore td <? 85);
  destruct (0 <? Z.of_nat (List.length (td_brokenLinks td)));
  destruct (0 <? lt_failedRequests (td_loadTestResults td));
  reflexivity.
Qed.

(** C3, as the claim words it, fails: two invocations on the same url and
    bundle at different clock readings return different reports. *)
Lemma generateTestResults_reads_clock :
  generateTestResults 0 "http://localhost:3000" example_bundle <>
  generateTestResults 1 "http://localhost:3000" example_bundle.
Proof. intro H. apply (f_equal timestamp) in H. discriminate H. Qed.

(** C3, amended: two invocations on the same url and bundle return
    reports equal in every field except the timestamp, which is the
    clock reading of each invocation. *)
Theorem generateTestResults_deterministic_up_to_timestamp
  (now1 now2 : Z) (u : string) (td : TestData) :
  same_except_timestamp
    (generateTestResults now1 u td) (generateTestResults now2 u td)
  /\ timestamp (generateTestResults now1 u td) = now1
  /\ timestamp (generateTestResults now2 u td) = now2.
Proof.
  rewrite (generateTestResults_clock now1), (generateTestResults_clock now2).
  unfold same_except_timestamp, with_timestamp.
  cbn [url timestamp overallScore loadTime speedIndex totalRequests
       failedRequests mobileScore brokenLinks issues recommendations].
  auto 12.
Qed.

(** C4, as the claim words it, fails: a load time of 1.5 s costs five
    points, yet the report has no load-time issue (and no issue at all);
    likewise a mobile score of 87 costs points without an issue. *)
Lemma issue_thresholds_differ_from_deductions :
  violated LoadTimeCat slow_but_quiet_bundle = true /\
  overallScore (generateTestResults 0 "x" slow_but_quiet_bundle) = 95 /\
  count_category LoadTimeCat
    (issues (generateTestResults 0 "x" slow_but_quiet_bundle)) = 0%nat /\
  issues (generateTestResults 0 "x" slow_but_quiet_bundle) = [].
Proof. repeat split. Qed.

(** C4, amended: the issue list holds exactly one entry for each
    category that fires and none for any other, where load time fires
    above 2 s, mobile below 85, failed requests above 0 and broken links
    on a non-empty list; every entry belongs to one of the four
    categories; and the recommendation list holds exactly the fixed
    string of each category that fired, in the same order. *)
Theorem issues_one_per_fired_category (now : Z) (u : string) (td : TestData) :
  let r := generateTestResults now u td in
  (forall c, count_category c (issues r) = if fires c td then 1%nat else 0%nat)
  /\ (forall i, In i (issues r) ->
        exists c, category_of i = Some c /\ fires c td = true)
  /\ recommendations r =
       map recommendation_for (filter (fun c => fires c td) categories)
  /\ List.length (recommendations r) = List.length (issues r).
Proof.
  cbv zeta.
  destruct (issues_recommendations_unfold now u td) as [Hi Hr].
  rewrite Hi, Hr. repeat split.
  - intro c. rewrite count_category_fired. unfold categories. cbn [filter].
    destruct c;
    destruct (fires LoadTimeCat td), (fires MobileCat td),
             (fires BrokenLinksCat td), (fires FailedRequestsCat td);
    reflexivity.
  - intros i Hin. apply in_map_iff in Hin. destruct Hin as [c [Hc Hin]].
    apply filter_In in Hin. exists c. subst i.
    split; [apply category_of_issue_of | apply Hin].
  - rewrite !length_map. reflexivity.
Qed.

End Scoring.

Section Stream.
Import JS Route StreamSpec.

(** Symbolic execution of a run: unfold the monad and the stages, then
    split on whatever the environment decides. *)
Ltac run_route :=
  lazy beta iota zeta delta
    [stream runPerformanceTest simulateLoadTimeTest simulateBrokenLinkCheck
     simulateMobileTest simulateLoadTest get_concurrent
     try_finally try_catch bind ret throw emit advance enqueue close delay
     Date_now Math_random fetch_HEAD for_loop start_at messages_of
     progress_message metrics_message results_message error_message
     progress error events now draws snd fst flat_map map app
     existsb carries_error orb run_successful progress_values].

Ltac split_on_env :=
  match goal with
  | |- context [if isLocalhost ?u then _ else _] =>
      destruct (isLocalhost u) eqn:?
  | |- context [match fetch ?e ?u with Responded _ => _ | Rejected _ => _ end] =>
      destruct (fetch e u) eqn:?
  | |- context [if ?a <? ?b then _ else _] => destruct (a <? b) eqn:?
  | |- context [if Qltb ?a ?b then _ else _] => destruct (Qltb a b) eqn:?
  end.

Ltac run_all := run_route; repeat (split_on_env; run_route).

(** With a configuration, every run enqueues the same 25 messages as far
    as the progress field goes. *)
Lemma stream_progress_shape
  (e : Env) (t : Z) (u : string) (c : TestConfig) :
  map progress (stream e t u (Some c)) =
    [Some 0; Some 20; None; Some 40; None; None; None;
     Some 60; None; None; None; None;
     Some 80; None; None; None; None; None; None; None; None; None; None;
     Some 100; Some 100].
Proof. run_all; reflexivity. Qed.

(** Without a configuration the run ends in an error message. *)
Lemma stream_without_config (e : Env) (t : Z) (u : string) :
  existsb carries_error (stream e t u None) = true.
Proof. run_all; reflexivity. Qed.

Lemma progress_values_map (msgs : list Message) :
  progress_values msgs =
  flat_map (fun o => match o with Some p => [p] | None => [] end)
           (map progress msgs).
Proof.
  unfold progress_values.
  induction msgs as [|m msgs IH]; [reflexivity|].
  cbn [flat_map map]. rewrite IH. reflexivity.
Qed.

(** Progress and kind of every message of a run with a configuration. *)
Lemma stream_kind_shape
  (e : Env) (t : Z) (u : string) (c : TestConfig) :
  map (fun m => (progress m, metrics_only_b m)) (stream e t u (Some c)) =
    [(Some 0, false); (Some 20, false); (None, true);
     (Some 40, false); (None, true); (None, true); (None, true);
     (Some 60, false); (None, true); (None, true); (None, true); (None, true);
     (Some 80, false);
     (None, true); (None, true); (None, true); (None, true); (None, true);
     (None, true); (None, true); (None, true); (None, true); (None, true);
     (Some 100, false); (Some 100, false)].
Proof. run_all; reflexivity. Qed.

(** A successful run had a configuration to read. *)
Lemma successful_has_config
  (e : Env) (t : Z) (u : string) (cfg : option TestConfig) :
  run_successful (stream e t u cfg) -> exists c, cfg = Some c.
Proof.
  destruct cfg as [c|]; [eauto|].
  unfold run_successful. rewrite stream_without_config. discriminate.
Qed.

(** C5: on a successful run the progress values of the messages that
    carry one are 0, 20, 40, 60, 80, 100, 100, hence non-decreasing; the
    metrics-only messages carry none; and the final message carries
    exactly 100. *)
Theorem progress_nondecreasing_ends_at_100
  (e : Env) (t : Z) (u : string) (cfg : option TestConfig) :
  run_successful (stream e t u cfg) ->
  progress_values (stream e t u cfg) = [0; 20; 40; 60; 80; 100; 100]
  /\ nondecreasing (progress_values (stream e t u cfg))
  /\ (forall m, In m (stream e t u cfg) ->
        metrics_only_b m = true -> progress m = None)
  /\ (exists init final,
        stream e t u cfg = init ++ [final] /\ progress final = Some 100).
Proof.
  intro Hok. destruct (successful_has_config e t u cfg Hok) as [c ->].
  assert (Hv : progress_values (stream e t u (Some c)) =
               [0; 20; 40; 60; 80; 100; 100]).
  { rewrite progress_values_map, stream_progress_shape. reflexivity. }
  split; [exact Hv|]. split; [rewrite Hv; cbn; lia|]. split.
  - intros m Hin Hm.
    apply (in_map (fun m => (progress m, metrics_only_b m))) in Hin.
    rewrite stream_kind_shape, Hm in Hin. cbn [In] in Hin.
    repeat (destruct Hin as [Hin|Hin];
            [inversion Hin; (reflexivity || congruence)|]).
    contradiction.
  - pose proof (stream_progress_shape e t u c) as Hs.
    change [Some 0; Some 20; None; Some 40; None; None; None;
            Some 60; None; None; None; None;
            Some 80; None; None; None; None; None; None; None; None; None;
            None; Some 100; Some 100]
      with ([Some 0; Some 20; None; Some 40; None; None; None;
             Some 60; None; None; None; None;
             Some 80; None; None; None; None; None; None; None; None; None;
             None; Some 100] ++ [Some 100]) in Hs.
    apply map_eq_app in Hs. destruct Hs as [init [fin [Hsplit [_ Hfin]]]].
    destruct fin as [|final [|x fin]]; try discriminate Hfin.
    exists init, final. split; [exact Hsplit|].
    cbn in Hfin. congruence.
Qed.

(** The hypothesis of C5 holds on a run against a public host. *)
Lemma progress_nondecreasing_ends_at_100_witness :
  run_successful (stream calm_env 0 "https://example.com" (Some default_config))
  /\ progress_values
       (stream calm_env 0 "https://example.com" (Some default_config)) =
     [0; 20; 40; 60; 80; 100; 100].
Proof.
  assert (Hok : run_successful
            (stream calm_env 0 "https://example.com" (Some default_config)))
    by (vm_compute; reflexivity).
  split; [exact Hok|].
  exact (proj1 (progress_nondecreasing_ends_at_100
                  calm_env 0 "https://example.com" (Some default_config) Hok)).
Defined.

(** ** The load-time probe *)



(** The value the probe draws on a private host, printed: between 0.30
    and 1.30. *)
Lemma local_probe_range (r : Q) :
  (0 <= r)%Q -> (r < 1)%Q ->
  30 <= hundredths (toFixed2 (fadd (fmul r 1) (double (3 # 10)))) <= 130.
Proof.
  intros H0 H1. unfold fadd, fmul.
  destruct double_integers as [E0 [E1 _]].
  assert (Ha0 : (double 0 <= double (r * 1))%Q)
    by (apply double_monotone; lra).
  assert (Ha1 : (double (r * 1) <= double 1)%Q)
    by (apply double_monotone; lra).
  set (a := double (r * 1)) in *. set (c := double (3 # 10)).
  assert (Hlo : (double (0 + c) <= double (a + c))%Q)
    by (apply double_monotone; lra).
  assert (Hhi : (double (a + c) <= double (1 + c))%Q)
    by (apply double_monotone; lra).
  apply (toFixed2_between _ (double (0 + c)) (double (1 + c)));
    [vm_compute; discriminate | exact Hlo | exact Hhi
    | vm_compute; reflexivity | vm_compute; reflexivity].
Qed.

(** The fallback of the probe, printed: between 1.00 and 4.00. *)
Lemma fallback_range (r : Q) :
  (0 <= r)%Q -> (r < 1)%Q ->
  100 <= hundredths (toFixed2 (fadd (fmul r 3) 1)) <= 400.
Proof.
  intros H0 H1. unfold fadd, fmul.
  destruct double_integers as [E0 [E1 [E3 _]]].
  assert (Ha0 : (double 0 <= double (r * 3))%Q)
    by (apply double_monotone; lra).
  assert (Ha1 : (double (r * 3) <= double 3)%Q)
    by (apply double_monotone; lra).
  set (a := double (r * 3)) in *.
  assert (Hlo : (double (0 + 1) <= double (a + 1))%Q)
    by (apply double_monotone; lra).
  assert (Hhi : (double (a + 1) <= double (3 + 1))%Q)
    by (apply double_monotone; lra).
  apply (toFixed2_between _ (double (0 + 1)) (double (3 + 1)));
    [vm_compute; discriminate | exact Hlo | exact Hhi
    | vm_compute; reflexivity | vm_compute; reflexivity].
Qed.

(** On a private host the probe sleeps, draws one random value and
    reports it; it sends no HEAD request. *)
Lemma simulateLoadTimeTest_local (e : Env) (w : World) (u : string) :
  isLocalhost u = true ->
  simulateLoadTimeTest u e w =
    (Returned
       (toFixed2 (fadd (fmul (random e (draws w)) 1) (double (3 # 10)))),
     {| now := now w + 500;
        draws := S (draws w);
        events := events w ++
          [Slept 500;
           Enqueued (metrics_message (load_time_metrics
             (toFixed2
                (fadd (fmul (random e (draws w)) 1) (double (3 # 10))))))] |}).
Proof.
  intro Hl. destruct w as [clock drawn evs].
  unfold simulateLoadTimeTest. rewrite Hl.
  lazy beta iota zeta delta
    [try_catch bind ret emit advance enqueue delay Date_now Math_random
     now draws events].
  rewrite <- app_assoc. reflexivity.
Qed.

(** On a public host that answers in time the probe reports the elapsed
    time. *)
Lemma simulateLoadTimeTest_measured
  (e : Env) (w : World) (u : string) (ms : Z) :
  isLocalhost u = false -> fetch e u = Responded ms -> ms < 10000 ->
  simulateLoadTimeTest u e w =
    (Returned (toFixed2 (fdiv (inject_Z ms) 1000)),
     {| now := now w + ms;
        draws := draws w;
        events := events w ++
          [FetchedHead u;
           Enqueued (metrics_message (load_time_metrics
             (toFixed2 (fdiv (inject_Z ms) 1000))))] |}).
Proof.
  intros Hl Hf Hms. apply Z.ltb_lt in Hms. destruct w as [clock drawn evs].
  unfold simulateLoadTimeTest, fetch_HEAD. rewrite Hl.
  lazy beta iota zeta delta
    [try_catch bind ret emit advance enqueue Date_now now draws events].
  rewrite Hf, Hms.
  lazy beta iota zeta delta [now draws events].
  replace (clock + ms - clock) with ms by lia.
  rewrite <- app_assoc. reflexivity.
Qed.

(** On a public host whose HEAD request fails the probe reports a random
    fallback. *)
Lemma simulateLoadTimeTest_fallback (e : Env) (w : World) (u : string) :
  isLocalhost u = false -> head_request_failed e u = true ->
  exists clock,
  simulateLoadTimeTest u e w =
    (Returned (toFixed2 (fadd (fmul (random e (draws w)) 3) 1)),
     {| now := clock;
        draws := S (draws w);
        events := events w ++
          [FetchedHead u;
           Enqueued (metrics_message (load_time_metrics
             (toFixed2 (fadd (fmul (random e (draws w)) 3) 1))))] |}).
Proof.
  intros Hl Hf. unfold head_request_failed in Hf.
  destruct w as [clock drawn evs].
  unfold simulateLoadTimeTest, fetch_HEAD. rewrite Hl.
  lazy beta iota zeta delta
    [try_catch bind ret emit advance enqueue Date_now now draws events].
  destruct (fetch e u) as [ms|ms].
  - apply negb_true_iff in Hf. rewrite Hf.
    lazy beta iota zeta delta
      [bind throw advance Math_random emit now draws events].
    eexists. rewrite <- app_assoc. reflexivity.
  - lazy beta iota zeta delta
      [bind throw advance Math_random emit now draws events].
    eexists. rewrite <- app_assoc. reflexivity.
Qed.

(** C7, as the claim words it, fails: the probe returns the seconds
    alone, and a fallback after a refused connection is the very value,
    with the very message, of a real measurement of one second. *)
Lemma fallback_indistinguishable_from_measurement :
  head_request_failed env_down "https://example.com" = true /\
  head_request_failed env_up "https://example.com" = false /\
  fst (simulateLoadTimeTest "https://example.com" env_down (start_at 0)) =
  fst (simulateLoadTimeTest "https://example.com" env_up (start_at 0)) /\
  events (snd (simulateLoadTimeTest "https://example.com" env_down
                 (start_at 0))) =
  events (snd (simulateLoadTimeTest "https://example.com" env_up
                 (start_at 0))).
Proof. vm_compute. repeat split. Qed.

(** C7, amended: on a public host the probe returns the seconds alone, a
    two-decimal string with no degraded flag, and enqueues one metrics
    message of the same shape in both cases.  When the HEAD request
    times out or errors the value is the random fallback
    [Math.random() * 3 + 1], computed in doubles and printed with two
    decimals: between 1.00 and 4.00.  On a real measurement it is the
    elapsed milliseconds divided by 1000 in doubles and printed with two
    decimals: the nearest number of centiseconds, either of the two when
    the milliseconds end in 5 (the quotient is a double just below or
    just above the tie). *)
Theorem load_time_probe_returns_seconds_only
  (e : Env) (w : World) (u : string) :
  isLocalhost u = false ->
  (0 <= random e (draws w))%Q -> (random e (draws w) < 1)%Q ->
  exists (seconds : Fixed2) (w' : World),
    simulateLoadTimeTest u e w = (Returned seconds, w')
    /\ events w' = events w ++
         [FetchedHead u;
          Enqueued (metrics_message (load_time_metrics seconds))]
    /\ (head_request_failed e u = true ->
          seconds = toFixed2 (fadd (fmul (random e (draws w)) 3) 1)
          /\ 100 <= hundredths seconds <= 400
          /\ draws w' = S (draws w))
    /\ (forall ms, fetch e u = Responded ms -> ms < 10000 ->
          seconds = toFixed2 (fdiv (inject_Z ms) 1000)
          /\ draws w' = draws w
          /\ now w' = now w + ms
          /\ (0 <= ms ->
                hundredths seconds = (ms + 5) / 10
                \/ hundredths seconds = (ms + 4) / 10)).
Proof.
  intros Hl Hr0 Hr1.
  destruct (head_request_failed e u) eqn:Hf.
  - destruct (simulateLoadTimeTest_fallback e w u Hl Hf) as [clock Hrun].
    do 2 eexists. split; [exact Hrun|]. cbn [events draws].
    split; [reflexivity|]. split.
    + intros _. split; [reflexivity|].
      split; [apply fallback_range; assumption | reflexivity].
    + intros ms Hresp Hms. unfold head_request_failed in Hf.
      rewrite Hresp in Hf. apply negb_true_iff, Z.ltb_ge in Hf. lia.
  - unfold head_request_failed in Hf.
    destruct (fetch e u) as [ms|ms] eqn:Hresp; [|discriminate Hf].
    apply negb_false_iff, Z.ltb_lt in Hf.
    do 2 eexists.
    split; [exact (simulateLoadTimeTest_measured e w u ms Hl Hresp Hf)|].
    cbn [events draws now]. split; [reflexivity|]. split.
    + discriminate.
    + intros ms' Hms' Hlt. assert (ms' = ms) by congruence. subst ms'.
      split; [reflexivity|]. split; [reflexivity|]. split; [reflexivity|].
      intro Hpos.
      pose proof (toFixed2_milliseconds ms (conj Hpos Hlt)) as Hb.
      assert (Hd : (ms + 5) / 10 = (ms + 4) / 10
                   \/ (ms + 5) / 10 = (ms + 4) / 10 + 1).
      { pose proof (Z.div_mod (ms + 5) 10).
        pose proof (Z.div_mod (ms + 4) 10).
        pose proof (Z.mod_pos_bound (ms + 5) 10).
        pose proof (Z.mod_pos_bound (ms + 4) 10). lia. }
      lia.
Qed.

(** The hypotheses of C7 hold for a public host that is down. *)
Lemma load_time_probe_returns_seconds_only_witness :
  exists (seconds : Fixed2) (w' : World),
    simulateLoadTimeTest "https://example.com" harsh_env (start_at 0) =
      (Returned seconds, w')
    /\ hundredths seconds = 400.
Proof.
  destruct (load_time_probe_returns_seconds_only
              harsh_env (start_at 0) "https://example.com")
    as [seconds [w' [Hrun _]]].
  - vm_compute. reflexivity.
  - vm_compute. discriminate.
  - vm_compute. reflexivity.
  - exists seconds, w'. split; [exact Hrun|].
    vm_compute in Hrun. inversion Hrun. reflexivity.
Defined.

End Stream.

Section RegExpFacts.
Import RegExp.

Lemma matches_Empty (s : string) : matches Empty s = false.
Proof. induction s as [|c s IH]; [reflexivity | exact IH]. Qed.

Lemma matches_Alt (a b : re) (s : string) :
  matches (Alt a b) s = matches a s || matches b s.
Proof.
  revert a b. induction s as [|c s IH]; intros a b; [reflexivity|].
  cbn [matches deriv]. apply IH.
Qed.

Lemma matches_Eps_inv (s : string) : matches Eps s = true -> s = EmptyString.
Proof.
  destruct s as [|c s]; [reflexivity|].
  cbn [matches deriv]. rewrite matches_Empty. discriminate.
Qed.

Lemma matches_Chr_inv (c : ascii) (s : string) :
  matches (Chr c) s = true -> s = String c EmptyString.
Proof.
  destruct s as [|a s]; [discriminate|].
  cbn [matches deriv].
  destruct (Ascii.eqb_spec a c) as [->|_].
  - intro H. apply matches_Eps_inv in H. subst s. reflexivity.
  - rewrite matches_Empty. discriminate.
Qed.

(** A match of a concatenation splits the string in two. *)
Lemma matches_Cat_inv (a b : re) (s : string) :
  matches (Cat a b) s = true ->
  exists s1 s2, s = (s1 ++ s2)%string
                /\ matches a s1 = true /\ matches b s2 = true.
Proof.
  revert a. induction s as [|c s IH]; intros a H.
  - cbn [matches nullable] in H. apply andb_true_iff in H.
    exists EmptyString, EmptyString. tauto.
  - cbn [matches deriv] in H.
    destruct (nullable a) eqn:Hn.
    + rewrite matches_Alt in H. apply orb_true_iff in H.
      destruct H as [H|H].
      * apply IH in H. destruct H as [s1 [s2 [-> [H1 H2]]]].
        exists (String c s1), s2. auto.
      * exists EmptyString, (String c s). auto.
    + apply IH in H. destruct H as [s1 [s2 [-> [H1 H2]]]].
      exists (String c s1), s2. auto.
Qed.

Lemma matches_lit_inv (p s : string) : matches (lit p) s = true -> s = p.
Proof.
  revert s. induction p as [|c p IH]; intros s H.
  - apply matches_Eps_inv. exact H.
  - cbn [lit] in H. apply matches_Cat_inv in H.
    destruct H as [s1 [s2 [-> [H1 H2]]]].
    apply matches_Chr_inv in H1. apply IH in H2. subst. reflexivity.
Qed.

(** A pattern that begins with a literal run only accepts strings that
    begin with it. *)
Lemma test_literal_prefix (p : string) (r : re) (anchored : bool) (s : string) :
  test {| body := Cat (lit p) r; anchored_end := anchored |} s = true ->
  exists rest, s = (p ++ rest)%string.
Proof.
  unfold test. cbn [body anchored_end]. destruct anchored; intro H.
  - apply matches_Cat_inv in H. destruct H as [s1 [s2 [-> [H1 _]]]].
    apply matches_lit_inv in H1. subst. eauto.
  - apply matches_Cat_inv in H. destruct H as [s12 [s3 [-> [H12 _]]]].
    apply matches_Cat_inv in H12. destruct H12 as [s1 [s2 [-> [H1 _]]]].
    apply matches_lit_inv in H1. subst s1.
    exists (s2 ++ s3)%string.
    clear. induction p as [|c p IH]; [reflexivity|].
    cbn [String.append]. f_equal. exact IH.
Qed.

(** Two matches side by side match the concatenation. *)
Lemma matches_Cat_intro (a b : re) (s1 s2 : string) :
  matches a s1 = true -> matches b s2 = true ->
  matches (Cat a b) (s1 ++ s2) = true.
Proof.
  revert a. induction s1 as [|c s1 IH]; intros a H1 H2.
  - cbn [String.append]. cbn [matches] in H1.
    destruct s2 as [|c s2].
    + cbn [matches nullable]. rewrite H1. exact H2.
    + cbn [matches deriv]. rewrite H1, matches_Alt.
      cbn [matches] in H2. rewrite H2. apply orb_true_r.
  - cbn [String.append matches deriv]. cbn [matches] in H1.
    destruct (nullable a).
    + rewrite matches_Alt, (IH _ H1 H2). reflexivity.
    + exact (IH _ H1 H2).
Qed.

Lemma matches_Eps_Cat (b : re) (s : string) :
  matches b s = true -> matches (Cat Eps b) s = true.
Proof. intro H. exact (matches_Cat_intro Eps b EmptyString s eq_refl H). Qed.

Lemma matches_lit (p : string) : matches (lit p) p = true.
Proof.
  induction p as [|c p IH]; [reflexivity|].
  cbn [lit matches deriv nullable]. rewrite Ascii.eqb_refl.
  apply matches_Eps_Cat. exact IH.
Qed.

(** [.*] matches everything. *)
Lemma matches_Star_Any (s : string) : matches (Star Any) s = true.
Proof.
  induction s as [|c s IH]; [reflexivity|].
  cbn [matches deriv]. apply matches_Eps_Cat. exact IH.
Qed.

(** A pattern without [$] accepts exactly the strings that begin with a
    match of its body. *)
Lemma test_unanchored (r : re) (s : string) :
  test {| body := r; anchored_end := false |} s = true <->
  exists h rest, matches r h = true /\ s = (h ++ rest)%string.
Proof.
  unfold test. cbn [anchored_end body]. split.
  - intro H. apply matches_Cat_inv in H.
    destruct H as [h [rest [-> [Hh _]]]]. eauto.
  - intros [h [rest [Hh ->]]].
    apply matches_Cat_intro; [exact Hh | apply matches_Star_Any].
Qed.

End RegExpFacts.

Section Urls.
Import JS RegExp Route Page UrlSpec StreamSpec.

Lemma prefix_append (p rest : string) : String.prefix p (p ++ rest) = true.
Proof.
  induction p as [|c p IH]; [destruct rest; reflexivity|].
  cbn [String.append String.prefix].
  destruct (ascii_dec c c) as [_|Hn]; [exact IH | contradiction].
Qed.

Lemma includes_prefix (needle hay : string) :
  String.prefix needle hay = true -> includes needle hay = true.
Proof. intro H. destruct hay; cbn [includes]; rewrite H; reflexivity. Qed.

Lemma includes_middle (needle pre post : string) :
  includes needle (pre ++ needle ++ post) = true.
Proof.
  induction pre as [|c pre IH].
  - cbn [String.append]. apply includes_prefix, prefix_append.
  - cbn [String.append includes]. rewrite IH. apply orb_true_r.
Qed.

(** A bare private host:port input begins with one of the four private
    markers. *)
Lemma private_host_port_prefix (s : string) :
  is_private_host_port s = true ->
  exists marker rest,
    In marker ["localhost:"; "127.0.0.1:"; "192.168."; "10."]%string
    /\ s = (marker ++ rest)%string.
Proof.
  unfold is_private_host_port, formatUrl_localhostPatterns.
  cbn [existsb]. rewrite !orb_true_iff.
  intros [H|[H|[H|[H|H]]]]; [| | | |discriminate H];
    apply test_literal_prefix in H; destruct H as [rest ->];
    eexists _, rest; (split; [|reflexivity]); cbn [In]; tauto.
Qed.

(** The probe takes a normalised private-host url for a local one. *)
Lemma isLocalhost_private (s : string) :
  is_private_host_port s = true -> isLocalhost ("http://" ++ s) = true.
Proof.
  intro H. apply private_host_port_prefix in H.
  destruct H as [marker [rest [Hin ->]]]. unfold isLocalhost.
  cbn [In] in Hin. rewrite !orb_true_iff.
  destruct Hin as [<-|[<-|[<-|[<-|[]]]]].
  - left; left; left.
    exact (includes_middle "localhost" "http://" (":" ++ rest)).
  - left; left; right.
    exact (includes_middle "127.0.0.1" "http://" (":" ++ rest)).
  - left; right.
    exact (includes_middle "192.168." "http://" rest).
  - right.
    exact (includes_middle "10." "http://" rest).
Qed.

Lemma private_host_port_bare (s : string) :
  is_private_host_port s = true ->
  String.eqb s EmptyString = false /\ has_http_prefix s = false.
Proof.
  intro H. apply private_host_port_prefix in H.
  destruct H as [marker [rest [Hin ->]]].
  cbn [In] in Hin.
  destruct Hin as [<-|[<-|[<-|[<-|[]]]]]; split; reflexivity.
Qed.

(** What the client does with [localhost:3000]: it validates the
    formatted url, which is posted when the host parser accepts it. *)
Lemma client_posts_formatted_localhost :
  runPerformanceTest lenient_authority "localhost:3000" =
  Some {| req_url := "http://localhost:3000";
          req_testConfig := getTestConfig |}.
Proof. reflexivity. Qed.

(** An input that fails validation once formatted is not posted. *)
Lemma client_gate (authority_parses : string -> string -> bool) (s : string) :
  isValidUrl authority_parses (formatUrl s) = false ->
  runPerformanceTest authority_parses s = None.
Proof. intro H. unfold runPerformanceTest. rewrite H. reflexivity. Qed.

End Urls.

Section LoadGenerator.
Import JS Tester TesterSpec.

(** The loop condition, on integers. *)
Lemma loop_condition (elapsed duration : Z) :
  Qltb (inject_Z elapsed / 1000) (inject_Z duration) =
  (elapsed <? duration * 1000).
Proof.
  unfold Qltb.
  destruct (Z.ltb_spec elapsed (duration * 1000)) as [Hlt|Hge].
  - apply negb_true_iff. apply not_true_is_false. intro H.
    apply Qle_bool_iff in H.
    unfold Qle, Qdiv, Qmult, Qinv, inject_Z in H. cbn in H. lia.
  - apply negb_false_iff. apply Qle_bool_iff.
    unfold Qle, Qdiv, Qmult, Qinv, inject_Z. cbn. lia.
Qed.

(** With enough fuel the loop ends, having recorded some number of whole
    batches: none when the duration is not positive, and otherwise at
    least one and, each batch being followed by a pause of one second,
    at most one per second of the duration. *)
Lemma batches_count (e : Env) (concurrent : nat) (duration : Z) :
  forall (fuel k : nat) (elapsed : N) (results : list Outcome),
    Z.max 0 (duration * 1000 - Z.of_N elapsed) + 1000 <= Z.of_nat fuel * 1000 ->
    exists n,
      batches fuel e concurrent duration k elapsed results =
        Some (results ++ flat_map (batch e concurrent) (seq k n))
      /\ (duration * 1000 <= Z.of_N elapsed -> n = 0%nat)
      /\ (Z.of_N elapsed < duration * 1000 ->
            (1 <= n)%nat
            /\ Z.of_N elapsed + (Z.of_nat n - 1) * 1000 < duration * 1000).
Proof.
  induction fuel as [|fuel IH]; intros k elapsed results Hfuel; [lia|].
  cbn [batches]. rewrite loop_condition.
  destruct (Z.ltb_spec (Z.of_N elapsed) (duration * 1000)) as [Hlt|Hge].
  - destruct (IH (S k) (elapsed + batch_ms e k + 1000)%N
                 (results ++ batch e concurrent k))
      as [n [Hn [Hstop Hgo]]]; [lia|].
    exists (S n). rewrite Hn. cbn [seq flat_map].
    rewrite <- app_assoc. split; [reflexivity|]. split; [lia|].
    intros _. split; [lia|].
    destruct (Z.le_gt_cases (duration * 1000)
                (Z.of_N (elapsed + batch_ms e k + 1000))) as [Hs|Hg].
    + rewrite (Hstop Hs). cbn. lia.
    + destruct (Hgo Hg) as [_ Hb]. lia.
  - exists O. cbn [seq flat_map]. rewrite app_nil_r.
    split; [reflexivity|]. split; [reflexivity|]. lia.
Qed.

Lemma batch_length (e : Env) (concurrent k : nat) :
  List.length (batch e concurrent k) = concurrent.
Proof. unfold batch. rewrite !length_map. apply length_seq. Qed.

Lemma recorded_batches_length (e : Env) (concurrent k n : nat) :
  List.length (flat_map (batch e concurrent) (seq k n)) = (n * concurrent)%nat.
Proof.
  revert k. induction n as [|n IH]; intro k; [reflexivity|].
  cbn [seq flat_map]. rewrite length_app, batch_length, IH. reflexivity.
Qed.

Lemma successful_failed_partition (results : list Outcome) :
  (List.length (successful results) + List.length (failed results))%nat =
  List.length results.
Proof.
  unfold successful, failed.
  induction results as [|r results IH]; [reflexivity|].
  cbn [filter]. destruct (truthy_string (error r)); cbn [negb List.length]; lia.
Qed.

Lemma numbers_In (t : Q) (l : list (option Q)) :
  In t (numbers l) <-> In (Some t) l.
Proof.
  induction l as [|[q|] l IH]; cbn [numbers In].
  - tauto.
  - rewrite IH. split; intros [H|H]; auto; left; congruence.
  - rewrite IH. split; [auto|]. intros [H|H]; [discriminate|exact H].
Qed.

Lemma loadTimes_In (t : Q) (results : list Outcome) :
  In t (loadTimes results) <->
  exists r, In r results /\ truthy_string (error r) = false
            /\ loadTime r = Some t /\ Qeq_bool t 0 = false.
Proof.
  unfold loadTimes, successful.
  rewrite numbers_In, filter_In, in_map_iff. cbn [truthy_number].
  rewrite negb_true_iff. split.
  - intros [[r [Hr Hin]] Ht]. apply filter_In in Hin.
    destruct Hin as [Hin Hok]. apply negb_true_iff in Hok. eauto.
  - intros [r [Hin [Hok [Hr Ht]]]]. split; [|exact Ht].
    exists r. split; [exact Hr|]. apply filter_In.
    split; [exact Hin|]. apply negb_true_iff. exact Hok.
Qed.

(** ** The summary against the outcomes *)

(** The truthiness test of the code is the presence of a message. *)
Lemma truthy_error (r : Outcome) : truthy_string (error r) = has_error r.
Proof. unfold has_error. destruct (error r) as [[|c msg]|]; reflexivity. Qed.

Lemma failed_has_error (results : list Outcome) :
  failed results = filter has_error results.
Proof.
  unfold failed. apply filter_ext. intro r. apply truthy_error.
Qed.

Lemma successful_no_error (results : list Outcome) :
  successful results = filter (fun r => negb (has_error r)) results.
Proof.
  unfold successful. apply filter_ext. intro r. rewrite truthy_error.
  reflexivity.
Qed.

(** The array the code averages holds the latencies of the successful
    outcomes, in order. *)
Lemma loadTimes_latencies (results : list Outcome) :
  loadTimes results = latencies results.
Proof.
  unfold loadTimes, successful.
  induction results as [|r results IH]; [reflexivity|].
  cbn [filter latencies]. unfold latency. rewrite truthy_error.
  destruct (has_error r); cbn [negb]; [exact IH|].
  cbn [map filter]. destruct (loadTime r) as [t|]; cbn [truthy_number].
  - destruct (Qeq_bool t 0); cbn [negb numbers]; rewrite IH; reflexivity.
  - exact IH.
Qed.


Lemma latencies_In (t : Q) (results : list Outcome) :
  In t (latencies results) <->
  exists r, In r results /\ has_error r = false
            /\ loadTime r = Some t /\ ~ (t == 0)%Q.
Proof.
  rewrite <- loadTimes_latencies, loadTimes_In. split.
  - intros [r [Hin [Hok [Hr Ht]]]]. exists r. rewrite <- truthy_error.
    repeat split; try assumption.
    intro E. apply Qeq_bool_iff in E. congruence.
  - intros [r [Hin [Hok [Hr Ht]]]]. exists r. rewrite truthy_error.
    repeat split; try assumption.
    destruct (Qeq_bool t 0) eqn:E; [|reflexivity].
    apply Qeq_bool_iff in E. contradiction.
Qed.

Lemma fold_Qmax_bounds (l : list Q) (a : Q) :
  (a <= fold_left Qmax l a)%Q
  /\ (forall y, In y l -> (y <= fold_left Qmax l a)%Q).
Proof.
  revert a. induction l as [|x l IH]; intro a; cbn [fold_left].
  - split; [apply Qle_refl | intros y []].
  - destruct (IH (Qmax a x)) as [Ha Hin]. split.
    + apply Qle_trans with (Qmax a x); [apply Q.le_max_l | exact Ha].
    + intros y [<-|Hy]; [|apply Hin, Hy].
      apply Qle_trans with (Qmax a x); [apply Q.le_max_r | exact Ha].
Qed.

Lemma Qmax_cases (a x : Q) : Qmax a x = a \/ Qmax a x = x.
Proof.
  unfold Qmax, GenericMinMax.gmax. destruct (Qcompare a x); auto.
Qed.

Lemma fold_Qmax_In (l : list Q) (a : Q) : In (fold_left Qmax l a) (a :: l).
Proof.
  revert a. induction l as [|x l IH]; intro a; cbn [fold_left].
  - left. reflexivity.
  - destruct (IH (Qmax a x)) as [E|Hin].
    + rewrite <- E. destruct (Qmax_cases a x) as [-> | ->].
      * left. reflexivity.
      * right. left. reflexivity.
    + right. right. exact Hin.
Qed.

(** The counts of a summary, outcome by outcome. *)
Lemma analyze_counts (results : list Outcome) :
  totalRequests (analyze results) = List.length results
  /\ failedRequests (analyze results) =
       List.length (filter has_error results)
  /\ successfulRequests (analyze results) =
       List.length (filter (fun r => negb (has_error r)) results).
Proof.
  unfold analyze. cbn [totalRequests failedRequests successfulRequests].
  rewrite failed_has_error, successful_no_error. auto.
Qed.

(** The average of a summary is the mean of the latencies of the
    successful outcomes. *)
Lemma analyze_average (results : list Outcome) :
  averageLoadTime (analyze results) = mean (latencies results).
Proof.
  unfold analyze. cbn [averageLoadTime]. rewrite loadTimes_latencies.
  destruct (latencies results) as [|x rest]; reflexivity.
Qed.

(** The maximum of a summary is one of the latencies of the successful
    outcomes and none of them exceeds it. *)
Lemma analyze_maximum (results : list Outcome) :
  match maxLoadTime (analyze results) with
  | Some M =>
      In M (latencies results)
      /\ forall t, In t (latencies results) -> (t <= M)%Q
  | None => latencies results = []
  end.
Proof.
  unfold analyze. cbn [maxLoadTime]. rewrite loadTimes_latencies.
  destruct (latencies results) as [|x rest]; [reflexivity|].
  cbn [List.length Nat.ltb Nat.leb reduce].
  destruct (fold_Qmax_bounds rest x) as [Hx Hrest].
  split; [apply fold_Qmax_In|].
  intros t [<-|Ht]; [exact Hx | apply Hrest, Ht].
Qed.

Lemma no_success_no_latency (results : list Outcome) :
  filter (fun r => negb (has_error r)) results = [] ->
  latencies results = [].
Proof.
  induction results as [|r results IH]; [reflexivity|].
  cbn [filter latencies]. unfold latency.
  destruct (has_error r); cbn [negb]; [exact IH | discriminate].
Qed.

(** C6: every run of the generator ends (given fuel beyond the
    duration), having recorded the outcomes of some number [n] of whole
    batches, one outcome per virtual user and batch.  The total it
    reports is the number of these outcomes; the failed requests are the
    outcomes that carry an error message, the successful ones the
    others, so failed requests never exceed the total; the average is
    the mean (in doubles) of the latencies of the successful outcomes
    and the maximum is the largest of them, every latency counted
    belonging to an outcome without error; and both are null when no
    outcome is successful. *)
Theorem runLoadTest_aggregates
  (fuel : nat) (e : Env) (u : string) (o : Options) :
  (Z.to_nat (duration_of o) < fuel)%nat ->
  exists (n : nat) (summary : LoadTestSummary),
    let results := flat_map (batch e (concurrent_of o)) (seq 0 n) in
    runLoadTest fuel e u o = Some summary
    /\ batches fuel e (concurrent_of o) (duration_of o) 0 0 [] = Some results
    /\ (0 < duration_of o -> 1 <= Z.of_nat n <= duration_of o)
    /\ (duration_of o <= 0 -> n = 0%nat)
    /\ totalRequests summary = List.length results
    /\ totalRequests summary = (n * concurrent_of o)%nat
    /\ failedRequests summary = List.length (filter has_error results)
    /\ successfulRequests summary =
         List.length (filter (fun r => negb (has_error r)) results)
    /\ (failedRequests summary <= totalRequests summary)%nat
    /\ averageLoadTime summary = mean (latencies results)
    /\ match maxLoadTime summary with
       | Some M =>
           In M (latencies results)
           /\ forall t, In t (latencies results) -> (t <= M)%Q
       | None => latencies results = []
       end
    /\ (forall t, In t (latencies results) <->
          exists r, In r results /\ has_error r = false
                    /\ loadTime r = Some t /\ ~ (t == 0)%Q)
    /\ (successfulRequests summary = 0%nat ->
          averageLoadTime summary = None /\ maxLoadTime summary = None).
Proof.
  intro Hfuel.
  destruct (batches_count e (concurrent_of o) (duration_of o)
              fuel 0 0 []) as [n [Hn [Hstop Hgo]]]; [cbn; lia|].
  exists n, (analyze (flat_map (batch e (concurrent_of o)) (seq 0 n))).
  cbv zeta. unfold runLoadTest. rewrite Hn. cbn [app option_map].
  set (results := flat_map (batch e (concurrent_of o)) (seq 0 n)).
  destruct (analyze_counts results) as [Ht [Hf Hs]].
  pose proof (analyze_maximum results) as Hmax.
  pose proof (analyze_average results) as Havg.
  split; [reflexivity|]. split; [reflexivity|].
  split; [intro Hpos; cbn in Hgo; destruct Hgo as [H1 Hb]; lia|].
  split; [intro Hneg; apply Hstop; cbn; lia|].
  split; [exact Ht|].
  split; [rewrite Ht; apply recorded_batches_length|].
  split; [exact Hf|]. split; [exact Hs|].
  split; [rewrite Hf, Ht; apply filter_length_le|].
  split; [exact Havg|]. split; [exact Hmax|].
  split; [intro t; apply latencies_In|].
  intro Hzero. rewrite Hs in Hzero. apply length_zero_iff_nil in Hzero.
  apply no_success_no_latency in Hzero.
  rewrite Havg. rewrite Hzero in *. cbn [mean]. split; [reflexivity|].
  destruct (maxLoadTime (analyze results)) as [M|]; [|reflexivity].
  destruct Hmax as [[] _].
Qed.

(** The fuel hypothesis of C6 holds on a sample run: three users, two
    seconds, one batch. *)
Lemma runLoadTest_aggregates_witness :
  exists (n : nat) (summary : LoadTestSummary),
    runLoadTest 3 mixed_env "https://example.com" three_users_two_seconds =
      Some summary
    /\ totalRequests summary = (n * 3)%nat
    /\ failedRequests summary =
         List.length
           (filter has_error (flat_map (batch mixed_env 3) (seq 0 n))).
Proof.
  destruct (runLoadTest_aggregates
              3 mixed_env "https://example.com" three_users_two_seconds)
    as [n [summary [Hrun [_ [_ [_ [_ [Htotal [Hfailed _]]]]]]]]].
  - vm_compute. lia.
  - exists n, summary.
    split; [exact Hrun|]. split; [exact Htotal | exact Hfailed].
Defined.

(** A response after a nanosecond or more has a load time that is not
    zero. *)
Lemma fdiv_elapsed_pos (elapsed : Q) :
  (1 # 1000000 <= elapsed)%Q -> (0 < fdiv elapsed 1000)%Q.
Proof.
  intro H. unfold fdiv.
  apply Qlt_le_trans with (double ((1 # 1000000) / 1000)).
  - vm_compute. reflexivity.
  - apply double_monotone. apply Qmult_le_compat_r; [exact H|].
    vm_compute. discriminate.
Qed.



(** Three latencies of 100 ms: the rounded sum divided by three lies
    above each of them, so the reported average exceeds the reported
    maximum. *)
Example average_may_exceed_maximum :
  exists avg M,
    averageLoadTime (analyze three_fast_outcomes) = Some avg
    /\ maxLoadTime (analyze three_fast_outcomes) = Some M
    /\ (M < avg)%Q.
Proof. do 2 eexists. split; [|split]; vm_compute; reflexivity. Qed.

End LoadGenerator.

(* ================================================================== *)
(** * Further properties of the route *)
(* ================================================================== *)

Section ScoringMore.
Import JS Route ScoringSpec RunSpec.

Lemma Qltb_spec (x y : Q) : reflect (x < y)%Q (Qltb x y).
Proof.
  unfold Qltb. destruct (Qle_bool y x) eqn:E; constructor.
  - apply Qle_bool_iff in E. lra.
  - assert (E' : Qle_bool y x <> true) by congruence.
    rewrite Qle_bool_iff in E'. lra.
Qed.

Lemma load_time_deduction_monotone (t t' : Q) :
  (t <= t')%Q -> load_time_deduction t <= load_time_deduction t'.
Proof.
  intro H. unfold load_time_deduction.
  destruct (Qltb_spec 3 t), (Qltb_spec 3 t'),
           (Qltb_spec 2 t), (Qltb_spec 2 t'),
           (Qltb_spec 1 t), (Qltb_spec 1 t'); try lia; lra.
Qed.

Lemma load_time_deduction_range (t : Q) : 0 <= load_time_deduction t <= 20.
Proof.
  unfold load_time_deduction.
  destruct (Qltb 3 t), (Qltb 2 t), (Qltb 1 t); lia.
Qed.

Lemma mobile_deduction_range (m : Z) : 0 <= mobile_deduction m <= 15.
Proof.
  unfold mobile_deduction. destruct (m <? 80), (m <? 90); lia.
Qed.

Lemma mobile_deduction_antitone (m m' : Z) :
  m' <= m -> mobile_deduction m <= mobile_deduction m'.
Proof.
  intro H. unfold mobile_deduction.
  destruct (Z.ltb_spec m 80), (Z.ltb_spec m' 80),
           (Z.ltb_spec m 90), (Z.ltb_spec m' 90); lia.
Qed.

(** X1: a bundle that is no better on any metric (load time no shorter,
    mobile score no higher, no fewer failed requests, no fewer broken
    links) never gets a higher score. *)
Theorem overallScore_monotone (now : Z) (u : string) (td td' : TestData) :
  no_better td td' ->
  overallScore (generateTestResults now u td')
    <= overallScore (generateTestResults now u td).
Proof.
  intros [Ht [Hm [Hf Hb]]].
  rewrite !overallScore_unfold, !Math_round_inject_Z.
  pose proof (load_time_deduction_monotone _ _ Ht).
  pose proof (mobile_deduction_antitone _ _ Hm).
  lia.
Qed.

Lemma overallScore_monotone_witness :
  overallScore (generateTestResults 0 "x" example_bundle)
    <= overallScore (generateTestResults 0 "x" slow_but_quiet_bundle).
Proof.
  apply (overallScore_monotone 0 "x" slow_but_quiet_bundle example_bundle).
  unfold no_better, parseFloat, Qle. cbn. lia.
Defined.

(** The issue thresholds lie inside the scoring brackets. *)
Lemma issue_threshold_inside_bracket (c : Category) (td : TestData) :
  fires c td = true -> violated c td = true.
Proof.
  destruct c; cbn [fires violated]; intro H; try exact H.
  - unfold load_time_deduction.
    destruct (Qltb_spec 2 (parseFloat (td_loadTime td))) as [H2|]; [|discriminate].
    destruct (Qltb_spec 3 (parseFloat (td_loadTime td))); reflexivity.
  - unfold mobile_deduction. apply Z.ltb_lt in H.
    destruct (Z.ltb_spec (td_mobileScore td) 80); [reflexivity|].
    destruct (Z.ltb_spec (td_mobileScore td) 90); [reflexivity|lia].
Qed.

(** X2: every issue generateTestResults reports comes with a loss of
    points: when no failed-request count is negative, a report that
    lists a load-time or broken-links issue scores at most 90, and one
    that lists a mobile or failed-requests issue at most 95. *)
Theorem reported_issue_costs_points
  (now : Z) (u : string) (td : TestData) (i : Issue) (c : Category) :
  0 <= lt_failedRequests (td_loadTestResults td) ->
  In i (issues (generateTestResults now u td)) ->
  category_of i = Some c ->
  overallScore (generateTestResults now u td) <= 100 - least_cost c.
Proof.
  intros Hf Hin Hc.
  destruct (issues_recommendations_unfold now u td) as [Hi _].
  rewrite Hi in Hin. apply in_map_iff in Hin.
  destruct Hin as [c' [<- Hin]]. apply filter_In in Hin.
  destruct Hin as [_ Hfires]. rewrite category_of_issue_of in Hc.
  inversion Hc; subst c'; clear Hc.
  rewrite overallScore_unfold, Math_round_inject_Z.
  pose proof (load_time_deduction_range (parseFloat (td_loadTime td))) as Hl.
  pose proof (mobile_deduction_range (td_mobileScore td)) as Hm.
  destruct c; cbn [fires least_cost] in *.
  - assert (10 <= load_time_deduction (parseFloat (td_loadTime td))).
    { unfold load_time_deduction. rewrite Hfires.
      destruct (Qltb 3 (parseFloat (td_loadTime td))); lia. }
    lia.
  - assert (5 <= mobile_deduction (td_mobileScore td)).
    { unfold mobile_deduction. apply Z.ltb_lt in Hfires.
      destruct (Z.ltb_spec (td_mobileScore td) 80); [lia|].
      destruct (Z.ltb_spec (td_mobileScore td) 90); lia. }
    lia.
  - apply negb_true_iff, Nat.eqb_neq in Hfires. lia.
  - apply Z.ltb_lt in Hfires. lia.
Qed.

Lemma reported_issue_costs_points_witness :
  overallScore (generateTestResults 0 "x" example_bundle) <= 90.
Proof.
  apply (reported_issue_costs_points 0 "x" example_bundle
           (issue_of LoadTimeCat example_bundle) LoadTimeCat).
  - cbn. lia.
  - left. reflexivity.
  - reflexivity.
Defined.

(** X3: when no failed-request count is negative, a perfect score comes
    with an empty issue list and an empty recommendation list. *)
Theorem perfect_score_has_no_issue (now : Z) (u : string) (td : TestData) :
  0 <= lt_failedRequests (td_loadTestResults td) ->
  overallScore (generateTestResults now u td) = 100 ->
  issues (generateTestResults now u td) = []
  /\ recommendations (generateTestResults now u td) = [].
Proof.
  intros Hf Hs.
  rewrite overallScore_unfold, Math_round_inject_Z in Hs.
  pose proof (load_time_deduction_range (parseFloat (td_loadTime td))) as Hl.
  pose proof (mobile_deduction_range (td_mobileScore td)) as Hm.
  assert (Hl0 : load_time_deduction (parseFloat (td_loadTime td)) = 0) by lia.
  assert (Hm0 : mobile_deduction (td_mobileScore td) = 0) by lia.
  assert (Hf0 : lt_failedRequests (td_loadTestResults td) = 0) by lia.
  assert (Hb0 : List.length (td_brokenLinks td) = 0%nat) by lia.
  assert (Hnone : forall c, fires c td = false).
  { intro c. destruct (fires c td) eqn:E; [|reflexivity].
    apply issue_threshold_inside_bracket in E.
    destruct c; cbn [violated] in E.
    - rewrite Hl0 in E. discriminate.
    - rewrite Hm0 in E. discriminate.
    - rewrite Hb0 in E. discriminate.
    - rewrite Hf0 in E. discriminate. }
  destruct (issues_recommendations_unfold now u td) as [Hi Hr].
  rewrite Hi, Hr. unfold categories. cbn [filter]. rewrite !Hnone.
  split; reflexivity.
Qed.

Lemma perfect_score_has_no_issue_witness :
  issues (generateTestResults 0 "x" perfect_bundle) = []
  /\ recommendations (generateTestResults 0 "x" perfect_bundle) = [].
Proof.
  apply (perfect_score_has_no_issue 0 "x" perfect_bundle).
  - cbn. lia.
  - reflexivity.
Defined.

End ScoringMore.

Section Stages.
Import JS Route StreamSpec RunSpec.

Ltac run_stage :=
  lazy beta iota zeta delta
    [simulateBrokenLinkCheck simulateMobileTest simulateLoadTest
     bind ret emit advance enqueue delay Math_random for_loop
     now draws events].

(** The mobile score [Math.floor(Math.random() * 30 + 70)], the product
    and the sum rounded to doubles. *)
Lemma mobile_score_range (r : Q) :
  (0 <= r)%Q -> (r < 1)%Q -> 70 <= Math_floor (fadd (fmul r 30) 70) <= 100.
Proof.
  intros H0 H1. unfold fadd, fmul, Math_floor.
  destruct double_integers as [E0 [_ [_ [_ [E30 [E70 E100]]]]]].
  assert (Ha0 : (double 0 <= double (r * 30))%Q)
    by (apply double_monotone; lra).
  assert (Ha1 : (double (r * 30) <= double 30)%Q)
    by (apply double_monotone; lra).
  set (a := double (r * 30)) in *.
  assert (Hlo : (double 70 <= double (a + 70))%Q)
    by (apply double_monotone; lra).
  assert (Hhi : (double (a + 70) <= double 100)%Q)
    by (apply double_monotone; lra).
  assert (70 <= Qfloor (double (a + 70)) < 101); [|lia].
  apply Qfloor_range.
  - change (inject_Z 70) with 70%Q. lra.
  - change (inject_Z 101) with 101%Q. lra.
Qed.

(** X4: the mobile stage sleeps four times 400 ms, enqueues four
    metrics-only messages counting 12, 14, 16, 18 requests, draws one
    random value and returns an integer score between 70 and 100.  The
    score 100 is returned for the largest random values: the sum
    [Math.random() * 30 + 70] is rounded to a double, and rounds up to
    100. *)
Theorem simulateMobileTest_range (e : Env) (w : World) (u : string) :
  (0 <= random e (draws w))%Q -> (random e (draws w) < 1)%Q ->
  exists (score : Z) (w' : World),
    simulateMobileTest u e w = (Returned score, w')
    /\ score = Math_floor (fadd (fmul (random e (draws w)) 30) 70)
    /\ 70 <= score <= 100
    /\ events w' = events w ++
         [Slept 400; tick 12; Slept 400; tick 14;
          Slept 400; tick 16; Slept 400; tick 18]
    /\ now w' = now w + 1600
    /\ draws w' = S (draws w).
Proof.
  intros H0 H1. destruct w as [clock drawn evs]. cbn [draws] in H0, H1.
  run_stage. do 2 eexists. split; [reflexivity|].
  cbn [events now draws]. split; [reflexivity|].
  split; [|split; [|split; [lia|reflexivity]]].
  - apply mobile_score_range; assumption.
  - rewrite <- !app_assoc. reflexivity.
Qed.

Lemma simulateMobileTest_range_witness :
  exists (score : Z) (w' : World),
    simulateMobileTest "https://example.com" top_env (start_at 0) =
      (Returned score, w')
    /\ score = 100.
Proof.
  destruct (simulateMobileTest_range top_env (start_at 0)
              "https://example.com") as [score [w' [Hrun [Hscore _]]]].
  - vm_compute. discriminate.
  - vm_compute. reflexivity.
  - exists score, w'. split; [exact Hrun|].
    rewrite Hscore. vm_compute. reflexivity.
Defined.







(** The link and load-test stages are modelled on exact products of
    the random values.  For every double below 1 the doubles the code
    computes stay in the same ranges: at most two links, at most four
    failed requests, an average between 0.50 and 2.50 and a maximum
    between 2.00 and 7.00. *)
Lemma stage_ranges_in_doubles (r : Q) :
  (0 <= r)%Q -> (r <= below_one)%Q ->
  0 <= Math_floor (fmul r 3) <= 2
  /\ 0 <= Math_floor (fmul r 5) <= 4
  /\ 50 <= hundredths (toFixed2 (fadd (fmul r 2) (double (1 # 2)))) <= 250
  /\ 200 <= hundredths (toFixed2 (fadd (fmul r 5) 2)) <= 700.
Proof.
  intros H0 H1. unfold fadd, fmul, Math_floor.
  destruct double_integers as [E0 _].
  assert (F : forall k : Q, (0 <= k)%Q ->
            (double 0 <= double (r * k))%Q
            /\ (double (r * k) <= double (below_one * k))%Q).
  { intros k Hk. split; apply double_monotone.
    - apply Qmult_le_0_compat; assumption.
    - apply Qmult_le_compat_r; assumption. }
  destruct (F 3%Q ltac:(lra)) as [L3 U3].
  destruct (F 5%Q ltac:(lra)) as [L5 U5].
  destruct (F 2%Q ltac:(lra)) as [L2 U2].
  split; [|split; [|split]].
  - assert (0 <= Qfloor (double (r * 3)) < 3); [|lia].
    apply Qfloor_range.
    + change (inject_Z 0) with 0%Q. lra.
    + apply Qle_lt_trans with (double (below_one * 3)); [exact U3|].
      vm_compute. reflexivity.
  - assert (0 <= Qfloor (double (r * 5)) < 5); [|lia].
    apply Qfloor_range.
    + change (inject_Z 0) with 0%Q. lra.
    + apply Qle_lt_trans with (double (below_one * 5)); [exact U5|].
      vm_compute. reflexivity.
  - set (a := double (r * 2)) in *. set (c := double (1 # 2)).
    set (top := double (below_one * 2)) in *.
    apply (toFixed2_between _ (double (0 + c)) (double (top + c)));
      [vm_compute; discriminate
      |apply double_monotone; lra | apply double_monotone; lra
      |vm_compute; reflexivity | vm_compute; reflexivity].
  - set (a := double (r * 5)) in *.
    set (top := double (below_one * 5)) in *.
    apply (toFixed2_between _ (double (0 + 2)) (double (top + 2)));
      [vm_compute; discriminate
      |apply double_monotone; lra | apply double_monotone; lra
      |vm_compute; reflexivity | vm_compute; reflexivity].
Qed.

End Stages.

Section Pipeline.
Import JS Route ScoringSpec StreamSpec RunSpec.

Ltac exec_route :=
  lazy beta iota zeta delta
    [stream runPerformanceTest simulateLoadTimeTest simulateBrokenLinkCheck
     simulateMobileTest simulateLoadTest get_concurrent
     try_finally try_catch bind ret throw emit advance enqueue close delay
     Date_now Math_random fetch_HEAD for_loop start_at messages_of
     progress_message metrics_message results_message error_message
     progress error results events now draws snd fst flat_map map app
     final_report final_message last removelast rev
     existsb orb negb is_terminal has_results is_closed closes_once_at_end
     progress_values].

Ltac split_env :=
  match goal with
  | |- context [if isLocalhost ?u then _ else _] =>
      destruct (isLocalhost u) eqn:?
  | |- context [match fetch ?e ?u with Responded _ => _ | Rejected _ => _ end] =>
      destruct (fetch e u) eqn:?
  | |- context [if ?a <? ?b then _ else _] => destruct (a <? b) eqn:?
  | |- context [if Qltb ?a ?b then _ else _] => destruct (Qltb a b) eqn:?
  end.

Ltac exec_all := exec_route; repeat (split_env; exec_route).

(** X7: without a configuration the run fails fast: the stream carries
    the progress values 0, 20, 40, 60, 80, then one error message as its
    last message, and no message carries a report. *)
Theorem run_without_config_fails_fast (e : Env) (t : Z) (u : string) :
  progress_values (stream e t u None) = [0; 20; 40; 60; 80]
  /\ final_message (stream e t u None) =
       error_message "Test failed"
         "Cannot read properties of undefined (reading 'concurrent')"
  /\ existsb is_terminal (removelast (stream e t u None)) = false
  /\ existsb has_results (stream e t u None) = false.
Proof. repeat split; exec_all; reflexivity. Qed.

(** X8: whatever the environment and the configuration, a run whose
    consumer keeps reading closes the stream exactly once, as its last
    action, after having enqueued exactly one terminal message (a
    report or an error), which is the last message of the stream. *)
Theorem run_always_closes_after_one_terminal_message
  (e : Env) (t : Z) (u : string) (cfg : option TestConfig) :
  closes_once_at_end
    (events (snd (runPerformanceTest u cfg e (start_at t)))) = true
  /\ is_terminal (final_message (stream e t u cfg)) = true
  /\ existsb is_terminal (removelast (stream e t u cfg)) = false
  /\ (has_results (final_message (stream e t u cfg)) = true <->
        exists c, cfg = Some c).
Proof.
  destruct cfg as [c|].
  - split; [exec_all; reflexivity|]. split; [exec_all; reflexivity|].
    split; [exec_all; reflexivity|].
    split; [eauto|]. intros _. exec_all; reflexivity.
  - split; [exec_all; reflexivity|]. split; [exec_all; reflexivity|].
    split; [exec_all; reflexivity|].
    split; [|intros [c H]; discriminate H].
    exec_all; discriminate.
Qed.

(** The fields a report copies from its arguments. *)
Lemma report_echo (now : Z) (u : string) (td : TestData) :
  let r := generateTestResults now u td in
  url r = u /\ timestamp r = now /\ loadTime r = td_loadTime td
  /\ mobileScore r = td_mobileScore td
  /\ brokenLinks r = td_brokenLinks td
  /\ totalRequests r = lt_totalRequests (td_loadTestResults td)
  /\ failedRequests r = lt_failedRequests (td_loadTestResults td).
Proof.
  cbv zeta. rewrite (generateTestResults_clock now).
  unfold with_timestamp.
  cbn [url timestamp loadTime mobileScore brokenLinks totalRequests
       failedRequests].
  unfold generateTestResults.
  destruct (Qltb 2 (parseFloat (td_loadTime td)));
  destruct (td_mobileScore td <? 85);
  destruct (0 <? Z.of_nat (List.length (td_brokenLinks td)));
  destruct (0 <? lt_failedRequests (td_loadTestResults td));
  cbn [url timestamp loadTime mobileScore brokenLinks totalRequests
       failedRequests]; auto 10.
Qed.







End Pipeline.

(* ================================================================== *)
(** * Further properties of the page's url functions *)
(* ================================================================== *)

Section UrlsMore.
Import JS RegExp Route Page UrlSpec InputShapes.

Lemma has_http_prefix_http (s : string) :
  has_http_prefix ("http://" ++ s) = true.
Proof.
  unfold has_http_prefix, startsWith.
  rewrite (prefix_append "http://" s). reflexivity.
Qed.

Lemma has_http_prefix_https (s : string) :
  has_http_prefix ("https://" ++ s) = true.
Proof.
  unfold has_http_prefix, startsWith.
  rewrite (prefix_append "https://" s). apply orb_true_r.
Qed.

Lemma formatUrl_of_prefixed (s : string) :
  has_http_prefix s = true -> formatUrl s = s.
Proof.
  intro Hp. unfold formatUrl. fold (has_http_prefix s). rewrite Hp.
  destruct (String.eqb_spec s EmptyString) as [->|_]; reflexivity.
Qed.

Lemma formatUrl_cases (s : string) :
  (s = EmptyString /\ formatUrl s = EmptyString)
  \/ (s <> EmptyString /\ has_http_prefix s = true /\ formatUrl s = s)
  \/ (s <> EmptyString /\ formatUrl s = ("http://" ++ s)%string)
  \/ (s <> EmptyString /\ formatUrl s = ("https://" ++ s)%string).
Proof.
  unfold formatUrl. fold (has_http_prefix s).
  destruct (String.eqb_spec s EmptyString) as [->|Hne]; [auto|].
  destruct (has_http_prefix s); [auto|].
  destruct (existsb _ formatUrl_localhostPatterns); auto.
Qed.

Lemma formatUrl_has_prefix (s : string) :
  s <> EmptyString -> has_http_prefix (formatUrl s) = true.
Proof.
  intro Hne.
  destruct (formatUrl_cases s)
    as [[-> E]|[[_ [Hp E]]|[[_ E]|[_ E]]]]; rewrite E.
  - contradiction.
  - exact Hp.
  - apply has_http_prefix_http.
  - apply has_http_prefix_https.
Qed.

(** X10: formatUrl is idempotent, every non-empty input comes out
    starting with http:// or https://, and only the empty input comes
    out empty. *)
Theorem formatUrl_idempotent (s : string) :
  formatUrl (formatUrl s) = formatUrl s
  /\ (s <> EmptyString -> has_http_prefix (formatUrl s) = true)
  /\ (formatUrl s = EmptyString <-> s = EmptyString).
Proof.
  destruct (formatUrl_cases s)
    as [[-> E]|[[Hne [Hp E]]|[[Hne E]|[Hne E]]]]; rewrite E.
  - repeat split; try reflexivity. intro H. congruence.
  - split; [exact E|]. split; [intros _; exact Hp|]. tauto.
  - split; [apply formatUrl_of_prefixed, has_http_prefix_http|].
    split; [intros _; apply has_http_prefix_http|].
    split; [discriminate | contradiction].
  - split; [apply formatUrl_of_prefixed, has_http_prefix_https|].
    split; [intros _; apply has_http_prefix_https|].
    split; [discriminate | contradiction].
Qed.

(** ** Inputs that begin with a digit *)

Lemma digit_code (c : ascii) :
  is_digit c = true -> (48 <= nat_of_ascii c <= 57)%nat.
Proof.
  unfold is_digit. cbv zeta. intro H. apply andb_true_iff in H.
  destruct H as [H1 H2]. apply Nat.leb_le in H1, H2. lia.
Qed.

Lemma digit_not_space (c : ascii) :
  is_digit c = true -> is_c0_control_or_space c = false.
Proof.
  intro H. apply digit_code in H. unfold is_c0_control_or_space.
  apply Nat.leb_gt. lia.
Qed.

Lemma not_space_not_newline (c : ascii) :
  is_c0_control_or_space c = false -> is_tab_or_newline c = false.
Proof.
  unfold is_c0_control_or_space, is_tab_or_newline. cbv zeta.
  intro H. apply Nat.leb_gt in H.
  rewrite !orb_false_iff, !Nat.eqb_neq. lia.
Qed.

Lemma digit_not_alpha (c : ascii) : is_digit c = true -> is_alpha c = false.
Proof.
  intro H. apply digit_code in H. unfold is_alpha, is_upper, is_lower.
  cbv zeta. rewrite orb_false_iff, !andb_false_iff, !Nat.leb_gt. lia.
Qed.

Lemma drop_leading_snoc (l : list ascii) (c : ascii) :
  is_c0_control_or_space c = false ->
  exists l', drop_leading (l ++ [c]) = l' ++ [c].
Proof.
  intro Hc. induction l as [|a l IH].
  - exists []. cbn [app drop_leading]. rewrite Hc. reflexivity.
  - cbn [app drop_leading]. destruct (is_c0_control_or_space a).
    + exact IH.
    + exists (a :: l). reflexivity.
Qed.

(** Preprocessing keeps a first character that is not a space or a
    control. *)
Lemma preprocess_head (c : ascii) (rest : string) :
  is_c0_control_or_space c = false ->
  exists rest', preprocess (String c rest) = String c rest'.
Proof.
  intro Hc. unfold preprocess. cbn [list_ascii_of_string drop_leading].
  rewrite Hc. cbn [rev].
  destruct (drop_leading_snoc (rev (list_ascii_of_string rest)) c Hc)
    as [l' ->].
  rewrite rev_app_distr. cbn [rev app filter].
  rewrite (not_space_not_newline c Hc). cbn [negb string_of_list_ascii].
  eauto.
Qed.

(** An input that begins with a digit has no scheme. *)
Lemma new_URL_digit_led
  (authority_parses : string -> string -> bool) (s : string) :
  starts_with_digit s = true -> new_URL authority_parses s = None.
Proof.
  intro Hd. destruct s as [|c rest]; [discriminate|]. cbn in Hd.
  destruct (preprocess_head c rest (digit_not_space c Hd)) as [rest' Hp].
  unfold new_URL. rewrite Hp. cbn [scheme_start_state].
  rewrite (digit_not_alpha c Hd). reflexivity.
Qed.

(** X11: an input that begins with a digit never parses as a URL (a
    scheme must begin with a letter), so isValidUrl accepts it exactly
    when it matches, whole, one of the private host:port patterns. *)
Theorem isValidUrl_digit_led
  (authority_parses : string -> string -> bool) (s : string) :
  starts_with_digit s = true ->
  new_URL authority_parses s = None
  /\ isValidUrl authority_parses s = matches_private_pattern s.
Proof.
  intro Hd. pose proof (new_URL_digit_led authority_parses s Hd) as Hnone.
  split; [exact Hnone|]. unfold isValidUrl. rewrite Hnone. reflexivity.
Qed.

Lemma isValidUrl_digit_led_witness :
  isValidUrl lenient_authority "192.168.1.100:3000" = true
  /\ isValidUrl lenient_authority "8.8.8.8:53" = false.
Proof.
  split.
  - rewrite (proj2 (isValidUrl_digit_led lenient_authority
                      "192.168.1.100:3000" eq_refl)).
    reflexivity.
  - rewrite (proj2 (isValidUrl_digit_led lenient_authority
                      "8.8.8.8:53" eq_refl)).
    reflexivity.
Defined.

(** X12: what the client posts: never anything for the empty input, and
    otherwise only the formatted url, which starts with http:// or
    https:// and passed isValidUrl, together with the fixed
    configuration of ten concurrent users. *)
Theorem client_posts_only_valid_formatted_urls
  (authority_parses : string -> string -> bool) (s : string) (req : Request) :
  runPerformanceTest authority_parses s = Some req ->
  s <> EmptyString
  /\ req_url req = formatUrl s
  /\ has_http_prefix (req_url req) = true
  /\ isValidUrl authority_parses (req_url req) = true
  /\ cfg_concurrent (req_testConfig req) = 10.
Proof.
  unfold runPerformanceTest. cbv zeta.
  destruct (isValidUrl authority_parses (formatUrl s)) eqn:Hv;
    cbn [negb]; [|discriminate].
  intro H. inversion H; subst req; clear H. cbn [req_url req_testConfig].
  assert (Hne : s <> EmptyString).
  { intros ->. cbn in Hv. discriminate Hv. }
  split; [exact Hne|]. split; [reflexivity|].
  split; [apply formatUrl_has_prefix, Hne|].
  split; [exact Hv | reflexivity].
Qed.

Lemma client_posts_only_valid_formatted_urls_witness :
  has_http_prefix "http://localhost:3000" = true.
Proof.
  apply (client_posts_only_valid_formatted_urls lenient_authority
           "localhost:3000"
           {| req_url := "http://localhost:3000";
              req_testConfig := getTestConfig |}).
  reflexivity.
Defined.

(** ** Inputs of the form localhost:port *)

Lemma matches_Digit_inv (s : string) :
  matches Digit s = true ->
  exists c, s = String c EmptyString /\ is_digit c = true.
Proof.
  destruct s as [|c s]; [discriminate|]. cbn [matches deriv].
  destruct (is_digit c) eqn:Hc.
  - intro H. apply matches_Eps_inv in H. subst s. eauto.
  - rewrite matches_Empty. discriminate.
Qed.

Lemma matches_Star_Digit (s : string) :
  matches (Star Digit) s = true -> all_digits s = true.
Proof.
  induction s as [|c s IH]; [reflexivity|].
  cbn [matches deriv all_digits]. intro H.
  apply matches_Cat_inv in H. destruct H as [s1 [s2 [E [H1 H2]]]].
  destruct (is_digit c).
  - apply matches_Eps_inv in H1. subst s1. cbn [String.append] in E.
    subst s2. apply IH in H2. rewrite H2. reflexivity.
  - rewrite matches_Empty in H1. discriminate.
Qed.

Lemma localhost_port_shape (s : string) :
  test localhost_port_pattern s = true ->
  exists d ds, s = ("localhost:" ++ String d ds)%string
               /\ is_digit d = true /\ all_digits ds = true.
Proof.
  unfold test, localhost_port_pattern, re_localhost, digits, plus.
  cbn [anchored_end body]. intro H.
  apply matches_Cat_inv in H. destruct H as [s1 [s2 [-> [H1 H2]]]].
  apply matches_lit_inv in H1. subst s1.
  apply matches_Cat_inv in H2. destruct H2 as [t1 [t2 [-> [H2 H3]]]].
  apply matches_Digit_inv in H2. destruct H2 as [d [-> Hd]].
  apply matches_Star_Digit in H3. exists d, t2. auto.
Qed.

Lemma printable_digits (s : string) :
  all_digits s = true -> printable (list_ascii_of_string s) = true.
Proof.
  unfold printable. induction s as [|c s IH]; [reflexivity|].
  cbn [all_digits list_ascii_of_string forallb]. intro H.
  apply andb_true_iff in H. destruct H as [Hc Hs].
  rewrite (digit_not_space c Hc), (IH Hs). reflexivity.
Qed.

Lemma printable_rev (l : list ascii) :
  printable l = true -> printable (rev l) = true.
Proof.
  unfold printable. rewrite !forallb_forall. intros H c Hin.
  apply H. apply in_rev. exact Hin.
Qed.

Lemma drop_leading_printable (l : list ascii) :
  printable l = true -> drop_leading l = l.
Proof.
  destruct l as [|c l]; [reflexivity|].
  unfold printable. cbn [forallb drop_leading]. intro H.
  apply andb_true_iff in H. destruct H as [Hc _].
  apply negb_true_iff in Hc. rewrite Hc. reflexivity.
Qed.

Lemma filter_newlines_printable (l : list ascii) :
  printable l = true ->
  filter (fun c => negb (is_tab_or_newline c)) l = l.
Proof.
  unfold printable. induction l as [|c l IH]; [reflexivity|].
  cbn [forallb filter]. intro H.
  apply andb_true_iff in H. destruct H as [Hc Hl].
  apply negb_true_iff in Hc.
  rewrite (not_space_not_newline c Hc), (IH Hl). reflexivity.
Qed.

(** Preprocessing leaves an input without spaces and controls as it
    is. *)
Lemma preprocess_printable (s : string) :
  printable (list_ascii_of_string s) = true -> preprocess s = s.
Proof.
  intro H. unfold preprocess.
  rewrite (drop_leading_printable _ H).
  rewrite (drop_leading_printable _ (printable_rev _ H)).
  rewrite rev_involutive, (filter_newlines_printable _ H).
  apply string_of_list_ascii_of_string.
Qed.

(** [localhost:] followed by digits parses as a URL of scheme
    [localhost] with an opaque path. *)
Lemma new_URL_bare_localhost
  (authority_parses : string -> string -> bool) (d : ascii) (ds : string) :
  is_digit d = true -> all_digits ds = true ->
  new_URL authority_parses ("localhost:" ++ String d ds) =
  Some {| protocol := "localhost:" |}.
Proof.
  intros Hd Hds.
  assert (Hp : preprocess ("localhost:" ++ String d ds) =
               ("localhost:" ++ String d ds)%string).
  { apply preprocess_printable. unfold printable.
    cbn [String.append list_ascii_of_string forallb].
    rewrite (digit_not_space d Hd).
    fold (printable (list_ascii_of_string ds)).
    rewrite (printable_digits ds Hds). reflexivity. }
  assert (Hslash : startsWith "//" (String d ds) = false).
  { unfold startsWith. cbn [String.prefix].
    destruct (ascii_dec "/" d) as [<-|_]; [discriminate Hd | reflexivity]. }
  unfold new_URL. rewrite Hp.
  change (scheme_start_state ("localhost:" ++ String d ds))
    with (Some ("localhost"%string, String d ds)).
  cbv beta iota. rewrite Hslash. reflexivity.
Qed.

(** X13: every input of the form localhost:port, that is every input the
    first pattern of isValidUrl is written for, parses as a URL of
    scheme [localhost] and is therefore rejected by isValidUrl; the
    pattern can never decide. *)
Theorem isValidUrl_rejects_every_bare_localhost
  (authority_parses : string -> string -> bool) (s : string) :
  test localhost_port_pattern s = true ->
  new_URL authority_parses s = Some {| protocol := "localhost:" |}
  /\ isValidUrl authority_parses s = false.
Proof.
  intro H. apply localhost_port_shape in H.
  destruct H as [d [ds [-> [Hd Hds]]]].
  pose proof (new_URL_bare_localhost authority_parses d ds Hd Hds) as Hnew.
  split; [exact Hnew|]. unfold isValidUrl. rewrite Hnew. reflexivity.
Qed.

Lemma isValidUrl_rejects_every_bare_localhost_witness :
  isValidUrl lenient_authority "localhost:8080" = false.
Proof.
  apply (isValidUrl_rejects_every_bare_localhost
           lenient_authority "localhost:8080").
  reflexivity.
Defined.

End UrlsMore.

(* ================================================================== *)
(** * The url forms, the validator and the normaliser *)
(* ================================================================== *)

Section UrlForms.
Import JS RegExp Route Page UrlSpec InputShapes UrlShapes StreamSpec.

Lemma matches_Cat_iff (a b : re) (s : string) :
  matches (Cat a b) s = true <->
  exists s1 s2, s = (s1 ++ s2)%string
                /\ matches a s1 = true /\ matches b s2 = true.
Proof.
  split; [apply matches_Cat_inv|].
  intros [s1 [s2 [-> [H1 H2]]]]. apply matches_Cat_intro; assumption.
Qed.

Lemma matches_Star_Digit_intro (s : string) :
  all_digits s = true -> matches (Star Digit) s = true.
Proof.
  induction s as [|c s IH]; [reflexivity|].
  cbn [all_digits matches deriv]. intro H.
  apply andb_true_iff in H. destruct H as [Hc Hs]. rewrite Hc.
  apply matches_Eps_Cat, IH, Hs.
Qed.

(** [\d+] matches exactly the non-empty runs of digits. *)
Lemma matches_digits (p : string) :
  matches digits p = true <-> digit_run p.
Proof.
  unfold digits, plus, digit_run. rewrite matches_Cat_iff. split.
  - intros [s1 [s2 [-> [H1 H2]]]].
    apply matches_Digit_inv in H1. destruct H1 as [c [-> Hc]].
    apply matches_Star_Digit in H2. cbn [String.append all_digits].
    rewrite Hc, H2. split; [discriminate | reflexivity].
  - intros [Hne Hd]. destruct p as [|c p]; [contradiction|].
    cbn [all_digits] in Hd. apply andb_true_iff in Hd.
    destruct Hd as [Hc Hp].
    exists (String c EmptyString), p. split; [reflexivity|]. split.
    + cbn [matches deriv nullable]. rewrite Hc. reflexivity.
    + apply matches_Star_Digit_intro, Hp.
Qed.

Lemma matches_lit_Cat (l : string) (r : re) (s : string) :
  matches (Cat (lit l) r) s = true <->
  exists t, s = (l ++ t)%string /\ matches r t = true.
Proof.
  rewrite matches_Cat_iff. split.
  - intros [s1 [s2 [-> [H1 H2]]]]. apply matches_lit_inv in H1. subst s1.
    eauto.
  - intros [t [-> Ht]]. exists l, t.
    split; [reflexivity|]. split; [apply matches_lit | exact Ht].
Qed.

Lemma matches_Chr_Cat (c : ascii) (r : re) (s : string) :
  matches (Cat (Chr c) r) s = true <->
  exists t, s = String c t /\ matches r t = true.
Proof.
  rewrite matches_Cat_iff. split.
  - intros [s1 [s2 [-> [H1 H2]]]]. apply matches_Chr_inv in H1. subst s1.
    exists s2. split; [reflexivity | exact H2].
  - intros [t [-> Ht]]. exists (String c EmptyString), t.
    split; [reflexivity|]. split; [|exact Ht].
    cbn [matches deriv nullable]. rewrite Ascii.eqb_refl. reflexivity.
Qed.

Lemma matches_digits_Cat (r : re) (s : string) :
  matches (Cat digits r) s = true <->
  exists a t, digit_run a /\ s = (a ++ t)%string /\ matches r t = true.
Proof.
  rewrite matches_Cat_iff. split.
  - intros [s1 [s2 [-> [H1 H2]]]]. apply matches_digits in H1. eauto.
  - intros [a [t [Ha [-> Ht]]]]. exists a, t.
    split; [reflexivity|]. split; [apply matches_digits, Ha | exact Ht].
Qed.

(** What each pattern of the source matches. *)
Lemma matches_re_localhost (s : string) :
  matches re_localhost s = true <->
  exists p, digit_run p /\ s = ("localhost:" ++ p)%string.
Proof.
  unfold re_localhost. rewrite matches_lit_Cat. split.
  - intros [t [-> Ht]]. apply matches_digits in Ht. eauto.
  - intros [p [Hp ->]]. exists p. split; [reflexivity|].
    apply matches_digits, Hp.
Qed.

Lemma matches_re_loopback (s : string) :
  matches re_loopback s = true <->
  exists p, digit_run p /\ s = ("127.0.0.1:" ++ p)%string.
Proof.
  unfold re_loopback. rewrite matches_lit_Cat. split.
  - intros [t [-> Ht]]. apply matches_digits in Ht. eauto.
  - intros [p [Hp ->]]. exists p. split; [reflexivity|].
    apply matches_digits, Hp.
Qed.

Lemma matches_re_192_168 (s : string) :
  matches re_192_168 s = true <->
  exists a b p, digit_run a /\ digit_run b /\ digit_run p
    /\ s = ("192.168." ++ a ++ "." ++ b ++ ":" ++ p)%string.
Proof.
  unfold re_192_168, dot, colon. rewrite matches_lit_Cat. split.
  - intros [t [-> Ht]].
    apply matches_digits_Cat in Ht. destruct Ht as [a [t1 [Ha [-> Ht]]]].
    apply matches_Chr_Cat in Ht. destruct Ht as [t2 [-> Ht]].
    apply matches_digits_Cat in Ht. destruct Ht as [b [t3 [Hb [-> Ht]]]].
    apply matches_Chr_Cat in Ht. destruct Ht as [p [-> Hp]].
    apply matches_digits in Hp. exists a, b, p. auto.
  - intros [a [b [p [Ha [Hb [Hp ->]]]]]]. eexists. split; [reflexivity|].
    apply matches_digits_Cat. exists a. eexists.
    split; [exact Ha|]. split; [reflexivity|].
    apply matches_Chr_Cat. eexists. split; [reflexivity|].
    apply matches_digits_Cat. exists b. eexists.
    split; [exact Hb|]. split; [reflexivity|].
    apply matches_Chr_Cat. eexists. split; [reflexivity|].
    apply matches_digits, Hp.
Qed.

Lemma matches_re_10 (s : string) :
  matches re_10 s = true <->
  exists a b c p, digit_run a /\ digit_run b /\ digit_run c /\ digit_run p
    /\ s = ("10." ++ a ++ "." ++ b ++ "." ++ c ++ ":" ++ p)%string.
Proof.
  unfold re_10, dot, colon. rewrite matches_lit_Cat. split.
  - intros [t [-> Ht]].
    apply matches_digits_Cat in Ht. destruct Ht as [a [t1 [Ha [-> Ht]]]].
    apply matches_Chr_Cat in Ht. destruct Ht as [t2 [-> Ht]].
    apply matches_digits_Cat in Ht. destruct Ht as [b [t3 [Hb [-> Ht]]]].
    apply matches_Chr_Cat in Ht. destruct Ht as [t4 [-> Ht]].
    apply matches_digits_Cat in Ht. destruct Ht as [c [t5 [Hc [-> Ht]]]].
    apply matches_Chr_Cat in Ht. destruct Ht as [p [-> Hp]].
    apply matches_digits in Hp. exists a, b, c, p. auto.
  - intros [a [b [c [p [Ha [Hb [Hc [Hp ->]]]]]]]].
    eexists. split; [reflexivity|].
    apply matches_digits_Cat. exists a. eexists.
    split; [exact Ha|]. split; [reflexivity|].
    apply matches_Chr_Cat. eexists. split; [reflexivity|].
    apply matches_digits_Cat. exists b. eexists.
    split; [exact Hb|]. split; [reflexivity|].
    apply matches_Chr_Cat. eexists. split; [reflexivity|].
    apply matches_digits_Cat. exists c. eexists.
    split; [exact Hc|]. split; [reflexivity|].
    apply matches_Chr_Cat. eexists. split; [reflexivity|].
    apply matches_digits, Hp.
Qed.

(** The four pattern bodies of the source match exactly the four private
    host:port forms. *)
Lemma pattern_bodies_private (h : string) :
  matches re_localhost h || matches re_loopback h
  || matches re_192_168 h || matches re_10 h = true
  <-> private_host_port h.
Proof.
  rewrite !orb_true_iff, matches_re_localhost, matches_re_loopback,
    matches_re_192_168, matches_re_10.
  split.
  - intros [[[[p [Hp ->]]|[p [Hp ->]]]|[a [b [p [Ha [Hb [Hp ->]]]]]]]
           |[a [b [c [p [Ha [Hb [Hc [Hp ->]]]]]]]]].
    + apply localhost_port, Hp.
    + apply numeric_port, loopback_port, Hp.
    + apply numeric_port, net_192_168_port; assumption.
    + apply numeric_port, net_10_port; assumption.
  - intros [p Hp|s' [p Hp|a b p Ha Hb Hp|a b c p Ha Hb Hc Hp]].
    + left; left; left. eauto.
    + left; left; right. eauto.
    + left; right. exists a, b, p. auto.
    + right. exists a, b, c, p. auto.
Qed.


(** The unanchored patterns of [formatUrl]. *)
Lemma is_private_host_port_iff (s : string) :
  is_private_host_port s = true <-> begins_with_private_host_port s.
Proof.
  unfold is_private_host_port, formatUrl_localhostPatterns,
    begins_with_private_host_port.
  cbn [existsb]. rewrite orb_false_r, !orb_true_iff, !test_unanchored.
  split.
  - intros [H|[H|[H|H]]]; destruct H as [h [rest [Hh ->]]];
      exists h, rest; (split; [|reflexivity]);
      apply pattern_bodies_private; rewrite Hh;
      rewrite ?orb_true_r; reflexivity.
  - intros [h [rest [Hh ->]]]. apply pattern_bodies_private in Hh.
    rewrite !orb_true_iff in Hh.
    destruct Hh as [[[Hh|Hh]|Hh]|Hh];
      [left | right; left | right; right; left | right; right; right];
      exists h, rest; (split; [exact Hh | reflexivity]).
Qed.

Lemma prefix_inv (p s : string) :
  String.prefix p s = true -> exists rest, s = (p ++ rest)%string.
Proof.
  revert s. induction p as [|c p IH]; intros s H.
  - exists s. reflexivity.
  - destruct s as [|c' s]; [discriminate H|].
    cbn [String.prefix] in H.
    destruct (ascii_dec c c') as [<-|_]; [|discriminate H].
    destruct (IH s H) as [rest ->]. exists rest. reflexivity.
Qed.

Lemma has_http_prefix_iff (s : string) :
  has_http_prefix s = true <-> begins_with_http s.
Proof.
  unfold has_http_prefix, startsWith, begins_with_http.
  rewrite orb_true_iff. split.
  - intros [H|H]; apply prefix_inv in H; destruct H as [rest ->]; eauto.
  - intros [rest [->| ->]]; [left|right]; apply prefix_append.
Qed.




(** A random value one eighth makes the local probe print 0.42: the sum
    0.125 + 0.3 is the double just below 0.425. *)
Example local_probe_one_eighth :
  toFixed2 (fadd (fmul (1 # 8) 1) (double (3 # 10))) = mkFixed2 42.
Proof. vm_compute. reflexivity. Qed.

(** C9, as the claim words it, fails twice: the empty input is returned
    empty, not prefixed; and on the normalised [localhost:3000] a random
    value of 0.999 makes the probe return 1.30, outside [0.3, 1.3). *)
Lemma formatUrl_probe_edge_cases :
  formatUrl EmptyString = EmptyString
  /\ fst (simulateLoadTimeTest (formatUrl "localhost:3000") harsh_env
            (start_at 0)) = Returned (mkFixed2 130)
  /\ ~ (parseFloat (mkFixed2 130) < 13 # 10)%Q.
Proof.
  split; [reflexivity|]. split; [vm_compute; reflexivity|].
  unfold parseFloat, Qlt. cbn. lia.
Qed.

(** C9, amended: formatUrl leaves an input that starts with http:// or
    https:// unchanged, prefixes http:// to a bare input that begins
    with one of the four private host:port forms (so localhost:3000
    becomes http://localhost:3000) and https:// to every other non-empty
    bare input; on the normalised private-host url the probe takes the
    local branch: it sleeps half a second, draws one random value,
    enqueues one metrics message, sends no HEAD request, and returns
    [Math.random() * 1 + 0.3] computed in doubles and printed with two
    decimals, hence between 0.30 and 1.30 inclusive. *)
Theorem formatUrl_normalises_and_probe_stays_local
  (s : string) (e : Env) (w : World) :
  (0 <= random e (draws w))%Q -> (random e (draws w) < 1)%Q ->
  (begins_with_http s -> formatUrl s = s)
  /\ (begins_with_private_host_port s ->
        formatUrl s = ("http://" ++ s)%string
        /\ isLocalhost (formatUrl s) = true
        /\ exists (seconds : Fixed2) (w' : World),
             simulateLoadTimeTest (formatUrl s) e w = (Returned seconds, w')
             /\ events w' = events w ++
                  [Slept 500;
                   Enqueued (metrics_message (load_time_metrics seconds))]
             /\ now w' = now w + 500
             /\ draws w' = S (draws w)
             /\ seconds =
                  toFixed2 (fadd (fmul (random e (draws w)) 1)
                                 (double (3 # 10)))
             /\ 30 <= hundredths seconds <= 130)
  /\ (~ begins_with_http s -> ~ begins_with_private_host_port s ->
      s <> EmptyString -> formatUrl s = ("https://" ++ s)%string)
  /\ formatUrl "localhost:3000" = "http://localhost:3000"%string.
Proof.
  intros Hr0 Hr1. split; [|split; [|split; [|reflexivity]]].
  - intro Hp. apply has_http_prefix_iff in Hp.
    apply formatUrl_of_prefixed, Hp.
  - intro Hpriv. apply is_private_host_port_iff in Hpriv.
    destruct (private_host_port_bare s Hpriv) as [Hne Hbare].
    assert (Hf : formatUrl s = ("http://" ++ s)%string).
    { unfold formatUrl. fold (has_http_prefix s).
      fold (is_private_host_port s). rewrite Hne, Hbare, Hpriv. reflexivity. }
    assert (Hl : isLocalhost (formatUrl s) = true).
    { rewrite Hf. apply isLocalhost_private, Hpriv. }
    split; [exact Hf|]. split; [exact Hl|].
    do 2 eexists. split; [apply simulateLoadTimeTest_local, Hl|].
    cbn [events now draws]. split; [reflexivity|]. split; [reflexivity|].
    split; [reflexivity|]. split; [reflexivity|].
    apply local_probe_range; assumption.
  - intros Hbare Hpub Hne.
    assert (Hb : has_http_prefix s = false).
    { destruct (has_http_prefix s) eqn:E; [|reflexivity].
      apply has_http_prefix_iff in E. contradiction. }
    assert (Hp : is_private_host_port s = false).
    { destruct (is_private_host_port s) eqn:E; [|reflexivity].
      apply is_private_host_port_iff in E. contradiction. }
    unfold formatUrl. fold (has_http_prefix s).
    fold (is_private_host_port s). rewrite Hb, Hp.
    destruct (String.eqb_spec s EmptyString) as [->|_];
      [contradiction | reflexivity].
Qed.

(** The hypotheses of C9 hold for [localhost:3000] and random values
    close to 1. *)
Lemma formatUrl_normalises_and_probe_stays_local_witness :
  formatUrl "localhost:3000" = "http://localhost:3000"%string
  /\ isLocalhost (formatUrl "localhost:3000") = true.
Proof.
  destruct (formatUrl_normalises_and_probe_stays_local
              "localhost:3000" harsh_env (start_at 0))
    as [_ [Hpriv _]].
  - vm_compute. discriminate.
  - vm_compute. reflexivity.
  - destruct Hpriv as [Hf [Hl _]].
    + exists "localhost:3000"%string, EmptyString.
      split; [|reflexivity].
      apply (localhost_port "3000"). split; [discriminate | reflexivity].
    + split; [exact Hf | exact Hl].
Defined.

End UrlForms.

(* ================================================================== *)
(** * Properties of the page: reading the stream, suggestions *)
(* ================================================================== *)

Section Client.
Import JS Route StreamSpec RunSpec UrlSpec PageClient ViewSpec.

Lemma handle_line_history (st : State) (line : Line) :
  (List.length (st_testHistory st) <= 10)%nat ->
  (List.length (st_testHistory (handle_line st line)) <= 10)%nat.
Proof.
  intro H. destruct line as [data|]; [|exact H].
  unfold handle_line.
  destruct (progress data), (truthy_string (status data)),
           (metrics data), (results data);
    cbn [st_testHistory List.length]; try exact H;
    rewrite length_firstn; lia.
Qed.

Lemma fold_handle_line_history (lines : list Line) (st : State) :
  (List.length (st_testHistory st) <= 10)%nat ->
  (List.length (st_testHistory (fold_left handle_line lines st)) <= 10)%nat.
Proof.
  revert st. induction lines as [|line lines IH]; intros st H; [exact H|].
  cbn [fold_left]. apply IH. apply handle_line_history. exact H.
Qed.

(** X14: whatever the server sends (or fails to send), a run leaves the
    page not running and at 100 percent, and a history of at most ten
    reports stays at most ten reports long. *)
Theorem receive_keeps_history_bounded (st : State) (response : Response) :
  (List.length (st_testHistory st) <= 10)%nat ->
  (List.length (st_testHistory (receive st response)) <= 10)%nat
  /\ st_progress (receive st response) = 100
  /\ st_isRunning (receive st response) = false.
Proof.
  intro H. unfold receive.
  cbn [st_testHistory st_progress st_isRunning].
  split; [|split; reflexivity].
  destruct response; cbn [st_testHistory]; try exact H.
  apply fold_handle_line_history. exact H.
Qed.

Lemma receive_keeps_history_bounded_witness :
  (List.length
     (st_testHistory
        (receive full_history
           (route_server calm_env 0
              {| Page.req_url := "https://example.com";
                 Page.req_testConfig := Page.getTestConfig |}))) <= 10)%nat.
Proof.
  apply (receive_keeps_history_bounded full_history).
  cbn. lia.
Defined.

Ltac exec_route :=
  lazy beta iota zeta delta
    [stream Route.runPerformanceTest simulateLoadTimeTest
     simulateBrokenLinkCheck
     simulateMobileTest simulateLoadTest get_concurrent
     try_finally try_catch bind ret throw emit advance enqueue close delay
     Date_now Math_random fetch_HEAD for_loop start_at messages_of
     progress_message metrics_message results_message error_message
     events now draws snd fst flat_map app
     final_report final_message last].

Ltac split_env :=
  match goal with
  | |- context [if isLocalhost ?u then _ else _] =>
      destruct (isLocalhost u) eqn:?
  | |- context [match fetch ?e ?u with Responded _ => _ | Rejected _ => _ end] =>
      destruct (fetch e u) eqn:?
  | |- context [if ?a <? ?b then _ else _] => destruct (a <? b) eqn:?
  | |- context [if Qltb ?a ?b then _ else _] => destruct (Qltb a b) eqn:?
  end.

Ltac exec_all := exec_route; repeat (split_env; exec_route).

(** X15: the page never shows a failure the route reports: after a run
    that ended in an error message the page holds no report, its
    history is unchanged, and it stands at 100 percent with the status
    of the last stage that started. *)
Theorem failed_run_is_not_shown (e : Env) (t : Z) (u : string) (st : State) :
  let st' := receive st (Body (map Some (stream e t u None))) in
  st_testResults st' = None
  /\ st_testHistory st' = st_testHistory st
  /\ st_currentTest st' = Some "Running concurrent user simulation..."%string
  /\ st_progress st' = 100.
Proof. cbv zeta. repeat split; exec_all; reflexivity. Qed.

(** What the page shows after reading the stream of a run that had a
    configuration. *)
Lemma receive_stream
  (e : Env) (t : Z) (u : string) (c : TestConfig) (st : State) :
  exists report,
    final_report (stream e t u (Some c)) = Some report
    /\ url report = u
    /\ st_testResults (receive st (Body (map Some (stream e t u (Some c)))))
       = Some report
    /\ st_testHistory (receive st (Body (map Some (stream e t u (Some c)))))
       = report :: firstn 9 (st_testHistory st)
    /\ st_currentTest (receive st (Body (map Some (stream e t u (Some c)))))
       = Some "Test completed!"%string.
Proof.
  exec_all;
    (eexists; split; [reflexivity|]);
    (split; [apply report_echo|]); repeat split; reflexivity.
Qed.

(** X16: client and route together: when the gate lets an input
    through, the page ends up showing the report of the last message of
    the route's stream, a report for the formatted url; that report
    becomes the head of the history, before the nine most recent earlier
    ones; the status reads "Test completed!", at 100 percent. *)
Theorem client_shows_the_final_report
  (authority_parses : string -> string -> bool)
  (e : Env) (t : Z) (input : string) (st : State) :
  isValidUrl_gate authority_parses input = true ->
  let st' :=
    PageClient.runPerformanceTest authority_parses (route_server e t)
                                  input st in
  exists report,
    final_report (stream e t (Page.formatUrl input) (Some Page.getTestConfig))
      = Some report
    /\ url report = Page.formatUrl input
    /\ st_testResults st' = Some report
    /\ st_testHistory st' = report :: firstn 9 (st_testHistory st)
    /\ st_currentTest st' = Some "Test completed!"%string
    /\ st_progress st' = 100
    /\ st_isRunning st' = false.
Proof.
  unfold isValidUrl_gate. intro Hgate. cbv zeta.
  unfold PageClient.runPerformanceTest, Page.runPerformanceTest.
  rewrite Hgate. cbn [negb]. unfold route_server.
  cbn [Page.req_url Page.req_testConfig].
  destruct (receive_stream e t (Page.formatUrl input) Page.getTestConfig st)
    as [report [Hf [Hu [Hr [Hh Hc]]]]].
  exists report. repeat split; assumption.
Qed.

Lemma client_shows_the_final_report_witness :
  exists report,
    st_testResults
      (PageClient.runPerformanceTest lenient_authority
         (route_server calm_env 0) "localhost:3000" initial) = Some report
    /\ url report = "http://localhost:3000"%string.
Proof.
  destruct (client_shows_the_final_report lenient_authority calm_env 0
              "localhost:3000" initial) as [report [_ [Hu [Hr _]]]].
  - reflexivity.
  - exists report. split; [exact Hr | exact Hu].
Defined.

End Client.

Section Suggestions.
Import JS Route ScoringSpec ResultsView ViewSpec.

Lemma or_zero_id (z : Z) : or_zero z = z.
Proof. unfold or_zero. destruct (Z.eqb_spec z 0); congruence. Qed.

Lemma Qltb_parse_or_zero (c : Q) (s : Fixed2) :
  Qltb c (parse_or_zero s) = Qltb c (parseFloat s).
Proof.
  unfold parse_or_zero.
  destruct (Qeq_bool (parseFloat s) 0) eqn:E; [|reflexivity].
  apply Qeq_bool_iff in E. unfold Qltb. rewrite E. reflexivity.
Qed.

Ltac split_suggestions :=
  repeat match goal with
         | |- context [if Qltb ?a ?b then _ else _] =>
             destruct (Qltb_spec a b)
         | |- context [if ?a <? ?b then _ else _] =>
             destruct (Z.ltb_spec a b)
         end.

(** X17: the results view always shows between one and four
    suggestions; the general low-priority suggestion is shown exactly
    when nothing else is (load time at most 1.5 s, mobile score at least
    90, at most 50 requests, no failed request), and then alone. *)
Theorem suggestions_never_empty (r : Report) :
  let l := generatePerformanceSuggestions r in
  (1 <= List.length l <= 4)%nat
  /\ (quiet r = true ->
        exists g, l = [g] /\ category g = "General"%string
                  /\ priority g = Low)
  /\ (quiet r = false -> has_category "General" l = false).
Proof.
  cbv zeta. unfold generatePerformanceSuggestions, quiet. cbv zeta.
  repeat match goal with
         | |- context [mkSuggestion ?c ?p ?i ?f] =>
             set (mkSuggestion c p i f)
         end.
  rewrite !or_zero_id.
  set (t := parse_or_zero (loadTime r)).
  assert (H3 : Qltb 3 t = Qltb 3 (parseFloat (loadTime r)))
    by apply Qltb_parse_or_zero.
  assert (H15 : Qltb (15 # 10) t = Qltb (15 # 10) (parseFloat (loadTime r)))
    by apply Qltb_parse_or_zero.
  destruct (Qltb_spec 3 t) as [Ha|Ha];
    [|destruct (Qltb_spec (15 # 10) t) as [Hb|Hb]];
    (destruct (Z.ltb_spec (mobileScore r) 70);
       [|destruct (Z.ltb_spec (mobileScore r) 90)]);
    (destruct (Z.ltb_spec 100 (totalRequests r));
       [|destruct (Z.ltb_spec 50 (totalRequests r))]);
    destruct (Z.ltb_spec 0 (failedRequests r));
    cbn [app List.length Nat.eqb];
    (split; [lia|]);
    rewrite <- ?H15;
    repeat match goal with
           | |- context [Qltb ?a ?b] => destruct (Qltb_spec a b)
           | |- context [?a <? ?b] => destruct (Z.ltb_spec a b)
           end;
    try lia; try lra;
    cbn [negb andb];
    (split; [intro Hq; try discriminate Hq; eexists; repeat split
            |intro Hq; try discriminate Hq; reflexivity]).
Qed.

(** X18: the suggestions cover the issues of a report: whenever
    generateTestResults reports a load-time issue, a mobile issue or a
    failed-requests issue, the results view shows a suggestion of the
    category Load Time, Mobile Score or Requests respectively. *)
Theorem suggestions_cover_issues (now : Z) (u : string) (td : TestData) :
  let l := generatePerformanceSuggestions (generateTestResults now u td) in
  (fires LoadTimeCat td = true -> has_category "Load Time" l = true)
  /\ (fires MobileCat td = true -> has_category "Mobile Score" l = true)
  /\ (fires FailedRequestsCat td = true -> has_category "Requests" l = true).
Proof.
  cbv zeta. unfold generatePerformanceSuggestions. cbv zeta.
  destruct (report_echo now u td) as [_ [_ [El [Em [_ [Et Ef]]]]]].
  rewrite El, Em, Et, Ef. clear El Em Et Ef.
  repeat match goal with
         | |- context [mkSuggestion ?c ?p ?i ?f] =>
             set (mkSuggestion c p i f)
         end.
  rewrite !or_zero_id. cbn [fires].
  set (t := parse_or_zero (td_loadTime td)).
  assert (H2 : Qltb 2 t = Qltb 2 (parseFloat (td_loadTime td)))
    by apply Qltb_parse_or_zero.
  rewrite <- H2. clear H2.
  destruct (Qltb_spec 3 t) as [Ha|Ha];
    [|destruct (Qltb_spec (15 # 10) t) as [Hb|Hb]];
    (destruct (Z.ltb_spec (td_mobileScore td) 70);
       [|destruct (Z.ltb_spec (td_mobileScore td) 90)]);
    (destruct (Z.ltb_spec 100 (lt_totalRequests (td_loadTestResults td)));
       [|destruct (Z.ltb_spec 50 (lt_totalRequests (td_loadTestResults td)))]);
    destruct (Z.ltb_spec 0 (lt_failedRequests (td_loadTestResults td)));
    cbn [app List.length Nat.eqb];
    repeat split; intro Hfire; try reflexivity; exfalso;
    try discriminate Hfire;
    try (apply Z.ltb_lt in Hfire; lia);
    try (destruct (Qltb_spec 2 t); [lra | discriminate Hfire]).
Qed.

End Suggestions.

(* ================================================================== *)
(** * Properties of the Puppeteer tester *)
(* ================================================================== *)

Section TesterScore.
Import JS Comprehensive ComprehensiveSpec.

(** X19: the page function of checkAccessibility reports at most four
    issues, and reports none exactly when every image has an alt text,
    every input a label, the title is present and there is exactly one
    h1; in calculateOverallScore these issues cost at most 30 points: a
    test that ran the accessibility check alone scores between 70 and
    100. *)
Theorem accessibilityIssues_bounded (d : Document) :
  (List.length (accessibilityIssues d) <= 4)%nat
  /\ (accessibilityIssues d = [] <-> clean d)
  /\ (exists z,
        calculateOverallScore (accessibility_only d) =
          Some (Fin (inject_Z z))
        /\ 70 <= z <= 100)
  /\ (clean d ->
        calculateOverallScore (accessibility_only d) = Some (Fin 100)).
Proof.
  destruct d as [img inp title h1].
  unfold calculateOverallScore, accessibility_only, checkAccessibility,
    accessibilityIssues, count_severity, clean.
  cbn [imagesWithoutAlt unlabeledInputs titleMissing h1Count
       desktop mobile accessibility loadTest].
  destruct (Nat.ltb_spec 0 img), (Nat.ltb_spec 0 inp), title,
           (Nat.eqb_spec h1 0), (Nat.ltb_spec 1 h1);
    cbn [app filter severity List.length];
    (split; [lia|]);
    (split; [split; [intro E; try discriminate E; repeat split; lia
                    |intros [E1 [E2 [E3 E4]]]; try discriminate E3;
                     try reflexivity; lia]|]);
    (split; [eexists; split; [reflexivity | vm_compute; split; discriminate]
            |intros [E1 [E2 [E3 E4]]]; try discriminate E3;
             try reflexivity; lia]).
Qed.

Lemma clamp_round_range (score : Number) :
  score <> NaN ->
  exists z, clamp_round score = Fin (inject_Z z) /\ 0 <= z <= 100.
Proof.
  destruct score as [q| | |]; intro H; cbn [clamp_round].
  - eexists. split; [reflexivity|]. lia.
  - contradiction.
  - exists 100. split; [reflexivity|]. lia.
  - exists 0. split; [reflexivity|]. lia.
Qed.

(** X20: calculateOverallScore returns an integer between 0 and 100 for
    every results object, except that it throws when the desktop
    measurement failed with an empty error message. *)
Theorem calculateOverallScore_range (r : Results) :
  if desktop_failed_silently r
  then calculateOverallScore r = None
  else exists z, calculateOverallScore r = Some (Fin (inject_Z z))
                 /\ 0 <= z <= 100.
Proof.
  unfold desktop_failed_silently, calculateOverallScore.
  destruct (desktop r) as [[t v|msg]|].
  - cbn [error_of truthy_string negb]. cbv zeta.
    match goal with
    | |- exists z, Some (clamp_round ?s) = _ /\ _ =>
        destruct (clamp_round_range s) as [z [E Hz]]
    end.
    + destruct (loadTest r) as [lt|]; [|discriminate].
      destruct (Tester.successRate lt) as [q| | |]; try discriminate.
      destruct (Qltb q 95); discriminate.
    + exists z. rewrite E. auto.
  - cbn [error_of truthy_string].
    destruct (String.eqb_spec msg EmptyString) as [->|Hne].
    + reflexivity.
    + cbn [negb]. cbv zeta.
      match goal with
      | |- exists z, Some (clamp_round ?s) = _ /\ _ =>
          destruct (clamp_round_range s) as [z [E Hz]]
      end.
      * destruct (loadTest r) as [lt|]; [|discriminate].
        destruct (Tester.successRate lt) as [q| | |]; try discriminate.
        destruct (Qltb q 95); discriminate.
      * exists z. rewrite E. auto.
  - cbv zeta.
    match goal with
    | |- exists z, Some (clamp_round ?s) = _ /\ _ =>
        destruct (clamp_round_range s) as [z [E Hz]]
    end.
    + destruct (loadTest r) as [lt|]; [|discriminate].
      destruct (Tester.successRate lt) as [q| | |]; try discriminate.
      destruct (Qltb q 95); discriminate.
    + exists z. rewrite E. auto.
Qed.

(** X21: two results that never cost points: a mobile measurement when
    there is no desktop measurement to compare it with, and a load test
    whose success rate is not a number because it issued no request. *)
Theorem calculateOverallScore_ignores (r : Results) :
  (desktop r = None ->
     calculateOverallScore r = calculateOverallScore (without_mobile r))
  /\ (forall lt, loadTest r = Some lt -> Tester.successRate lt = NaN ->
        calculateOverallScore r = calculateOverallScore (without_loadTest r)).
Proof.
  split.
  - intro Hd. unfold calculateOverallScore, without_mobile.
    cbn [desktop mobile accessibility loadTest]. rewrite Hd.
    destruct (mobile r) as [[t v|msg]|]; try reflexivity.
    cbn [error_of truthy_string].
    destruct (String.eqb msg EmptyString); reflexivity.
  - intros lt Hlt Hnan. unfold calculateOverallScore, without_loadTest.
    cbn [desktop mobile accessibility loadTest]. rewrite Hlt, Hnan.
    reflexivity.
Qed.

End TesterScore.

Section LoadGeneratorMore.
Import JS Tester TesterSpec.

(** X22: the generator runs at least one batch and at most [duration]
    batches when the duration is positive, so it never issues more than
    [concurrent * duration] requests; with a duration of zero or less it
    issues none, and reports zero requests, a success rate that is not a
    number, no latency and no error. *)
Theorem runLoadTest_request_budget
  (fuel : nat) (e : Env) (u : string) (o : Options) :
  (Z.to_nat (duration_of o) < fuel)%nat ->
  exists (n : nat) (summary : LoadTestSummary),
    runLoadTest fuel e u o = Some summary
    /\ totalRequests summary = (n * concurrent_of o)%nat
    /\ (0 < duration_of o -> 1 <= Z.of_nat n <= duration_of o)
    /\ (duration_of o <= 0 ->
          n = 0%nat
          /\ totalRequests summary = 0%nat
          /\ successRate summary = NaN
          /\ averageLoadTime summary = None
          /\ minLoadTime summary = None
          /\ maxLoadTime summary = None
          /\ errors summary = []).
Proof.
  intro Hfuel.
  destruct (batches_count e (concurrent_of o) (duration_of o)
              fuel 0 0 []) as [n [Hn [Hstop Hgo]]]; [cbn; lia|].
  exists n, (analyze (flat_map (batch e (concurrent_of o)) (seq 0 n))).
  unfold runLoadTest. rewrite Hn. cbn [app option_map].
  split; [reflexivity|].
  split; [cbn [analyze totalRequests]; apply recorded_batches_length|].
  split.
  - intro Hpos. cbn in Hgo. destruct Hgo as [H1 Hb]; lia.
  - intro Hneg. cbn in Hstop. rewrite Hstop by lia.
    repeat split.
Qed.

Lemma runLoadTest_request_budget_witness :
  exists (n : nat) (summary : LoadTestSummary),
    runLoadTest 3 mixed_env "https://example.com" three_users_two_seconds =
      Some summary
    /\ 1 <= Z.of_nat n <= 2.
Proof.
  destruct (runLoadTest_request_budget
              3 mixed_env "https://example.com" three_users_two_seconds)
    as [n [summary [Hrun [_ [Hpos _]]]]].
  - vm_compute. lia.
  - exists n, summary. split; [exact Hrun|]. apply Hpos. cbn. lia.
Defined.

(** X23: as soon as one outcome is recorded the success rate is a
    number between 0 and 100. *)
Theorem successRate_range (results : list Outcome) :
  results <> [] ->
  exists q, successRate (analyze results) = Fin q
            /\ (0 <= q)%Q /\ (q <= 100)%Q.
Proof.
  intro Hne. unfold analyze. cbn [successRate].
  pose proof (successful_failed_partition results) as Hpart.
  assert (Hpos : (0 < List.length results)%nat).
  { destruct results; [contradiction | cbn; lia]. }
  set (ok := Z.of_nat (List.length (successful results))).
  set (all := Z.of_nat (List.length results)).
  assert (Hok : 0 <= ok <= all) by lia.
  assert (Hall : 0 < all) by lia.
  clearbody ok all. unfold div.
  destruct all as [|p|p]; try lia.
  replace (Qeq_bool (inject_Z (Z.pos p)) 0) with false by reflexivity.
  cbn [mul_pos]. eexists. split; [reflexivity|].
  unfold Qle, Qdiv, Qmult, Qinv, inject_Z. cbn. split; nia.
Qed.

Lemma successRate_range_witness :
  exists q,
    successRate (analyze [recorded (singleUserLoadTest (answered 1200 404))])
      = Fin q
    /\ (q <= 100)%Q.
Proof.
  destruct (successRate_range
              [recorded (singleUserLoadTest (answered 1200 404))])
    as [q [E [_ H100]]].
  - discriminate.
  - exists q. split; [exact E | exact H100].
Defined.

(** X24: what one navigation leaves in the results: it carries a load
    time exactly when it carries no error field, and its [success] flag
    is true exactly when the browser opened and closed without error and
    the navigation got a response with a status below 400. *)
Theorem recorded_outcome_shape (nav : Navigation) :
  let r := recorded (singleUserLoadTest nav) in
  (error r = None <-> exists t, loadTime r = Some t)
  /\ (success r = Some true <->
        setup_error nav = None /\ cleanup_error nav = None
        /\ exists elapsed status,
             goto nav = Response elapsed status /\ status < 400).
Proof.
  destruct nav as [[setup|] [elapsed status|msg] [cleanup|]];
    cbv zeta; unfold singleUserLoadTest, recorded;
    cbn [setup_error goto cleanup_error error loadTime success];
    (split; split);
    try (intro H; discriminate H);
    try (intros [t H]; discriminate H);
    try (intros [H _]; discriminate H);
    try (intros [_ [H _]]; discriminate H);
    try (intros [_ [_ [a [b [H _]]]]]; discriminate H);
    eauto.
  - intro H. inversion H as [Hs]. apply Z.ltb_lt in Hs. eauto 8.
  - intros [_ [_ [a [b [H Hlt]]]]]. inversion H; subst.
    f_equal. apply Z.ltb_lt. exact Hlt.
Qed.

(** X25: the [errors] of a summary are exactly the error fields of the
    failed outcomes: as many as [failedRequests], each a non-empty
    message. *)
Theorem errors_are_failed_messages (results : list Outcome) :
  List.length (errors (analyze results)) = failedRequests (analyze results)
  /\ (forall err, In err (errors (analyze results)) ->
        exists msg, err = Some msg /\ msg <> EmptyString).
Proof.
  unfold analyze. cbn [errors failedRequests]. split.
  - apply length_map.
  - intros err Hin. apply in_map_iff in Hin.
    destruct Hin as [r [<- Hr]]. unfold failed in Hr.
    apply filter_In in Hr. destruct Hr as [_ Ht].
    destruct (error r) as [msg|]; [|discriminate Ht].
    exists msg. split; [reflexivity|]. intros ->. discriminate Ht.
Qed.

Lemma fold_Qmin_bounds (l : list Q) (a : Q) :
  (fold_left Qmin l a <= a)%Q
  /\ (forall y, In y l -> (fold_left Qmin l a <= y)%Q).
Proof.
  revert a. induction l as [|x l IH]; intro a; cbn [fold_left].
  - split; [apply Qle_refl | intros y []].
  - destruct (IH (Qmin a x)) as [Ha Hin]. split.
    + apply Qle_trans with (Qmin a x); [exact Ha | apply Q.le_min_l].
    + intros y [<-|Hy]; [|apply Hin, Hy].
      apply Qle_trans with (Qmin a x); [exact Ha | apply Q.le_min_r].
Qed.

Lemma Qmin_cases (a x : Q) : Qmin a x = a \/ Qmin a x = x.
Proof.
  unfold Qmin, GenericMinMax.gmin. destruct (Qcompare a x); auto.
Qed.

Lemma fold_Qmin_In (l : list Q) (a : Q) : In (fold_left Qmin l a) (a :: l).
Proof.
  revert a. induction l as [|x l IH]; intro a; cbn [fold_left].
  - left. reflexivity.
  - destruct (IH (Qmin a x)) as [E|Hin].
    + rewrite <- E. destruct (Qmin_cases a x) as [-> | ->].
      * left. reflexivity.
      * right. left. reflexivity.
    + right. right. exact Hin.
Qed.

(** X26: whenever a summary reports latencies, the minimum and the
    maximum are latencies of successful outcomes, every such latency
    lies between them, and the minimum is at most the maximum.  (The
    average, a rounded sum divided by the count, need not lie between
    them.) *)
Theorem latencies_ordered (results : list Outcome) (lo hi : Q) :
  minLoadTime (analyze results) = Some lo ->
  maxLoadTime (analyze results) = Some hi ->
  In lo (latencies results) /\ In hi (latencies results)
  /\ (forall t, In t (latencies results) -> (lo <= t)%Q /\ (t <= hi)%Q)
  /\ (lo <= hi)%Q.
Proof.
  unfold analyze. cbn [minLoadTime maxLoadTime].
  rewrite loadTimes_latencies.
  destruct (latencies results) as [|x rest]; [discriminate|].
  cbn [List.length Nat.ltb Nat.leb reduce].
  intros Hlo Hhi.
  inversion Hlo; inversion Hhi; subst lo hi. clear Hlo Hhi.
  destruct (fold_Qmax_bounds rest x) as [Mx Min].
  destruct (fold_Qmin_bounds rest x) as [mx mIn].
  split; [apply fold_Qmin_In|]. split; [apply fold_Qmax_In|].
  split.
  - intros t [<-|Ht]; [split; assumption|].
    split; [apply mIn, Ht | apply Min, Ht].
  - apply Qle_trans with x; assumption.
Qed.

Lemma latencies_ordered_witness :
  (fdiv 800 1000 <= fdiv 1200 1000)%Q.
Proof.
  assert (Hlo : minLoadTime
                  (analyze (flat_map (batch mixed_env 3) (seq 0 1))) =
                Some (fdiv 800 1000)) by (vm_compute; reflexivity).
  assert (Hhi : maxLoadTime
                  (analyze (flat_map (batch mixed_env 3) (seq 0 1))) =
                Some (fdiv 1200 1000)) by (vm_compute; reflexivity).
  exact (proj2 (proj2 (proj2
           (latencies_ordered _ _ _ Hlo Hhi)))).
Defined.

End LoadGeneratorMore.
